(** * BakingDeploy: the ingredient extractor and its service glue

    A shallow embedding of [main.py]: the quantity parser, the regex-driven
    ingredient extractor, the validator of the model's JSON answer and the
    two HTTP handlers, followed by the properties proved about them.

    Conventions of the embedding.
    - A Python [str] is a [string]; a character is a code point below 256
      (the Latin-1 block), and the character classes of [re] and of the
      [str] methods are written out for that block.
    - A Python [float] is a binary64 value of [SpecFloat.spec_float].
    - Code that can raise runs in the error monad [py]; [try/except] is a
      match on its result.
    - The external collaborators (the generative model, [json.loads],
      [json.dumps], [str] of an exception object) are section variables.
    - The library functions the code calls ([Fraction], [float], [int],
      [re], the [str] methods, the rendering of a response as JSON) behave
      as in CPython 3.11: [Fraction] reads single underscores between
      digits, and [int] refuses a run of more than 4300 digits. *)

From Stdlib Require Import String Ascii ZArith NArith QArith List Bool Lia.
From Stdlib Require Import SpecFloat.
From stdpp Require Import gmap strings.
Import ListNotations.
Set Warnings "-register-all".

Local Open Scope string_scope.

(** ** Characters *)

Module Chr.

Definition code (a : ascii) : N := N_of_ascii a.

Definition in_range (lo hi n : N) : bool := ((lo <=? n) && (n <=? hi))%N.

(** [Py_UNICODE_ISSPACE]: the class behind [\s], [str.strip] and
    [str.split]. *)
Definition isspace (a : ascii) : bool :=
  let n := code a in
  in_range 9 13 n || in_range 28 32 n || (n =? 133)%N || (n =? 160)%N.

(** [Py_UNICODE_ISDECIMAL]: the class behind [\d]. *)
Definition isdecimal (a : ascii) : bool := in_range 48 57 (code a).

(** [Py_UNICODE_ISALNUM] or an underscore: the class behind [\w] and so
    behind [\b]. *)
Definition isword (a : ascii) : bool :=
  let n := code a in
  in_range 48 57 n || in_range 65 90 n || in_range 97 122 n || (n =? 95)%N
  || (n =? 170)%N || (n =? 178)%N || (n =? 179)%N || (n =? 181)%N
  || (n =? 185)%N || (n =? 186)%N || in_range 188 190 n
  || in_range 192 214 n || in_range 216 246 n || in_range 248 255 n.

(** Simple case mappings on code points; the two upper-case images that
    leave the block keep their Unicode value. *)
Definition tolower (n : N) : N :=
  if in_range 65 90 n || (in_range 192 222 n && negb (n =? 215)%N)
  then (n + 32)%N else n.

Definition toupper (n : N) : N :=
  if in_range 97 122 n || (in_range 224 254 n && negb (n =? 247)%N)
  then (n - 32)%N
  else if (n =? 181)%N then 924%N
  else if (n =? 255)%N then 376%N
  else n.

Definition lower (a : ascii) : ascii := ascii_of_N (tolower (code a)).

Definition is_ascii_letter (a : ascii) : bool :=
  in_range 65 90 (code a) || in_range 97 122 (code a).

Definition eqb (a b : ascii) : bool := (code a =? code b)%N.

Definition newline : ascii := "010"%char.

End Chr.

(** ** The [str] methods the program calls *)

Module Str.

Fixpoint all (p : ascii -> bool) (s : string) : bool :=
  match s with
  | EmptyString => true
  | String a s' => p a && all p s'
  end.

Fixpoint map (f : ascii -> ascii) (s : string) : string :=
  match s with
  | EmptyString => EmptyString
  | String a s' => String (f a) (map f s')
  end.

Fixpoint rev_app (s acc : string) : string :=
  match s with
  | EmptyString => acc
  | String a s' => rev_app s' (String a acc)
  end.

Definition rev (s : string) : string := rev_app s EmptyString.

Fixpoint take (n : nat) (s : string) : string :=
  match n, s with
  | S n', String a s' => String a (take n' s')
  | _, _ => EmptyString
  end.

Fixpoint drop (n : nat) (s : string) : string :=
  match n, s with
  | S n', String _ s' => drop n' s'
  | _, _ => s
  end.

Fixpoint starts_with (p s : string) : bool :=
  match p, s with
  | EmptyString, _ => true
  | String a p', String b s' => Chr.eqb a b && starts_with p' s'
  | String _ _, EmptyString => false
  end.

(** [needle in hay] *)
Fixpoint contains (needle hay : string) : bool :=
  starts_with needle hay
  || match hay with
     | EmptyString => false
     | String _ hay' => contains needle hay'
     end.

Fixpoint drop_while (p : ascii -> bool) (s : string) : string :=
  match s with
  | EmptyString => EmptyString
  | String a s' => if p a then drop_while p s' else s
  end.

Fixpoint take_while (p : ascii -> bool) (s : string) : string :=
  match s with
  | EmptyString => EmptyString
  | String a s' => if p a then String a (take_while p s') else EmptyString
  end.

Definition lstrip_by (p : ascii -> bool) (s : string) : string := drop_while p s.

Definition rstrip_by (p : ascii -> bool) (s : string) : string :=
  rev (drop_while p (rev s)).

(** [s.strip()] *)
Definition strip (s : string) : string :=
  rstrip_by Chr.isspace (lstrip_by Chr.isspace s).

(** [s.rstrip(chars)]: every trailing character that occurs in [chars]. *)
Definition rstrip (chars s : string) : string :=
  rstrip_by (fun a => contains (String a EmptyString) chars) s.

(** [s.lower()] *)
Definition lower (s : string) : string := map Chr.lower s.

(** [s.replace(a, b)] for one-character [a] and [b]. *)
Definition replace (a b : ascii) (s : string) : string :=
  map (fun c => if Chr.eqb c a then b else c) s.

(** [s.split()]: the maximal runs of non-whitespace characters. [cur] is
    the run being read, reversed. *)
Fixpoint split_ws (s cur : string) : list string :=
  match s with
  | EmptyString =>
      match cur with EmptyString => [] | _ => [rev cur] end
  | String a s' =>
      if Chr.isspace a
      then match cur with
           | EmptyString => split_ws s' EmptyString
           | _ => rev cur :: split_ws s' EmptyString
           end
      else split_ws s' (String a cur)
  end.

Definition split (s : string) : list string := split_ws s EmptyString.

Definition nonempty (s : string) : bool :=
  match s with EmptyString => false | _ => true end.

(** The character before the cursor once [t] has been read, [p] being the
    character before [t]. *)
Fixpoint last (p : option ascii) (t : string) : option ascii :=
  match t with
  | EmptyString => p
  | String a t' => last (Some a) t'
  end.

End Str.

(** ** The [re] module: a backtracking matcher

    Patterns are transcribed as syntax trees and run by a matcher with the
    priorities of Python's engine: alternatives left to right, a greedy
    repetition longest first, a lazy one shortest first, the first success
    wins. *)

Module Re.

Record flags := { ignorecase : bool; dotall : bool }.

(** An item of a character set, or a one-character pattern. *)
Inductive citem :=
| CLit (a : ascii)          (* a literal character *)
| CRange (lo hi : ascii)    (* lo-hi inside brackets *)
| CDigit                    (* \d *)
| CSpace                    (* \s *)
| CDot.                     (* . *)

Inductive regex :=
| Eps
| Cls (items : list citem)
| Seq (r1 r2 : regex)
| Alt (r1 r2 : regex)
| Star (greedy : bool) (r : regex)
| Group (n : nat) (r : regex)
| Lookahead (r : regex)     (* (?=r) *)
| Bol                       (* ^ *)
| Eol                       (* $ *)
| WordB.                    (* \b *)

Definition Plus (greedy : bool) (r : regex) : regex := Seq r (Star greedy r).
Definition Opt (r : regex) : regex := Alt r Eps.
Definition chr (a : ascii) : regex := Cls [CLit a].

Fixpoint Lit (s : string) : regex :=
  match s with
  | EmptyString => Eps
  | String a s' => Seq (chr a) (Lit s')
  end.

Fixpoint seqs (rs : list regex) : regex :=
  match rs with
  | [] => Eps
  | [r] => r
  | r :: rs' => Seq r (seqs rs')
  end.

Fixpoint alts (rs : list regex) : regex :=
  match rs with
  | [] => Eps
  | [r] => r
  | r :: rs' => Alt r (alts rs')
  end.

(** One item against one character, as [sre] does it: under IGNORECASE a
    literal compares lower-cased code points, and a range is tried on the
    lower-cased character and on its upper-case image. Characters are code
    points below 256. Beyond them, four characters also match a letter
    under IGNORECASE: U+017F like "s", U+212A like "k", U+0130 and U+0131
    like "i"; a text holding one of them is outside this model, and the
    statements about unit tokens say that the token is made of the letters
    a to z and A to Z. *)
Definition citem_match (fl : flags) (it : citem) (a : ascii) : bool :=
  match it with
  | CLit b =>
      if ignorecase fl
      then (Chr.tolower (Chr.code a) =? Chr.tolower (Chr.code b))%N
      else Chr.eqb a b
  | CRange lo hi =>
      if ignorecase fl
      then let l := Chr.tolower (Chr.code a) in
           Chr.in_range (Chr.code lo) (Chr.code hi) l
           || Chr.in_range (Chr.code lo) (Chr.code hi) (Chr.toupper l)
      else Chr.in_range (Chr.code lo) (Chr.code hi) (Chr.code a)
  | CDigit => Chr.isdecimal a
  | CSpace => Chr.isspace a
  | CDot => dotall fl || negb (Chr.eqb a Chr.newline)
  end.

Definition cls_match (fl : flags) (items : list citem) (a : ascii) : bool :=
  existsb (fun it => citem_match fl it a) items.

(** The captured groups, most recent first. *)
Definition caps := list (nat * string).

Fixpoint cap_lookup (n : nat) (g : caps) : option string :=
  match g with
  | [] => None
  | (m, s) :: g' => if Nat.eqb n m then Some s else cap_lookup n g'
  end.

Definition at_eol (s : string) : bool :=
  match s with
  | EmptyString => true
  | String a EmptyString => Chr.eqb a Chr.newline
  | _ => false
  end.

Definition word_before (p : option ascii) : bool :=
  match p with Some a => Chr.isword a | None => false end.

Definition word_after (s : string) : bool :=
  match s with String a _ => Chr.isword a | EmptyString => false end.

Definition at_boundary (p : option ascii) (s : string) : bool :=
  xorb (word_before p) (word_after s).

(** A continuation receives the cursor (the previous character and the
    remaining text) and the captures. *)
Definition cont (R : Type) : Type :=
  option ascii -> string -> caps -> option R.

(** The repetition of a pattern whose matcher is [body]: at most [n] more
    rounds, each of which must consume a character. A greedy repetition
    tries another round before leaving, a lazy one leaves first. *)
Fixpoint star_loop {R : Type} (greedy : bool)
    (body : option ascii -> string -> caps -> cont R -> option R)
    (k : cont R) (n : nat) (p : option ascii) (s : string) (g : caps)
    {struct n} : option R :=
  let more (_ : unit) :=
    match n with
    | O => None
    | S n' =>
        body p s g
          (fun p' s' g' =>
             if (String.length s' <? String.length s)%nat
             then star_loop greedy body k n' p' s' g' else None)
    end in
  if greedy
  then match more tt with Some x => Some x | None => k p s g end
  else match k p s g with Some x => Some x | None => more tt end.

(** [rmatch fl r p s g k]: match [r] at the cursor whose previous character
    is [p] and whose remaining text is [s], with captures [g]; every way of
    matching is offered to the continuation [k] in priority order, and the
    first answer of [k] is the result. A repetition never runs more often
    than there are characters left, since each round must consume one. *)
Fixpoint rmatch {R : Type} (fl : flags) (r : regex)
    (p : option ascii) (s : string) (g : caps) (k : cont R) {struct r}
  : option R :=
  match r with
  | Eps => k p s g
  | Cls items =>
      match s with
      | String a s' => if cls_match fl items a then k (Some a) s' g else None
      | EmptyString => None
      end
  | Seq r1 r2 =>
      rmatch fl r1 p s g (fun p' s' g' => rmatch fl r2 p' s' g' k)
  | Alt r1 r2 =>
      match rmatch fl r1 p s g k with
      | Some x => Some x
      | None => rmatch fl r2 p s g k
      end
  | Star greedy r1 =>
      star_loop greedy (fun p' s' g' k' => rmatch fl r1 p' s' g' k') k
        (String.length s) p s g
  | Group n r1 =>
      rmatch fl r1 p s g
        (fun p' s' g' =>
           k p' s' ((n, Str.take (String.length s - String.length s') s) :: g'))
  | Lookahead r1 =>
      match rmatch fl r1 p s g (fun _ _ g' => Some g') with
      | Some g' => k p s g'
      | None => None
      end
  | Bol => match p with None => k p s g | Some _ => None end
  | Eol => if at_eol s then k p s g else None
  | WordB => if at_boundary p s then k p s g else None
  end.

(** A match object: the matched text and the groups. *)
Record rematch := { whole : string; groups : caps }.

Definition group (n : nat) (m : rematch) : option string :=
  cap_lookup n (groups m).

(** Match at one position: the length of the match and its groups. *)
Definition match_at (fl : flags) (r : regex) (p : option ascii) (s : string)
  : option (nat * caps) :=
  rmatch fl r p s []
    (fun _ s' g => Some ((String.length s - String.length s')%nat, g)).

Definition match_here (fl : flags) (r : regex) (p : option ascii) (s : string)
  : option rematch :=
  match match_at fl r p s with
  | Some (len, g) => Some {| whole := Str.take len s; groups := g |}
  | None => None
  end.

(** [re.search]: the first position, from the left, where the pattern
    matches. *)
Fixpoint search_from (fl : flags) (r : regex) (p : option ascii) (s : string)
  : option rematch :=
  match match_here fl r p s with
  | Some m => Some m
  | None =>
      match s with
      | EmptyString => None
      | String a s' => search_from fl r (Some a) s'
      end
  end.

Definition search (fl : flags) (r : regex) (s : string) : option rematch :=
  search_from fl r None s.

(** [re.finditer]: the matches from left to right, each search starting
    where the previous match ended. [skip] counts the characters of the
    last match still to be passed over. *)
Fixpoint scan (fl : flags) (r : regex) (skip : nat) (p : option ascii)
    (s : string) : list rematch :=
  match skip with
  | S skip' =>
      match s with
      | EmptyString => []
      | String a s' => scan fl r skip' (Some a) s'
      end
  | O =>
      match match_at fl r p s with
      | Some (len, g) =>
          {| whole := Str.take len s; groups := g |}
          :: match s with
             | EmptyString => []
             | String a s' => scan fl r (Nat.pred len) (Some a) s'
             end
      | None =>
          match s with
          | EmptyString => []
          | String a s' => scan fl r 0 (Some a) s'
          end
      end
  end.

Definition finditer (fl : flags) (r : regex) (s : string) : list rematch :=
  scan fl r 0 None s.

(** [re.split] for a pattern without groups: the pieces between the
    matches. [cur] is the piece being read, reversed. *)
Fixpoint split_scan (fl : flags) (r : regex) (skip : nat) (p : option ascii)
    (s cur : string) : list string :=
  match skip with
  | S skip' =>
      match s with
      | EmptyString => [Str.rev cur]
      | String a s' => split_scan fl r skip' (Some a) s' cur
      end
  | O =>
      match s with
      | EmptyString => [Str.rev cur]
      | String a s' =>
          match match_at fl r p s with
          | Some (S len', _) =>
              Str.rev cur :: split_scan fl r len' (Some a) s' EmptyString
          | _ => split_scan fl r 0 (Some a) s' (String a cur)
          end
      end
  end.

Definition split (fl : flags) (r : regex) (s : string) : list string :=
  split_scan fl r 0 None s EmptyString.

(** Patterns without capturing groups, and patterns whose lookaheads have
    none. *)
Fixpoint no_groups (r : regex) : bool :=
  match r with
  | Seq r1 r2 | Alt r1 r2 => no_groups r1 && no_groups r2
  | Star _ r1 | Lookahead r1 => no_groups r1
  | Group _ _ => false
  | _ => true
  end.

Fixpoint plain_lookaheads (r : regex) : bool :=
  match r with
  | Seq r1 r2 | Alt r1 r2 => plain_lookaheads r1 && plain_lookaheads r2
  | Star _ r1 | Group _ r1 => plain_lookaheads r1
  | Lookahead r1 => no_groups r1
  | _ => true
  end.

(** Whether every character class of the consuming part of a pattern
    satisfies [P]; a lookahead consumes nothing. *)
Fixpoint all_cls (P : list citem -> bool) (r : regex) : bool :=
  match r with
  | Cls items => P items
  | Seq r1 r2 | Alt r1 r2 => all_cls P r1 && all_cls P r2
  | Star _ r1 | Group _ r1 => all_cls P r1
  | _ => true
  end.

(** An item that cannot match a comma, whatever the flags. *)
Definition item_excludes_comma (it : citem) : bool :=
  match it with
  | CLit a => negb (Chr.eqb a ",")
  | CRange lo hi => negb (Chr.in_range (Chr.code lo) (Chr.code hi) 44)
  | CDigit | CSpace => true
  | CDot => false
  end.

(** The ways a pattern can match, without the priorities: from the cursor
    [(p, s)] with captures [g] to the cursor [(p', s')] with captures
    [g']. The matcher only ever returns one of these. *)
Inductive matches (fl : flags)
  : regex -> option ascii -> string -> caps ->
    option ascii -> string -> caps -> Prop :=
| M_Eps p s g :
    matches fl Eps p s g p s g
| M_Cls items a p s g :
    cls_match fl items a = true ->
    matches fl (Cls items) p (String a s) g (Some a) s g
| M_Seq r1 r2 p s g p1 s1 g1 p2 s2 g2 :
    matches fl r1 p s g p1 s1 g1 ->
    matches fl r2 p1 s1 g1 p2 s2 g2 ->
    matches fl (Seq r1 r2) p s g p2 s2 g2
| M_AltL r1 r2 p s g p' s' g' :
    matches fl r1 p s g p' s' g' ->
    matches fl (Alt r1 r2) p s g p' s' g'
| M_AltR r1 r2 p s g p' s' g' :
    matches fl r2 p s g p' s' g' ->
    matches fl (Alt r1 r2) p s g p' s' g'
| M_Star0 greedy r p s g :
    matches fl (Star greedy r) p s g p s g
| M_StarS greedy r p s g p1 s1 g1 p2 s2 g2 :
    matches fl r p s g p1 s1 g1 ->
    (String.length s1 < String.length s)%nat ->
    matches fl (Star greedy r) p1 s1 g1 p2 s2 g2 ->
    matches fl (Star greedy r) p s g p2 s2 g2
| M_Group n r p s g p' s' g' :
    matches fl r p s g p' s' g' ->
    matches fl (Group n r) p s g p' s'
      ((n, Str.take (String.length s - String.length s') s) :: g')
| M_Lookahead r p s g p1 s1 g1 :
    matches fl r p s g p1 s1 g1 ->
    matches fl (Lookahead r) p s g p s g1
| M_Bol s g :
    matches fl Bol None s g None s g
| M_Eol p s g :
    at_eol s = true ->
    matches fl Eol p s g p s g
| M_WordB p s g :
    at_boundary p s = true ->
    matches fl WordB p s g p s g.

End Re.

(** ** Exceptions and the error monad *)

Inductive exn :=
| ValueError
| ZeroDivisionError
| OverflowError
| TypeError
| KeyError
| AttributeError
| ServiceError (msg : string)                   (* raised by a collaborator *)
| HTTPException (status_code : Z) (detail : string).

Inductive py (A : Type) :=
| Ok (a : A)
| Raise (e : exn).
Arguments Ok {A} a.
Arguments Raise {A} e.

#[global] Instance py_ret : MRet py := fun _ a => Ok a.

#[global] Instance py_bind : MBind py := fun _ _ f m =>
  match m with
  | Ok a => f a
  | Raise e => Raise e
  end.

(** ** Floats: binary64 *)

Module Float.

Definition float := spec_float.
Definition prec : Z := 53.
Definition emax : Z := 1024.

(** The binary64 value nearest to [n/d], ties to even; infinite when the
    quotient is out of range. *)
Definition of_ratio (n : Z) (d : positive) : float :=
  match n with
  | Z0 => S754_zero false
  | Zpos m => SFdiv prec emax (S754_finite false m 0) (S754_finite false d 0)
  | Zneg m => SFdiv prec emax (S754_finite true m 0) (S754_finite false d 0)
  end.

(** The binary64 value nearest to the rational [q], whatever fraction
    presents it. *)
Definition of_Q (q : Q) : float :=
  of_ratio (Qnum (Qred q)) (Qden (Qred q)).

Definition add (x y : float) : float := SFadd prec emax x y.
Definition neg (x : float) : float := SFopp x.

(** [bool(x)]: every float but the two zeros is true. *)
Definition truthy (x : float) : bool :=
  match x with
  | S754_zero _ => false
  | _ => true
  end.

Definition is_zero (x : float) : bool := negb (truthy x).

End Float.

(** ** Number literals: [fractions.Fraction(str)] and [float(str)] *)

Module Num.

Definition digit_val (a : ascii) : Z := Z.of_N (Chr.code a) - 48.

(** [int(s)] for a string of decimal digits, read from the left. *)
Fixpoint digits_value (acc : Z) (s : string) : Z :=
  match s with
  | EmptyString => acc
  | String a s' => digits_value (10 * acc + digit_val a) s'
  end.

Definition Z_of_digits (s : string) : Z := digits_value 0 s.

(** The leading run of digits and what follows it. *)
Definition span_digits (s : string) : string * string :=
  (Str.take_while Chr.isdecimal s, Str.drop_while Chr.isdecimal s).

Definition is_sign (a : ascii) : bool := Chr.eqb a "+" || Chr.eqb a "-".
Definition is_e (a : ascii) : bool := Chr.eqb a "e" || Chr.eqb a "E".

(** An optional sign: whether it is a minus, and the rest. *)
Definition read_sign (s : string) : bool * string :=
  match s with
  | String a s' => if is_sign a then (Chr.eqb a "-", s') else (false, s)
  | EmptyString => (false, s)
  end.

(** The leading numeral of a text, as [fractions] reads it: digits, with
    single underscores allowed between two digits. The digits are returned
    without the underscores, with what follows the numeral. *)
Fixpoint span_number (s : string) : string * string :=
  match s with
  | String a s' =>
      if Chr.isdecimal a
      then
        match s' with
        | String u (String b _ as s'') =>
            if Chr.eqb u "_" && Chr.isdecimal b
            then let '(ds, tl) := span_number s'' in (String a ds, tl)
            else let '(ds, tl) := span_number s' in (String a ds, tl)
        | _ => let '(ds, tl) := span_number s' in (String a ds, tl)
        end
      else (EmptyString, s)
  | EmptyString => (EmptyString, EmptyString)
  end.

(** [sys.int_info.default_max_str_digits]: [int(str)] refuses a text of more
    digits with a [ValueError]; underscores and the sign do not count,
    leading zeros do. *)
Definition int_max_str_digits : nat := 4300.

(** [int(ds)] for the digits of a numeral. *)
Definition int_of_digits (ds : string) : py Z :=
  if (String.length ds <=? int_max_str_digits)%nat
  then Ok (Z_of_digits ds)
  else Raise ValueError.

(** The exponent part of a [Fraction] literal, which must reach the end of
    the text: whether it is negative, and its digits. No exponent is the
    exponent zero. *)
Definition read_exponent_digits (s : string) : option (bool * string) :=
  match s with
  | EmptyString => Some (false, EmptyString)
  | String a s' =>
      if is_e a
      then let '(neg, s'') := read_sign s' in
           let '(ds, tl) := span_number s'' in
           match ds, tl with
           | String _ _, EmptyString => Some (neg, ds)
           | _, _ => None
           end
      else None
  end.

(** An exponent part [E[+-]digits] that must reach the end of the text. *)
Definition read_exponent (s : string) : option Z :=
  match s with
  | EmptyString => Some 0%Z
  | String a s' =>
      if is_e a
      then let '(neg, s'') := read_sign s' in
           let '(ds, tl) := span_digits s'' in
           match ds, tl with
           | String _ _, EmptyString =>
               Some (if neg then - Z_of_digits ds else Z_of_digits ds)%Z
           | _, _ => None
           end
      else None
  end.

(** Numerator and denominator of [num.decimal E exp]. *)
Definition scale_decimal (num decimal : string) (exp : Z) : Z * Z :=
  let scale := (10 ^ Z.of_nat (String.length decimal))%Z in
  let n := (Z_of_digits num * scale + Z_of_digits decimal)%Z in
  if (0 <=? exp)%Z then (n * 10 ^ exp, scale)%Z
  else (n, scale * 10 ^ (- exp))%Z.

(** A fraction in lowest terms. *)
Definition Fraction := Q.

Definition mkFraction (n d : Z) : py Fraction :=
  match d with
  | Zpos p => Ok (Qred (Qmake n p))
  | _ => Raise ZeroDivisionError
  end.

Definition signed (neg : bool) (n : Z) : Z := if neg then (- n)%Z else n.

(** The value of [sign num/denom]: [int] reads the numerator, then the
    denominator; a zero denominator raises. Both must be there and the
    denominator must reach the end of the text. *)
Definition ratio_literal (neg : bool) (num denom tl : string) : py Fraction :=
  match num, denom, tl with
  | String _ _, String _ _, EmptyString =>
      n ← int_of_digits num;
      d ← int_of_digits denom;
      mkFraction (signed neg n) d
  | _, _, _ => Raise ValueError
  end.

(** The value of [sign num.decimal E exp], where [tl] is what follows the
    decimal part: [int] reads the three numerals in this order. *)
Definition decimal_literal (neg : bool) (num decimal tl : string)
  : py Fraction :=
  match read_exponent_digits tl with
  | Some (eneg, ex) =>
      _ ← int_of_digits num;
      _ ← int_of_digits decimal;
      e ← int_of_digits ex;
      let '(n, d) := scale_decimal num decimal (signed eneg e) in
      mkFraction (signed neg n) d
  | None => Raise ValueError
  end.

(** [Fraction(s)]: the text must match, up to surrounding whitespace,
    [sign? num ( /denom | (.decimal)? (E exp)? )] with [num] or [decimal]
    starting with a digit, each of them a numeral. *)
Definition Fraction_of_str (s : string) : py Fraction :=
  let '(neg, body) := read_sign (Str.strip s) in
  let '(num, tl) := span_number body in
  match tl with
  | String "/"%char tl' =>
      let '(denom, tl'') := span_number tl' in
      ratio_literal neg num denom tl''
  | String "."%char tl' =>
      let '(decimal, tl'') := span_number tl' in
      match num, decimal with
      | EmptyString, EmptyString => Raise ValueError
      | _, _ => decimal_literal neg num decimal tl''
      end
  | _ =>
      match num with
      | EmptyString => Raise ValueError
      | _ => decimal_literal neg num EmptyString tl
      end
  end.

(** [float(f)] for a fraction: the true division of numerator by
    denominator, correctly rounded; a quotient out of range raises. *)
Definition float_of_Fraction (f : Fraction) : py Float.float :=
  match Float.of_ratio (Qnum f) (Qden f) with
  | S754_infinity _ => Raise OverflowError
  | x => Ok x
  end.

(** Underscores of a numeric literal: each one stands between two digits;
    they are removed. *)
Fixpoint drop_underscores (prev : option ascii) (s : string) : option string :=
  match s with
  | EmptyString => Some EmptyString
  | String a s' =>
      if Chr.eqb a "_"
      then match prev, s' with
           | Some b, String c _ =>
               if Chr.isdecimal b && Chr.isdecimal c
               then drop_underscores (Some a) s' else None
           | _, _ => None
           end
      else match drop_underscores (Some a) s' with
           | Some t => Some (String a t)
           | None => None
           end
  end.

(** [float(s)]: [inf], [infinity] and [nan] in any case, or a decimal
    literal, correctly rounded; an overflow gives an infinity. *)
Definition float_of_str (s : string) : py Float.float :=
  let '(neg, body) := read_sign (Str.strip s) in
  let signed (x : Float.float) := if neg then Float.neg x else x in
  let word := Str.lower body in
  if String.eqb word "inf" || String.eqb word "infinity"
  then Ok (signed (S754_infinity false))
  else if String.eqb word "nan" then Ok S754_nan
  else
    match drop_underscores None body with
    | None => Raise ValueError
    | Some lit =>
        let '(num, tl) := span_digits lit in
        let '(decimal, tl') :=
          match tl with
          | String "."%char t => span_digits t
          | _ => (EmptyString, tl)
          end in
        match num, decimal with
        | EmptyString, EmptyString => Raise ValueError
        | _, _ =>
            match read_exponent tl' with
            | Some exp =>
                let '(n, d) := scale_decimal num decimal exp in
                Ok (signed (Float.of_Q (Qmake n (Z.to_pos d))))
            | None => Raise ValueError
            end
        end
    end.

End Num.

(** ** [parse_quantity] *)

(** The body of the [try] block. *)
Definition parse_quantity_body (qty_str : string) : py Float.float :=
  if Str.contains " " qty_str && Str.contains "/" qty_str
  then
    match Str.split qty_str with
    | [whole; fraction] =>
        w ← Num.float_of_str whole;
        f ← Num.Fraction_of_str fraction;
        x ← Num.float_of_Fraction f;
        Ok (Float.add w x)
    | _ => Raise ValueError                  (* the unpacking fails *)
    end
  else
    f ← Num.Fraction_of_str qty_str;
    Num.float_of_Fraction f.

(** The bare [except] turns every exception into [None]. *)
Definition parse_quantity (qty_str : string) : option Float.float :=
  match parse_quantity_body qty_str with
  | Ok x => Some x
  | Raise _ => None
  end.

(** ** [extract_ingredients] *)

Record IngredientRecord := {
  ingredient : string;
  quantity : Float.float;
  unit_ : string                             (* the key "unit" *)
}.

Definition IGNORECASE : Re.flags := {| Re.ignorecase := true; Re.dotall := false |}.

Definition digits : Re.regex := Re.Plus true (Re.Cls [Re.CDigit]).        (* \d+ *)
Definition space : Re.regex := Re.Cls [Re.CSpace].                        (* \s *)
Definition letters : Re.regex :=                                          (* [a-zA-Z]+ *)
  Re.Plus true (Re.Cls [Re.CRange "a" "z"; Re.CRange "A" "Z"]).
Definition dot : Re.regex := Re.Cls [Re.CDot].                            (* . *)

(** The pattern "\d+/\d+|\d+\.\d+|\d+\s\d+/\d+|\d+". *)
Definition quantity_re : Re.regex :=
  Re.alts [ Re.seqs [digits; Re.chr "/"; digits];
            Re.seqs [digits; Re.chr "."; digits];
            Re.seqs [digits; space; digits; Re.chr "/"; digits];
            digits ].

(** The pattern
    "\b(cups?|tbsps?|tsps?|oz|lbs?|teaspoons?|tablespoons?|g|kg|ml)\b". *)
Definition unit_alternatives : list Re.regex :=
  [ Re.Seq (Re.Lit "cup") (Re.Opt (Re.chr "s"));
    Re.Seq (Re.Lit "tbsp") (Re.Opt (Re.chr "s"));
    Re.Seq (Re.Lit "tsp") (Re.Opt (Re.chr "s"));
    Re.Lit "oz";
    Re.Seq (Re.Lit "lb") (Re.Opt (Re.chr "s"));
    Re.Seq (Re.Lit "teaspoon") (Re.Opt (Re.chr "s"));
    Re.Seq (Re.Lit "tablespoon") (Re.Opt (Re.chr "s"));
    Re.Lit "g";
    Re.Lit "kg";
    Re.Lit "ml" ].

Definition unit_pattern : Re.regex :=
  Re.seqs [ Re.WordB; Re.Group 1 (Re.alts unit_alternatives); Re.WordB ].

(** The line pattern, piece by piece: "-", "\s*", an opening parenthesis
    of group 1, "(\d+/\d+|\d+\.\d+|\d+\s\d+/\d+|\d+)", "\s*", "([a-zA-Z]+)",
    "\s+", ".*?", the closing parenthesis of group 1, "(?=,|\n|$)". *)
Definition line_re : Re.regex :=
  Re.seqs [ Re.chr "-";
            Re.Star true space;
            Re.Group 1 (Re.seqs [
              Re.Group 2 quantity_re;
              Re.Star true space;
              Re.Group 3 letters;
              Re.Plus true space;
              Re.Star false dot ]);
            Re.Lookahead (Re.alts [Re.chr ","; Re.chr Chr.newline; Re.Eol]) ].

(** The pattern ",\s*(?=\d)". *)
Definition split_re : Re.regex :=
  Re.seqs [ Re.chr ","; Re.Star true space; Re.Lookahead (Re.Cls [Re.CDigit]) ].

(** The part pattern, piece by piece: "^",
    "(\d+/\d+|\d+\.\d+|\d+\s\d+/\d+|\d+)", "\s*", "([a-zA-Z]+)", "\s*" and
    ".*" as group 3. *)
Definition part_re : Re.regex :=
  Re.seqs [ Re.Bol;
            Re.Group 1 quantity_re;
            Re.Star true space;
            Re.Group 2 letters;
            Re.Star true space;
            Re.Group 3 (Re.Star true dot) ].

(** [quantity and unit and ingredient_part] *)
Definition quantity_truthy (q : option Float.float) : bool :=
  match q with
  | Some x => Float.truthy x
  | None => false
  end.

(** The three groups of a match of [part_re]. *)
Definition part_groups (part : string) : option (string * string * string) :=
  match Re.search IGNORECASE part_re part with
  | Some m =>
      match Re.group 1 m, Re.group 2 m, Re.group 3 m with
      | Some qty, Some unit, Some ingredient_part =>
          Some (qty, unit, ingredient_part)
      | _, _, _ => None                      (* every group takes part *)
      end
  | None => None
  end.

(** The body of the inner loop: the record appended for one part, if any. *)
Definition parse_part (part : string) : option IngredientRecord :=
  match part_groups part with
  | None => None                             (* continue *)
  | Some (qty, unit, ingredient_part) =>
      match Re.search IGNORECASE unit_pattern (Str.rstrip "s" unit) with
      | None => None                         (* continue *)
      | Some unit_match =>
          let unit := Str.lower (Re.whole unit_match) in
          let quantity := parse_quantity qty in
          match quantity with
          | Some q =>
              if Float.truthy q && Str.nonempty unit
                 && Str.nonempty ingredient_part
              then Some {| ingredient :=
                             Str.strip (Str.replace "-" " "
                                          (Str.lower ingredient_part));
                           quantity := q;
                           unit_ := unit |}
              else None
          | None => None
          end
      end
  end.

Definition not_comma (a : ascii) : bool := negb (Chr.eqb a ",").

(** The parts of one discovered line. *)
Definition line_parts (full_match : string) : list string :=
  List.map Str.strip (Re.split IGNORECASE split_re full_match).

(** The text of group 1 of every match of the line pattern. *)
Definition discovered_lines (text : string) : list string :=
  omap (Re.group 1) (Re.finditer IGNORECASE line_re text).

Definition extract_ingredients (text : string) : list IngredientRecord :=
  List.flat_map (fun full_match => omap parse_part (line_parts full_match))
    (discovered_lines text).

(** ** JSON values and the operations the validator applies to them *)

Inductive json :=
| JNull
| JBool (b : bool)
| JInt (n : Z)
| JFloat (x : Float.float)
| JStr (s : string)
| JArr (items : list json)
| JObj (fields : gmap string json).

Module PyObj.

(** [v[key]] for a string key. *)
Definition getitem (v : json) (key : string) : py json :=
  match v with
  | JObj fields =>
      match fields !! key with
      | Some x => Ok x
      | None => Raise KeyError
      end
  | _ => Raise TypeError
  end.

(** [v.pop(key, None)], for its effect on [v]. *)
Definition pop (v : json) (key : string) : py json :=
  match v with
  | JObj fields => Ok (JObj (delete key fields))
  | JArr _ => Raise TypeError
  | _ => Raise AttributeError
  end.

(** [del v[key]] *)
Definition delitem (v : json) (key : string) : py json :=
  match v with
  | JObj fields =>
      match fields !! key with
      | Some _ => Ok (JObj (delete key fields))
      | None => Raise KeyError
      end
  | _ => Raise TypeError
  end.

Definition is_str (s : string) (v : json) : bool :=
  match v with
  | JStr t => String.eqb s t
  | _ => false
  end.

(** [s in v] for a string [s]: a key of a dict, an element of a list, a
    substring of a string. *)
Definition contains (s : string) (v : json) : py bool :=
  match v with
  | JObj fields => Ok (bool_decide (is_Some (fields !! s)))
  | JArr items => Ok (existsb (is_str s) items)
  | JStr t => Ok (Str.contains s t)
  | _ => Raise TypeError
  end.

(** What a [for] loop over [v] visits. *)
Definition iter (v : json) : py (list json) :=
  match v with
  | JArr items => Ok items
  | JObj fields => Ok (List.map (fun kv => JStr (fst kv)) (map_to_list fields))
  | JStr s => Ok (List.map (fun a => JStr (String a EmptyString))
                    (list_ascii_of_string s))
  | _ => Raise TypeError
  end.

(** [bool(v)] *)
Definition truthy (v : json) : bool :=
  match v with
  | JNull => false
  | JBool b => b
  | JInt n => negb (n =? 0)%Z
  | JFloat x => Float.truthy x
  | JStr s => Str.nonempty s
  | JArr items => match items with [] => false | _ => true end
  | JObj fields => negb (bool_decide (fields = ∅))
  end.

End PyObj.

Fixpoint py_mapM {A B : Type} (f : A -> py B) (l : list A) : py (list B) :=
  match l with
  | [] => Ok []
  | a :: l' => b ← f a; bs ← py_mapM f l'; Ok (b :: bs)
  end.

(** ** [convert_with_gemini] *)

(** The body of the loop over the result items. The items of a freshly
    parsed document are distinct objects, so updating one in place is
    replacing it in the list. *)
Definition cleanup_item (item : json) : py json :=
  item ← PyObj.pop item "notes";
  item ← PyObj.pop item "state";
  has_ml ← PyObj.contains "ml" item;
  both ← (if has_ml : bool then PyObj.contains "grams" item else Ok false);
  if both : bool
  then
    name ← PyObj.getitem item "ingredient";
    is_flour ← PyObj.contains "flour" name;
    if is_flour : bool then PyObj.delitem item "ml"
    else PyObj.delitem item "grams"
  else Ok item.

(** The loop, and the value of [result["results"]] after it. *)
Definition cleanup_results (results : json) : py json :=
  items ← PyObj.iter results;
  items' ← py_mapM cleanup_item items;
  Ok match results with
     | JArr _ => JArr items'
     | _ => results
     end.

(** Whether an item carries both measures. *)
Definition has_both (item : json) : bool :=
  match item with
  | JObj fields =>
      bool_decide (is_Some (fields !! "ml"))
      && bool_decide (is_Some (fields !! "grams"))
  | _ => false
  end.

Definition DOTALL : Re.flags := {| Re.ignorecase := false; Re.dotall := true |}.

(** The pattern "\{.*\}". *)
Definition braces_re : Re.regex :=
  Re.seqs [ Re.chr "{"; Re.Star true dot; Re.chr "}" ].

Definition dq : string := String "034"%char EmptyString.
Definition nl : string := String Chr.newline EmptyString.

Definition prompt_head : string :=
  nl ++
  "    Convert these baking ingredients to PRECISE grams or milliliters. " ++ nl ++
  "    Return ONLY this JSON format (no other text/comments):" ++ nl ++
  "    {" ++ nl ++
  "      " ++ dq ++ "results" ++ dq ++ ": [" ++ nl ++
  "        {" ++ nl ++
  "          " ++ dq ++ "ingredient" ++ dq ++ ": string," ++ nl ++
  "          " ++ dq ++ "grams" ++ dq ++ ": number (for dry ingredients)," ++ nl ++
  "          " ++ dq ++ "ml" ++ dq ++ ": number (for liquids)" ++ nl ++
  "        }" ++ nl ++
  "      ]" ++ nl ++
  "    }" ++ nl ++
  nl ++
  "    RULES:" ++ nl ++
  "    1. Use EXACTLY the ingredient names provided" ++ nl ++
  "    2. Only include " ++ dq ++ "grams" ++ dq ++ " OR " ++ dq ++ "ml" ++ dq
    ++ " per ingredient (never both)" ++ nl ++
  "    3. Skip all optional fields like " ++ dq ++ "notes" ++ dq ++ ", "
    ++ dq ++ "state" ++ dq ++ ", etc." ++ nl ++
  "    4. Use standard conversions:" ++ nl ++
  "       - 1 cup flour = 125g" ++ nl ++
  "       - 1 cup water = 240ml" ++ nl ++
  "       - 1 tbsp butter = 14g" ++ nl ++
  nl ++
  "    Ingredients to convert:" ++ nl ++
  "    ".

Definition prompt_tail : string := nl ++ "    ".

Definition json_of_record (r : IngredientRecord) : json :=
  JObj (<["ingredient" := JStr (ingredient r)]>
        (<["quantity" := JFloat (quantity r)]>
         (<["unit" := JStr (unit_ r)]> ∅))).

Section Service.

(** [gemini.generate_content(prompt).text]: the answer, or an exception. *)
Variable generate_content : string -> py string.
(** [json.loads] *)
Variable json_loads : string -> py json.
(** [json.dumps(ingredients, indent=2)] *)
Variable json_dumps : list IngredientRecord -> string.
(** [str(e)] for an exception object. *)
Variable exn_str : exn -> string.

Definition prompt (ingredients : list IngredientRecord) : string :=
  prompt_head ++ json_dumps ingredients ++ prompt_tail.

(** The body of the [try] block. *)
Definition convert_body (ingredients : list IngredientRecord) : py json :=
  text ← generate_content (prompt ingredients);
  json_str ← match Re.search DOTALL braces_re text with
              | Some m => Ok (Re.whole m)
              | None => Raise AttributeError     (* None has no group() *)
              end;
  result ← json_loads json_str;
  results ← PyObj.getitem result "results";
  cleanup_results results.

(** [except Exception] logs the cause and returns [None]. *)
Definition convert_with_gemini (ingredients : list IngredientRecord)
  : option json :=
  match convert_body ingredients with
  | Ok v => Some v
  | Raise _ => None
  end.

(** ** The HTTP handlers *)

Definition json_of_option (o : option json) : json :=
  match o with
  | Some v => v
  | None => JNull
  end.


(** The body of the [try] block of [POST /convert-recipe]. *)
Definition convert_recipe_body (text : string) : py json :=
  let ingredients := extract_ingredients text in
  _ ← (match ingredients with
       | [] => Raise (HTTPException 400 "No ingredients detected")
       | _ => Ok tt
       end);
  let result := convert_with_gemini ingredients in
  _ ← (if PyObj.truthy (json_of_option result) then Ok tt
       else Raise (HTTPException 500 "Conversion failed"));
  Ok (JObj (<["status" := JStr "success"]>
            (<["ingredients" := JArr (List.map json_of_record ingredients)]>
             (<["conversions" := json_of_option result]> ∅)))).

(** [except Exception as e: raise HTTPException(500, detail=str(e))] *)
Definition convert_recipe (text : string) : py json :=
  match convert_recipe_body text with
  | Ok v => Ok v
  | Raise e => Raise (HTTPException 500 (exn_str e))
  end.

End Service.

(** ** Rendering a body as JSON

    The framework renders what a handler returns with
    [json.dumps(..., allow_nan=False)]: a float that is not finite raises
    [ValueError], and so does an integer of more digits than [repr]
    converts. Nothing else in a value of [json] can fail to render. *)
Definition finite_float (x : Float.float) : bool :=
  match x with
  | S754_nan | S754_infinity _ => false
  | _ => true
  end.

Fixpoint renderable (v : json) : bool :=
  match v with
  | JInt n => (Z.abs n <? 10 ^ Z.of_nat Num.int_max_str_digits)%Z
  | JFloat x => finite_float x
  | JArr items => forallb renderable items
  | JObj fields => map_fold (fun _ x acc => renderable x && acc) true fields
  | _ => true
  end.

(** What the framework sends for the outcome of a handler: the returned
    body with status 200 when it renders, a plain 500 when rendering it
    raises; the status and detail of an [HTTPException]; a plain 500 for
    any other exception. *)
Record response := { status : Z; body : json }.

Definition internal_server_error : response :=
  {| status := 500; body := JStr "Internal Server Error" |}.

Definition respond (r : py json) : response :=
  match r with
  | Ok b => if renderable b then {| status := 200; body := b |}
            else internal_server_error
  | Raise (HTTPException code detail) =>
      {| status := code; body := JObj {[ "detail" := JStr detail ]} |}
  | Raise _ => internal_server_error
  end.

(** ** The specification's reading of the parser and of the unit test

    These definitions follow the words of the specification, not the code;
    they are what the code is compared with. *)

Module Spec.

(** The four shapes of a valid quantity token. *)
Inductive token :=
| TInt (d : string)                 (* "2" *)
| TDec (i f : string)               (* "1.5" *)
| TFrac (n d : string)              (* "3/4" *)
| TMixed (w n d : string).          (* "1 1/3" *)

Definition digit_string (s : string) : bool :=
  Str.nonempty s && Str.all Chr.isdecimal s.

Definition token_valid (t : token) : bool :=
  match t with
  | TInt d => digit_string d
  | TDec i f => digit_string i && digit_string f
  | TFrac n d => digit_string n && digit_string d && negb (Num.Z_of_digits d =? 0)%Z
  | TMixed w n d =>
      digit_string w && digit_string n && digit_string d
      && negb (Num.Z_of_digits d =? 0)%Z
  end.

Definition token_text (t : token) : string :=
  match t with
  | TInt d => d
  | TDec i f => i ++ "." ++ f
  | TFrac n d => n ++ "/" ++ d
  | TMixed w n d => w ++ " " ++ n ++ "/" ++ d
  end.

Definition ratio (n d : string) : Q :=
  Qmake (Num.Z_of_digits n) (Z.to_pos (Num.Z_of_digits d)).

(** The exact rational a token denotes. *)
Definition token_value (t : token) : Q :=
  match t with
  | TInt d => inject_Z (Num.Z_of_digits d)
  | TDec i f =>
      (inject_Z (Num.Z_of_digits i)
       + Qmake (Num.Z_of_digits f) (Z.to_pos (10 ^ Z.of_nat (String.length f))))%Q
  | TFrac n d => ratio n d
  | TMixed w n d => (inject_Z (Num.Z_of_digits w) + ratio n d)%Q
  end.

(** "The mathematically exact rational value converted to floating
    point": one rounding, of the exact value. *)
Definition parse_quantity (t : token) : option Float.float :=
  Some (Float.of_Q (token_value t)).

(** The tokens whose digit runs [int] converts: none of the runs that
    [Fraction] reads has more digits than the limit. The whole part of a
    mixed number goes to [float], which has no limit. *)
Definition short (d : string) : bool :=
  (String.length d <=? Num.int_max_str_digits)%nat.

Definition within_limit (t : token) : bool :=
  match t with
  | TInt d => short d
  | TDec i f => short i && short f
  | TFrac n d => short n && short d
  | TMixed _ n d => short n && short d
  end.

(** Number texts, in the syntax of Python's [Fraction] and [float]. A
    numeral is a run of digits in which single underscores may stand
    between two digits. *)
Inductive numeral : string -> Prop :=
| Numeral_digit a : Chr.isdecimal a = true -> numeral (String a EmptyString)
| Numeral_more a s :
    Chr.isdecimal a = true -> numeral s -> numeral (String a s)
| Numeral_group a s :
    Chr.isdecimal a = true -> numeral s ->
    numeral (String a (String "_" s)).

Definition sign_text (s : string) : Prop := s = "" \/ s = "+" \/ s = "-".

(** An optional exponent: the letter E in either case, a sign, a numeral. *)
Definition exponent_text (s : string) : Prop :=
  s = ""
  \/ exists e sg n,
       s = String e (sg ++ n) /\ Num.is_e e = true /\ sign_text sg
       /\ numeral n.

(** A decimal literal: a numeral, a point and a numeral, of which one of
    the numerals may be missing, then an optional exponent. *)
Inductive decimal_text : string -> Prop :=
| Dec_int n x : numeral n -> exponent_text x -> decimal_text (n ++ x)
| Dec_point n x :
    numeral n -> exponent_text x -> decimal_text (n ++ "." ++ x)
| Dec_both n f x :
    numeral n -> numeral f -> exponent_text x ->
    decimal_text (n ++ "." ++ f ++ x)
| Dec_frac f x :
    numeral f -> exponent_text x -> decimal_text ("." ++ f ++ x).

(** What [Fraction] reads: whitespace around a sign and a decimal literal
    or a ratio of two numerals. *)
Definition fraction_text (s : string) : Prop :=
  exists sg b,
    Str.strip s = sg ++ b /\ sign_text sg
    /\ (decimal_text b
        \/ exists n d, b = n ++ "/" ++ d /\ numeral n /\ numeral d).

(** What [float] reads: whitespace around a sign and a decimal literal or
    one of the words inf, infinity and nan in any case. *)
Definition float_text (s : string) : Prop :=
  exists sg b,
    Str.strip s = sg ++ b /\ sign_text sg
    /\ (In (Str.lower b) ["inf"; "infinity"; "nan"] \/ decimal_text b).

(** The number texts of [parse_quantity]: a token that holds a space and a
    slash must split at its whitespace into a [float] text and a
    [Fraction] text; any other token must be a [Fraction] text. *)
Definition quantity_text (s : string) : Prop :=
  if Str.contains " " s && Str.contains "/" s
  then exists w f, Str.split s = [w; f] /\ float_text w /\ fraction_text f
  else fraction_text s.

(** A malformed token: a token that is no number text, among them the
    empty string and text without any digit, which the specification
    lists; and a fraction whose denominator is zero. *)
Definition zero_string (s : string) : bool :=
  Str.nonempty s && Str.all (fun a => Chr.eqb a "0") s.

Inductive malformed : string -> Prop :=
| Mal_empty : malformed EmptyString
| Mal_non_numeric s :
    Str.all (fun a => negb (Chr.isdecimal a)) s = true -> malformed s
| Mal_not_a_number s : ~ quantity_text s -> malformed s
| Mal_zero_denominator n z :
    digit_string n = true -> zero_string z = true ->
    malformed (n ++ "/" ++ z)
| Mal_mixed_zero_denominator w n z :
    digit_string w = true -> digit_string n = true -> zero_string z = true ->
    malformed (w ++ " " ++ n ++ "/" ++ z).

(** "Strip one trailing s". *)
Definition singularize (u : string) : string :=
  match Str.rev u with
  | String "s"%char r => Str.rev r
  | _ => u
  end.

Definition vocabulary : list string :=
  ["cup"; "tbsp"; "tsp"; "oz"; "lb"; "teaspoon"; "tablespoon"; "g"; "kg"; "ml"].

Definition in_list (s : string) (l : list string) : bool :=
  existsb (String.eqb s) l.

(** The unit test of the specification: the singularized token is, in any
    case, one of the ten units. *)
Definition unit_recognized (u : string) : bool :=
  in_list (Str.lower (singularize u)) vocabulary.

End Spec.

(** The forms the unit pattern accepts once the token is in lower case: the
    ten units, and the six plurals the pattern also spells. *)
Definition unit_forms : list string :=
  ["cup"; "cups"; "tbsp"; "tbsps"; "tsp"; "tsps"; "oz"; "lb"; "lbs";
   "teaspoon"; "teaspoons"; "tablespoon"; "tablespoons"; "g"; "kg"; "ml"].

(** The two outcomes of [float(Fraction(...))] for an exact value. *)
Definition float_of_exact (q : Q) : option Float.float :=
  match Float.of_Q q with
  | S754_infinity _ => None
  | x => Some x
  end.
(** * Proofs *)

(** ** Strings *)

Lemma app_cons a s t : String a s ++ t = String a (s ++ t).
Proof. reflexivity. Qed.

Lemma app_nil_l s : "" ++ s = s.
Proof. reflexivity. Qed.

Lemma app_nil_r s : s ++ "" = s.
Proof. induction s as [|a s IH]; [reflexivity|]. rewrite app_cons, IH. reflexivity. Qed.

Lemma app_assoc s t u : (s ++ t) ++ u = s ++ (t ++ u).
Proof.
  induction s as [|a s IH]; [reflexivity|]. rewrite !app_cons, IH. reflexivity.
Qed.

Lemma length_app s t :
  String.length (s ++ t) = (String.length s + String.length t)%nat.
Proof.
  induction s as [|a s IH]; [reflexivity|]. rewrite app_cons. simpl.
  rewrite IH. reflexivity.
Qed.

Lemma app_inv_tail s t u : s ++ u = t ++ u -> s = t.
Proof.
  revert t. induction s as [|a s IH]; intros [|b t] H.
  - reflexivity.
  - apply (f_equal String.length) in H. rewrite app_cons, app_nil_l in H.
    simpl in H. rewrite length_app in H. lia.
  - apply (f_equal String.length) in H. rewrite app_cons, app_nil_l in H.
    simpl in H. rewrite length_app in H. lia.
  - rewrite !app_cons in H. inversion H; subst. f_equal. apply IH. assumption.
Qed.

Lemma take_app t s : Str.take (String.length t) (t ++ s) = t.
Proof.
  induction t as [|a t IH]; [destruct s; reflexivity|].
  rewrite app_cons. simpl. rewrite IH. reflexivity.
Qed.

Lemma consumed_app t s :
  Str.take (String.length (t ++ s) - String.length s) (t ++ s) = t.
Proof.
  rewrite length_app. replace (String.length t + String.length s
    - String.length s)%nat with (String.length t) by lia. apply take_app.
Qed.

Lemma all_app p s t : Str.all p (s ++ t) = Str.all p s && Str.all p t.
Proof.
  induction s as [|a s IH]; [reflexivity|]. rewrite app_cons. simpl.
  rewrite IH. apply andb_assoc.
Qed.

Lemma rev_app_spec s acc : Str.rev_app s acc = Str.rev s ++ acc.
Proof.
  unfold Str.rev. revert acc. induction s as [|a s IH]; intros acc.
  - reflexivity.
  - simpl. rewrite IH, (IH (String a "")), app_assoc. reflexivity.
Qed.

Lemma rev_cons a s : Str.rev (String a s) = Str.rev s ++ String a "".
Proof. unfold Str.rev at 1. simpl. apply rev_app_spec. Qed.

Lemma rev_snoc s a : Str.rev (s ++ String a "") = String a (Str.rev s).
Proof.
  induction s as [|b s IH]; [reflexivity|].
  rewrite app_cons, !rev_cons, IH. reflexivity.
Qed.

Lemma rev_involutive s : Str.rev (Str.rev s) = s.
Proof.
  induction s as [|a s IH]; [reflexivity|]. rewrite rev_cons, rev_snoc, IH.
  reflexivity.
Qed.

Lemma all_rev p s : Str.all p (Str.rev s) = Str.all p s.
Proof.
  induction s as [|a s IH]; [reflexivity|].
  rewrite rev_cons, all_app, IH. simpl. rewrite andb_true_r. apply andb_comm.
Qed.

Lemma all_drop_while p q s :
  Str.all q s = true -> Str.all q (Str.drop_while p s) = true.
Proof.
  induction s as [|a s IH]; [reflexivity|]. simpl. intros H.
  destruct (p a); [|exact H]. apply IH. apply andb_true_iff in H. tauto.
Qed.

Lemma all_rstrip_by p q s :
  Str.all q s = true -> Str.all q (Str.rstrip_by p s) = true.
Proof.
  intros H. unfold Str.rstrip_by. rewrite all_rev. apply all_drop_while.
  rewrite all_rev. exact H.
Qed.

Lemma all_impl (p q : ascii -> bool) s :
  (forall a, p a = true -> q a = true) ->
  Str.all p s = true -> Str.all q s = true.
Proof.
  intros Hpq. induction s as [|a s IH]; [reflexivity|]. simpl.
  rewrite !andb_true_iff. intros [H1 H2]. auto.
Qed.

Lemma last_app p s t : Str.last p (s ++ t) = Str.last (Str.last p s) t.
Proof.
  revert p. induction s as [|a s IH]; intros p; [reflexivity|].
  rewrite app_cons. simpl. apply IH.
Qed.

Lemma nonempty_length s : Str.nonempty s = true <-> (0 < String.length s)%nat.
Proof. destruct s; simpl; split; intros; try lia; congruence. Qed.
(** ** The matcher returns only matches of the pattern *)

Lemma star_loop_sound (fl : Re.flags) (R : Type) (greedy : bool) (r : Re.regex)
    (k : Re.cont R)
    (IH : forall p s g (k' : Re.cont R) x,
        Re.rmatch fl r p s g k' = Some x ->
        exists p' s' g', Re.matches fl r p s g p' s' g' /\ k' p' s' g' = Some x) :
  forall n p s g x,
    Re.star_loop greedy (fun p' s' g' k' => Re.rmatch fl r p' s' g' k') k n p s g
      = Some x ->
    exists p' s' g',
      Re.matches fl (Re.Star greedy r) p s g p' s' g' /\ k p' s' g' = Some x.
Proof.
  assert (Hstop : forall p s g x, k p s g = Some x ->
            exists p' s' g',
              Re.matches fl (Re.Star greedy r) p s g p' s' g' /\ k p' s' g' = Some x).
  { intros p s g x Hk. exists p, s, g. split; [constructor | exact Hk]. }
  induction n as [|n IHn]; intros p s g x H; simpl in H.
  - destruct greedy; [auto|]. destruct (k p s g) eqn:E; [|discriminate].
    inversion H; subst. auto.
  - assert (Hmore : forall y,
        Re.rmatch fl r p s g
          (fun p' s' g' =>
             if (String.length s' <? String.length s)%nat
             then Re.star_loop greedy
                    (fun p' s' g' k' => Re.rmatch fl r p' s' g' k') k n p' s' g'
             else None) = Some y ->
        exists p' s' g',
          Re.matches fl (Re.Star greedy r) p s g p' s' g' /\ k p' s' g' = Some y).
    { intros y Hy. apply IH in Hy as (p1 & s1 & g1 & Hm & Hk).
      destruct (String.length s1 <? String.length s)%nat eqn:Hlt; [|discriminate].
      apply IHn in Hk as (p2 & s2 & g2 & Hm2 & Hk2).
      exists p2, s2, g2. split; [|exact Hk2].
      eapply Re.M_StarS; eauto. apply Nat.ltb_lt. exact Hlt. }
    destruct greedy.
    + match type of H with
      | match ?m with _ => _ end = _ => destruct m eqn:E
      end.
      * inversion H; subst. apply Hmore. reflexivity.
      * auto.
    + destruct (k p s g) eqn:E.
      * inversion H; subst. auto.
      * apply Hmore. exact H.
Qed.

Lemma rmatch_sound (fl : Re.flags) (r : Re.regex) :
  forall (R : Type) p s g (k : Re.cont R) x,
    Re.rmatch fl r p s g k = Some x ->
    exists p' s' g', Re.matches fl r p s g p' s' g' /\ k p' s' g' = Some x.
Proof.
  induction r as [ | items | r1 IH1 r2 IH2 | r1 IH1 r2 IH2 | greedy r IH
                 | n r IH | r IH | | | ]; intros R p s g k x H; simpl in H.
  - exists p, s, g. split; [constructor | exact H].
  - destruct s as [|a s]; [discriminate|].
    destruct (Re.cls_match fl items a) eqn:E; [|discriminate].
    exists (Some a), s, g. split; [constructor; exact E | exact H].
  - apply IH1 in H as (p1 & s1 & g1 & Hm1 & H).
    apply IH2 in H as (p2 & s2 & g2 & Hm2 & H).
    exists p2, s2, g2. split; [econstructor; eauto | exact H].
  - destruct (Re.rmatch fl r1 p s g k) eqn:E.
    + inversion H; subst. apply IH1 in E as (p1 & s1 & g1 & Hm & Hk).
      exists p1, s1, g1. split; [apply Re.M_AltL; exact Hm | exact Hk].
    + apply IH2 in H as (p1 & s1 & g1 & Hm & Hk).
      exists p1, s1, g1. split; [apply Re.M_AltR; exact Hm | exact Hk].
  - eapply star_loop_sound; [|exact H]. intros. eapply IH; eauto.
  - apply IH in H as (p1 & s1 & g1 & Hm & Hk).
    eexists _, _, _. split; [apply Re.M_Group; exact Hm | exact Hk].
  - destruct (Re.rmatch fl r p s g (fun _ _ g' => Some g')) as [g1|] eqn:E;
      [|discriminate].
    apply IH in E as (p1 & s1 & g1' & Hm & Hk). inversion Hk; subst.
    exists p, s, g1. split; [eapply Re.M_Lookahead; exact Hm | exact H].
  - destruct p; [discriminate|].
    exists None, s, g. split; [constructor | exact H].
  - destruct (Re.at_eol s) eqn:E; [|discriminate].
    exists p, s, g. split; [constructor; exact E | exact H].
  - destruct (Re.at_boundary p s) eqn:E; [|discriminate].
    exists p, s, g. split; [constructor; exact E | exact H].
Qed.

(** ** What a match consumes and captures *)

Lemma matches_consumes fl r p s g p' s' g' :
  Re.matches fl r p s g p' s' g' ->
  exists t, s = t ++ s' /\ p' = Str.last p t.
Proof.
  induction 1 as
    [ p s g | items a p s g Hc
    | r1 r2 p s g p1 s1 g1 p2 s2 g2 _ IH1 _ IH2
    | r1 r2 p s g p' s' g' _ IH | r1 r2 p s g p' s' g' _ IH
    | greedy r p s g
    | greedy r p s g p1 s1 g1 p2 s2 g2 _ IH1 Hlt _ IH2
    | n r p s g p' s' g' _ IH
    | r p s g p1 s1 g1 _ IH
    | s g | p s g He | p s g Hb ];
    try (exists ""; split; reflexivity); try exact IH.
  - exists (String a ""). split; reflexivity.
  - destruct IH1 as (t1 & -> & ->), IH2 as (t2 & -> & ->).
    exists (t1 ++ t2). rewrite app_assoc, last_app. split; reflexivity.
  - destruct IH1 as (t1 & -> & ->), IH2 as (t2 & -> & ->).
    exists (t1 ++ t2). rewrite app_assoc, last_app. split; reflexivity.
Qed.

Lemma matches_no_groups fl r p s g p' s' g' :
  Re.matches fl r p s g p' s' g' -> Re.no_groups r = true -> g' = g.
Proof.
  induction 1; simpl; intros Hn; try reflexivity;
    try (apply andb_true_iff in Hn as [Hn1 Hn2]); try discriminate; auto.
  - rewrite IHmatches2, IHmatches1; auto.
  - rewrite IHmatches2, IHmatches1; auto.
Qed.

(** Inversion, one constructor at a time. *)
Lemma matches_seq_inv fl r1 r2 p s g p' s' g' :
  Re.matches fl (Re.Seq r1 r2) p s g p' s' g' ->
  exists p1 s1 g1,
    Re.matches fl r1 p s g p1 s1 g1 /\ Re.matches fl r2 p1 s1 g1 p' s' g'.
Proof. intros H. inversion H; subst. eauto. Qed.

Lemma matches_wordb_inv fl p s g p' s' g' :
  Re.matches fl Re.WordB p s g p' s' g' ->
  Re.at_boundary p s = true /\ p' = p /\ s' = s /\ g' = g.
Proof. intros H. inversion H; subst. auto. Qed.

Lemma matches_bol_inv fl p s g p' s' g' :
  Re.matches fl Re.Bol p s g p' s' g' ->
  p = None /\ p' = None /\ s' = s /\ g' = g.
Proof. intros H. inversion H; subst. auto. Qed.

(** The group of a match is the text the group consumed. *)
Lemma matches_group fl n r p s g p' s' g' :
  Re.matches fl (Re.Group n r) p s g p' s' g' ->
  exists t g1, s = t ++ s' /\ p' = Str.last p t /\ g' = (n, t) :: g1
               /\ Re.matches fl r p s g p' s' g1.
Proof.
  intros H. inversion H; subst.
  match goal with Hm : Re.matches _ r _ _ _ _ _ _ |- _ =>
    destruct (matches_consumes _ _ _ _ _ _ _ _ Hm) as (t & Hs & Hp);
    exists t; eexists; repeat split; [exact Hs | exact Hp | | exact Hm]
  end.
  subst s. rewrite consumed_app. reflexivity.
Qed.

(** A repetition of a character class consumes characters of the class. *)
Lemma matches_star_cls fl greedy items p s g p' s' g' :
  Re.matches fl (Re.Star greedy (Re.Cls items)) p s g p' s' g' ->
  exists t, s = t ++ s' /\ Str.all (Re.cls_match fl items) t = true
            /\ p' = Str.last p t /\ g' = g.
Proof.
  remember (Re.Star greedy (Re.Cls items)) as r eqn:Hr.
  induction 1; try discriminate; inversion Hr; subst.
  - exists "". repeat split.
  - destruct (IHmatches2 eq_refl) as (t & -> & Hall & -> & ->).
    match goal with Hm : Re.matches _ (Re.Cls _) _ _ _ _ _ _ |- _ =>
      inversion Hm; subst end.
    exists (String a t). repeat split. simpl. rewrite Hall.
    match goal with Hc : Re.cls_match _ _ _ = true |- _ => rewrite Hc end.
    reflexivity.
Qed.

Lemma matches_plus_cls fl greedy items p s g p' s' g' :
  Re.matches fl (Re.Plus greedy (Re.Cls items)) p s g p' s' g' ->
  exists t, s = t ++ s' /\ Str.all (Re.cls_match fl items) t = true
            /\ Str.nonempty t = true /\ p' = Str.last p t /\ g' = g.
Proof.
  intros H. inversion H; subst.
  match goal with Hm : Re.matches _ (Re.Cls _) _ _ _ _ _ _ |- _ =>
    inversion Hm; subst end.
  match goal with Hm : Re.matches _ (Re.Star _ _) _ _ _ _ _ _ |- _ =>
    apply matches_star_cls in Hm as (t & -> & Hall & -> & ->) end.
  exists (String a t). repeat split. simpl. rewrite Hall.
  match goal with Hc : Re.cls_match _ _ _ = true |- _ => rewrite Hc end.
  reflexivity.
Qed.

(** A literal word, under IGNORECASE, consumes the word in some case. *)
Lemma matches_Lit w p s g p' s' g' :
  Re.matches IGNORECASE (Re.Lit w) p s g p' s' g' ->
  exists t, s = t ++ s' /\ Str.lower t = Str.lower w
            /\ p' = Str.last p t /\ g' = g.
Proof.
  revert p s g. induction w as [|b w IH]; intros p s g H; simpl in H.
  - inversion H; subst. exists "". repeat split.
  - inversion H; subst.
    match goal with Hm : Re.matches _ (Re.chr _) _ _ _ _ _ _ |- _ =>
      inversion Hm; subst end.
    match goal with Hm : Re.matches _ (Re.Lit _) _ _ _ _ _ _ |- _ =>
      apply IH in Hm as (t & -> & Hl & -> & ->) end.
    exists (String a t). repeat split. unfold Str.lower in *. simpl.
    rewrite Hl. f_equal.
    match goal with Hc : Re.cls_match _ _ _ = true |- _ =>
      simpl in Hc; rewrite orb_false_r in Hc; apply N.eqb_eq in Hc;
      unfold Chr.lower; rewrite Hc; reflexivity end.
Qed.

Lemma matches_alts fl rs p s g p' s' g' :
  rs <> [] ->
  Re.matches fl (Re.alts rs) p s g p' s' g' ->
  exists r, In r rs /\ Re.matches fl r p s g p' s' g'.
Proof.
  induction rs as [|r rs IH]; [congruence|]. intros _ H.
  destruct rs as [|r2 rs].
  - exists r. split; [left; reflexivity | exact H].
  - change (Re.alts (r :: r2 :: rs)) with (Re.Alt r (Re.alts (r2 :: rs))) in H.
    inversion H; subst.
    + exists r. split; [left; reflexivity | assumption].
    + destruct IH as (r' & Hin & Hm); [discriminate | assumption |].
      exists r'. split; [right; exact Hin | exact Hm].
Qed.

(** ** Searching *)

Lemma match_here_sound fl r p s m :
  Re.match_here fl r p s = Some m ->
  exists p' s' t,
    Re.matches fl r p s [] p' s' (Re.groups m)
    /\ s = t ++ s' /\ Re.whole m = t /\ p' = Str.last p t.
Proof.
  unfold Re.match_here, Re.match_at. intros H.
  destruct (Re.rmatch fl r p s [] _) as [[len g]|] eqn:E; [|discriminate].
  inversion H; subst; clear H.
  apply rmatch_sound in E as (p' & s' & g' & Hm & Hk). inversion Hk; subst.
  destruct (matches_consumes _ _ _ _ _ _ _ _ Hm) as (t & Hs & Hp).
  exists p', s', t. simpl. repeat split; try assumption.
  subst s. apply consumed_app.
Qed.

Lemma search_from_sound fl r p s m :
  Re.search_from fl r p s = Some m ->
  exists pre suf, s = pre ++ suf
    /\ Re.match_here fl r (Str.last p pre) suf = Some m.
Proof.
  revert p. induction s as [|a s IH]; intros p H; simpl in H.
  - destruct (Re.match_here fl r p "") eqn:E; [|discriminate].
    inversion H; subst. exists "", "". split; [reflexivity | exact E].
  - destruct (Re.match_here fl r p (String a s)) eqn:E.
    + inversion H; subst. exists "", (String a s). split; [reflexivity | exact E].
    + apply IH in H as (pre & suf & -> & Hm).
      exists (String a pre), suf. split; [reflexivity | exact Hm].
Qed.

(** ** The matcher finds a match whenever there is one *)

Lemma star_loop_complete (fl : Re.flags) (R : Type) (greedy : bool)
    (r : Re.regex) (k : Re.cont R)
    (IH : forall p s g p' s' g' (k' : Re.cont R) x,
        Re.matches fl r p s g p' s' g' -> k' p' s' g' = Some x ->
        exists y, Re.rmatch fl r p s g k' = Some y) :
  forall n p s g p' s' g' x,
    Re.matches fl (Re.Star greedy r) p s g p' s' g' ->
    (String.length s <= n)%nat ->
    k p' s' g' = Some x ->
    exists y,
      Re.star_loop greedy (fun p' s' g' k' => Re.rmatch fl r p' s' g' k') k
        n p s g = Some y.
Proof.
  induction n as [|n IHn]; intros p s g p' s' g' x Hm Hlen Hk;
    inversion Hm; subst; simpl.
  - destruct greedy; rewrite Hk; eauto.
  - lia.
  - destruct greedy.
    + match goal with |- exists y, match ?m with _ => _ end = _ =>
        destruct m; eauto end.
    + rewrite Hk. eauto.
  - match goal with
    | H1 : Re.matches _ r _ _ _ ?p1 ?s1 ?g1,
      H2 : Re.matches _ (Re.Star _ _) ?p1 ?s1 ?g1 _ _ _,
      Hlt : (String.length ?s1 < _)%nat |- _ =>
        destruct (IHn _ _ _ _ _ _ _ H2 ltac:(lia) Hk) as (y & Hy);
        destruct (IH _ _ _ _ _ _
                    (fun p' s' g' =>
                       if (String.length s' <? String.length s)%nat
                       then Re.star_loop greedy
                              (fun p' s' g' k' => Re.rmatch fl r p' s' g' k')
                              k n p' s' g'
                       else None) y H1) as (z & Hz);
        [ apply Nat.ltb_lt in Hlt; rewrite Hlt; exact Hy |]
    end.
    destruct greedy.
    + rewrite Hz. eauto.
    + destruct (k p s g); eauto.
Qed.

Lemma rmatch_complete (fl : Re.flags) (r : Re.regex) :
  Re.plain_lookaheads r = true ->
  forall (R : Type) p s g p' s' g' (k : Re.cont R) x,
    Re.matches fl r p s g p' s' g' -> k p' s' g' = Some x ->
    exists y, Re.rmatch fl r p s g k = Some y.
Proof.
  induction r as [ | items | r1 IH1 r2 IH2 | r1 IH1 r2 IH2 | greedy r IH
                 | n r IH | r IH | | | ]; simpl; intros Hp R p s g p' s' g' k x Hm Hk.
  - inversion Hm; subst. eauto.
  - inversion Hm; subst.
    match goal with Hc : Re.cls_match _ _ _ = true |- _ => rewrite Hc end. eauto.
  - apply andb_true_iff in Hp as [Hp1 Hp2]. inversion Hm; subst.
    match goal with
    | H1 : Re.matches _ r1 _ _ _ _ _ _, H2 : Re.matches _ r2 _ _ _ _ _ _ |- _ =>
        destruct (IH2 Hp2 _ _ _ _ _ _ _ _ _ H2 Hk) as (y & Hy);
        exact (IH1 Hp1 _ _ _ _ _ _ _ _ _ H1 Hy)
    end.
  - apply andb_true_iff in Hp as [Hp1 Hp2]. inversion Hm; subst.
    + match goal with H1 : Re.matches _ r1 _ _ _ _ _ _ |- _ =>
        destruct (IH1 Hp1 _ _ _ _ _ _ _ _ _ H1 Hk) as (y & Hy) end.
      rewrite Hy. eauto.
    + destruct (Re.rmatch fl r1 p s g k); [eauto|].
      match goal with H2 : Re.matches _ r2 _ _ _ _ _ _ |- _ =>
        exact (IH2 Hp2 _ _ _ _ _ _ _ _ _ H2 Hk) end.
  - eapply star_loop_complete; eauto.
  - inversion Hm; subst.
    match goal with H1 : Re.matches _ r _ _ _ _ _ _ |- _ =>
      exact (IH Hp _ _ _ _ _ _ _ _ _ H1 Hk) end.
  - inversion Hm; subst.
    match goal with H1 : Re.matches _ r _ _ _ _ _ _ |- _ =>
      pose proof (matches_no_groups _ _ _ _ _ _ _ _ H1 Hp) as ->;
      assert (Hpl : Re.plain_lookaheads r = true);
      [ clear -Hp; induction r; simpl in *; try reflexivity;
        try (apply andb_true_iff in Hp as [? ?]; apply andb_true_iff; split);
        auto; discriminate |];
      destruct (IH Hpl (Re.caps) _ _ _ _ _ _ (fun _ _ g' => Some g') g H1 eq_refl)
        as (y & Hy)
    end.
    rewrite Hy. apply rmatch_sound in Hy as (p2 & s2 & g2 & Hm2 & Hk2).
    inversion Hk2; subst.
    rewrite (matches_no_groups _ _ _ _ _ _ _ _ Hm2 Hp). eauto.
  - inversion Hm; subst. eauto.
  - inversion Hm; subst.
    match goal with He : Re.at_eol _ = true |- _ => rewrite He end. eauto.
  - inversion Hm; subst.
    match goal with Hb : Re.at_boundary _ _ = true |- _ => rewrite Hb end. eauto.
Qed.

(** ** Characters of the classes the patterns use *)

Ltac each_char a := destruct a as [[] [] [] [] [] [] [] []].

Ltac in_list := vm_compute; repeat first [left; reflexivity | right].

Lemma letters_class a :
  Re.cls_match IGNORECASE [Re.CRange "a" "z"; Re.CRange "A" "Z"] a = true ->
  Chr.is_ascii_letter a = true.
Proof. each_char a; vm_compute; congruence. Qed.

Lemma letter_isword a : Chr.is_ascii_letter a = true -> Chr.isword a = true.
Proof. each_char a; vm_compute; congruence. Qed.

Lemma letter_lower a :
  Chr.is_ascii_letter (Chr.lower a) = true -> Chr.is_ascii_letter a = true.
Proof. each_char a; vm_compute; congruence. Qed.

Lemma code_lower a : Chr.code (Chr.lower a) = Chr.tolower (Chr.code a).
Proof. each_char a; reflexivity. Qed.

Lemma lower_s a : Chr.lower a = "s"%char -> a = "s"%char \/ a = "S"%char.
Proof. each_char a; vm_compute; intros H; try discriminate H; auto. Qed.

Lemma all_letters_lower t :
  Str.all Chr.is_ascii_letter (Str.lower t) = true ->
  Str.all Chr.is_ascii_letter t = true.
Proof.
  induction t as [|a t IH]; [reflexivity|]. unfold Str.lower. simpl.
  rewrite !andb_true_iff. intros [H1 H2]. split; [apply letter_lower, H1 | auto].
Qed.

Lemma length_lower t : String.length (Str.lower t) = String.length t.
Proof. induction t as [|a t IH]; [reflexivity|]. unfold Str.lower in *. simpl. congruence. Qed.

Lemma lower_app s t : Str.lower (s ++ t) = Str.lower s ++ Str.lower t.
Proof.
  induction s as [|a s IH]; [reflexivity|]. unfold Str.lower in *.
  rewrite app_cons. simpl. rewrite IH. reflexivity.
Qed.

(** ** The unit pattern on a token of letters *)

Lemma matches_Lit_intro w : forall t p s' g,
  Str.lower t = Str.lower w ->
  Re.matches IGNORECASE (Re.Lit w) p (t ++ s') g (Str.last p t) s' g.
Proof.
  induction w as [|b w IH]; intros [|a t] p s' g H; try discriminate H.
  - constructor.
  - unfold Str.lower in H. simpl in H. inversion H as [[Ha Ht]].
    rewrite app_cons. simpl. econstructor.
    + constructor. simpl. rewrite orb_false_r. apply N.eqb_eq.
      rewrite <- !code_lower. congruence.
    + apply IH. exact Ht.
Qed.

(** Every alternative of the unit pattern consumes one of the unit forms. *)
Lemma unit_alternative_forms r p s g p' s' g' :
  In r unit_alternatives ->
  Re.matches IGNORECASE r p s g p' s' g' ->
  exists t, s = t ++ s' /\ In (Str.lower t) unit_forms
            /\ p' = Str.last p t /\ g' = g.
Proof.
  intros Hin Hm.
  assert (Hplural : forall w,
    Re.matches IGNORECASE (Re.Seq (Re.Lit w) (Re.Opt (Re.chr "s"))) p s g p' s' g' ->
    exists t, s = t ++ s'
              /\ (Str.lower t = Str.lower w \/ Str.lower t = Str.lower w ++ "s")
              /\ p' = Str.last p t /\ g' = g).
  { intros w H. inversion H; subst.
    match goal with H1 : Re.matches _ (Re.Lit _) _ _ _ _ _ _ |- _ =>
      apply matches_Lit in H1 as (t & -> & Hl & -> & ->) end.
    match goal with H2 : Re.matches _ (Re.Opt _) _ _ _ _ _ _ |- _ =>
      inversion H2; subst end.
    - match goal with H3 : Re.matches _ (Re.chr _) _ _ _ _ _ _ |- _ =>
        inversion H3; subst end.
      exists (t ++ String a ""). rewrite app_assoc, last_app, lower_app.
      repeat split. right. rewrite Hl. f_equal.
      match goal with Hc : Re.cls_match _ _ _ = true |- _ =>
        simpl in Hc; rewrite orb_false_r in Hc; apply N.eqb_eq in Hc;
        unfold Str.lower; simpl; unfold Chr.lower; rewrite Hc; reflexivity end.
    - match goal with H3 : Re.matches _ Re.Eps _ _ _ _ _ _ |- _ =>
        inversion H3; subst end.
      exists t. repeat split. left. exact Hl. }
  assert (Hsingle : forall w,
    Re.matches IGNORECASE (Re.Lit w) p s g p' s' g' ->
    exists t, s = t ++ s' /\ Str.lower t = Str.lower w
              /\ p' = Str.last p t /\ g' = g).
  { intros w H. apply matches_Lit in H. exact H. }
  cbv [In unit_alternatives] in Hin.
  repeat (destruct Hin as [<- | Hin]);
    try (apply Hplural in Hm as (t & Hs & [Hl | Hl] & Hp & Hg);
         exists t; rewrite Hl; repeat split; try assumption; in_list);
    try (apply Hsingle in Hm as (t & Hs & Hl & Hp & Hg);
         exists t; rewrite Hl; repeat split; try assumption; in_list).
  contradiction.
Qed.

(** Conversely, every unit form is consumed by some alternative. *)
Lemma unit_form_alternative t p g :
  In (Str.lower t) unit_forms ->
  exists r, In r unit_alternatives
            /\ Re.matches IGNORECASE r p (t ++ "") g (Str.last p t) "" g.
Proof.
  assert (Hsingle : forall w, Str.lower t = Str.lower w ->
            Re.matches IGNORECASE (Re.Lit w) p (t ++ "") g (Str.last p t) "" g).
  { intros w H. apply matches_Lit_intro. exact H. }
  assert (Hbase : forall w, Str.lower t = Str.lower w ->
            Re.matches IGNORECASE (Re.Seq (Re.Lit w) (Re.Opt (Re.chr "s")))
              p (t ++ "") g (Str.last p t) "" g).
  { intros w H. econstructor; [apply matches_Lit_intro; exact H |].
    apply Re.M_AltR. constructor. }
  assert (Hplural : forall w, Str.lower t = Str.lower w ++ "s" ->
            Re.matches IGNORECASE (Re.Seq (Re.Lit w) (Re.Opt (Re.chr "s")))
              p (t ++ "") g (Str.last p t) "" g).
  { intros w H.
    assert (Hsplit : exists t1 a, t = t1 ++ String a ""
                       /\ Str.lower t1 = Str.lower w /\ Chr.lower a = "s"%char).
    { clear -H. revert w H. induction t as [|b t IH]; intros w H.
      - destruct w; discriminate H.
      - destruct w as [|c w].
        + unfold Str.lower in H. simpl in H. rewrite app_nil_l in H.
          destruct t; [|discriminate H]. inversion H.
          exists "", b. repeat split; try assumption.
        + unfold Str.lower in H. simpl in H. rewrite app_cons in H.
          inversion H as [[Hb Ht]].
          destruct (IH w Ht) as (t1 & a & -> & Hl & Ha).
          exists (String b t1), a. repeat split; [|exact Ha].
          unfold Str.lower in *. simpl. rewrite Hl, Hb. reflexivity. }
    destruct Hsplit as (t1 & a & -> & Hl & Ha).
    rewrite app_assoc, last_app. econstructor.
    - apply matches_Lit_intro. exact Hl.
    - apply Re.M_AltL. rewrite app_cons, app_nil_l. simpl. constructor.
      simpl. rewrite orb_false_r. apply N.eqb_eq. rewrite <- code_lower, Ha.
      reflexivity. }
  pose (plural w := Re.Seq (Re.Lit w) (Re.Opt (Re.chr "s"))).
  assert (Hin_plural : forall w,
            In w ["cup"; "tbsp"; "tsp"; "lb"; "teaspoon"; "tablespoon"] ->
            In (plural w) unit_alternatives).
  { intros w Hw. cbv [In] in Hw.
    repeat (destruct Hw as [<- | Hw]); try contradiction; in_list. }
  assert (Hin_single : forall w, In w ["oz"; "g"; "kg"; "ml"] ->
            In (Re.Lit w) unit_alternatives).
  { intros w Hw. cbv [In] in Hw.
    repeat (destruct Hw as [<- | Hw]); try contradiction; in_list. }
  cbv [In unit_forms].
  intros [H|[H|[H|[H|[H|[H|[H|[H|[H|[H|[H|[H|[H|[H|[H|[H|[]]]]]]]]]]]]]]]]];
    symmetry in H.
  - exists (plural "cup"). split; [apply Hin_plural; in_list | apply Hbase, H].
  - exists (plural "cup"). split; [apply Hin_plural; in_list | apply Hplural, H].
  - exists (plural "tbsp"). split; [apply Hin_plural; in_list | apply Hbase, H].
  - exists (plural "tbsp"). split; [apply Hin_plural; in_list | apply Hplural, H].
  - exists (plural "tsp"). split; [apply Hin_plural; in_list | apply Hbase, H].
  - exists (plural "tsp"). split; [apply Hin_plural; in_list | apply Hplural, H].
  - exists (Re.Lit "oz"). split; [apply Hin_single; in_list | apply Hsingle, H].
  - exists (plural "lb"). split; [apply Hin_plural; in_list | apply Hbase, H].
  - exists (plural "lb"). split; [apply Hin_plural; in_list | apply Hplural, H].
  - exists (plural "teaspoon"). split; [apply Hin_plural; in_list | apply Hbase, H].
  - exists (plural "teaspoon"). split; [apply Hin_plural; in_list | apply Hplural, H].
  - exists (plural "tablespoon"). split; [apply Hin_plural; in_list | apply Hbase, H].
  - exists (plural "tablespoon"). split; [apply Hin_plural; in_list | apply Hplural, H].
  - exists (Re.Lit "g"). split; [apply Hin_single; in_list | apply Hsingle, H].
  - exists (Re.Lit "kg"). split; [apply Hin_single; in_list | apply Hsingle, H].
  - exists (Re.Lit "ml"). split; [apply Hin_single; in_list | apply Hsingle, H].
Qed.

Lemma last_all (q : ascii -> bool) p t :
  Str.all q t = true -> Str.nonempty t = true ->
  exists c, Str.last p t = Some c /\ q c = true.
Proof.
  revert p. induction t as [|a t IH]; intros p Hall Hne; [discriminate|].
  simpl in Hall. apply andb_true_iff in Hall as [Ha Ht]. simpl.
  destruct t as [|b t].
  - exists a. split; [reflexivity | exact Ha].
  - apply IH; [exact Ht | reflexivity].
Qed.

Lemma unit_forms_letters w :
  In w unit_forms ->
  Str.nonempty w = true /\ Str.all Chr.is_ascii_letter w = true.
Proof.
  cbv [In unit_forms]. intros H.
  repeat (destruct H as [<- | H]); try contradiction; split; reflexivity.
Qed.

Lemma nonempty_lower t : Str.nonempty (Str.lower t) = Str.nonempty t.
Proof. destruct t; reflexivity. Qed.

Lemma matches_alts_intro fl rs r p s g p' s' g' :
  In r rs -> Re.matches fl r p s g p' s' g' ->
  Re.matches fl (Re.alts rs) p s g p' s' g'.
Proof.
  induction rs as [|r1 rs IH]; [contradiction|]. intros Hin Hm.
  destruct rs as [|r2 rs].
  - destruct Hin as [<- | []]. exact Hm.
  - change (Re.alts (r1 :: r2 :: rs)) with (Re.Alt r1 (Re.alts (r2 :: rs))).
    destruct Hin as [<- | Hin].
    + apply Re.M_AltL. exact Hm.
    + apply Re.M_AltR. apply IH; assumption.
Qed.

Lemma unit_pattern_unfold :
  unit_pattern
  = Re.Seq Re.WordB
      (Re.Seq (Re.Group 1 (Re.alts unit_alternatives)) Re.WordB).
Proof. reflexivity. Qed.

(** On a token of letters the unit pattern can only match the whole token,
    and the token is then one of the unit forms. *)
Lemma unit_search_sound u um :
  Str.all Chr.is_ascii_letter u = true ->
  Re.search IGNORECASE unit_pattern u = Some um ->
  Re.whole um = u /\ In (Str.lower u) unit_forms.
Proof.
  intros Hall H. unfold Re.search in H.
  apply search_from_sound in H as (pre & suf & -> & H).
  apply match_here_sound in H as (p' & s' & t & Hm & Hs & Hw & Hp).
  rewrite unit_pattern_unfold in Hm.
  apply matches_seq_inv in Hm as (p0 & s0 & g0 & Hb1 & Hm).
  apply matches_wordb_inv in Hb1 as (Hstart & ? & ? & ?). subst p0 s0 g0.
  apply matches_seq_inv in Hm as (p1 & s1 & g1 & Hg & Hb2).
  apply matches_wordb_inv in Hb2 as (Hend & ? & ? & ?). subst p1 s1 g1.
  apply matches_group in Hg as (t1 & g2 & Hs1 & Hp1 & _ & Halt).
  apply (matches_alts IGNORECASE unit_alternatives) in Halt as (r & Hin & Hr);
    [|discriminate].
  apply unit_alternative_forms in Hr as (t2 & Hs2 & Hform & Hp2 & _); [|exact Hin].
  destruct (unit_forms_letters _ Hform) as [Hne Hlet].
  rewrite nonempty_lower in Hne. apply all_letters_lower in Hlet.
  rewrite Hs2 in Hall. rewrite !all_app in Hall.
  apply andb_true_iff in Hall as [Hpre Hall].
  apply andb_true_iff in Hall as [_ Hsuf].
  (* the end of the match is the end of the token *)
  assert (s' = "") as ->.
  { destruct (last_all _ (Str.last None pre) t2 Hlet Hne) as (c & Hc & Hlc).
    rewrite Hp2, Hc in Hend. unfold Re.at_boundary in Hend. simpl in Hend.
    rewrite (letter_isword _ Hlc) in Hend.
    destruct s' as [|b s']; [reflexivity|]. simpl in Hend, Hsuf.
    apply andb_true_iff in Hsuf as [Hb _].
    rewrite (letter_isword _ Hb) in Hend. discriminate. }
  (* the start of the match is the start of the token *)
  assert (pre = "") as ->.
  { destruct pre as [|a pre]; [reflexivity|]. exfalso.
    destruct (last_all _ None (String a pre) Hpre eq_refl) as (c & Hc & Hlc).
    rewrite Hc in Hstart. unfold Re.at_boundary in Hstart. simpl in Hstart.
    rewrite (letter_isword _ Hlc) in Hstart.
    destruct t2 as [|b t2]; [discriminate|]. rewrite Hs2, app_cons in Hstart.
    simpl in Hstart, Hlet. apply andb_true_iff in Hlet as [Hb _].
    rewrite (letter_isword _ Hb) in Hstart. discriminate. }
  rewrite app_nil_r in Hs, Hs2. rewrite app_nil_l, Hw, <- Hs.
  split; [reflexivity|]. rewrite Hs2. exact Hform.
Qed.

Lemma match_here_complete fl r p s p' s' g' :
  Re.plain_lookaheads r = true ->
  Re.matches fl r p s [] p' s' g' ->
  exists m, Re.match_here fl r p s = Some m.
Proof.
  intros Hpl Hm. unfold Re.match_here, Re.match_at.
  destruct (rmatch_complete fl r Hpl _ _ _ _ _ _ _
              (fun (_ : option ascii) s'0 g0 =>
                 Some ((String.length s - String.length s'0)%nat, g0))
              _ Hm eq_refl) as ([len g] & Hy).
  rewrite Hy. eauto.
Qed.

Lemma search_head fl r s m :
  Re.match_here fl r None s = Some m -> Re.search fl r s = Some m.
Proof.
  intros H. unfold Re.search. destruct s; simpl; rewrite H; reflexivity.
Qed.

(** Every unit form, in any case, is found by the unit pattern. *)
Lemma unit_search_complete u :
  In (Str.lower u) unit_forms ->
  exists um, Re.search IGNORECASE unit_pattern u = Some um.
Proof.
  intros Hform.
  destruct (unit_forms_letters _ Hform) as [Hne Hlet].
  rewrite nonempty_lower in Hne. apply all_letters_lower in Hlet.
  destruct (unit_form_alternative u None [] Hform) as (r & Hin & Hr).
  rewrite app_nil_r in Hr.
  destruct (last_all _ None u Hlet Hne) as (c & Hc & Hlc).
  assert (Hm : Re.matches IGNORECASE unit_pattern None u []
                 (Str.last None u) ""
                 [(1, Str.take (String.length u - String.length "") u)]).
  { rewrite unit_pattern_unfold. econstructor.
    - constructor. destruct u as [|a u]; [discriminate|].
      simpl in Hlet. apply andb_true_iff in Hlet as [Ha _].
      unfold Re.at_boundary. simpl. rewrite (letter_isword _ Ha). reflexivity.
    - econstructor.
      + apply Re.M_Group. eapply matches_alts_intro; eauto.
      + constructor. rewrite Hc. unfold Re.at_boundary. simpl.
        rewrite (letter_isword _ Hlc). reflexivity. }
  destruct (match_here_complete IGNORECASE unit_pattern _ _ _ _ _ eq_refl Hm)
    as (m & Hmh).
  exists m. apply search_head. exact Hmh.
Qed.

(** ** The groups of the part pattern *)

Lemma part_re_unfold :
  part_re
  = Re.Seq Re.Bol
      (Re.Seq (Re.Group 1 quantity_re)
         (Re.Seq (Re.Star true space)
            (Re.Seq (Re.Group 2 letters)
               (Re.Seq (Re.Star true space)
                  (Re.Group 3 (Re.Star true dot)))))).
Proof. reflexivity. Qed.

Lemma part_re_groups p s p' s' g :
  Re.matches IGNORECASE part_re p s [] p' s' g ->
  exists qty t1 unit t2 rest,
    s = qty ++ t1 ++ unit ++ t2 ++ rest ++ s'
    /\ g = [(3, rest); (2, unit); (1, qty)]
    /\ Str.nonempty unit = true
    /\ Str.all Chr.is_ascii_letter unit = true.
Proof.
  rewrite part_re_unfold. intros H.
  apply matches_seq_inv in H as (p0 & s0 & g0 & Hbol & H).
  apply matches_bol_inv in Hbol as (-> & -> & -> & ->).
  apply matches_seq_inv in H as (p1 & s1 & g1 & Hg1 & H).
  apply matches_group in Hg1 as (qty & g1' & -> & -> & -> & Hq).
  apply matches_no_groups in Hq as ->; [|reflexivity].
  apply matches_seq_inv in H as (p2 & s2 & g2 & Hsp1 & H).
  apply matches_star_cls in Hsp1 as (t1 & -> & _ & -> & ->).
  apply matches_seq_inv in H as (p3 & s3 & g3 & Hg2 & H).
  apply matches_group in Hg2 as (unit & g2' & Hs2 & -> & -> & Hl).
  apply matches_plus_cls in Hl as (unit' & Hs2' & Hall & Hne & _ & ->).
  rewrite Hs2 in Hs2'. apply app_inv_tail in Hs2'. subst unit' s2.
  apply matches_seq_inv in H as (p4 & s4 & g4 & Hsp2 & Hg3).
  apply matches_star_cls in Hsp2 as (t2 & -> & _ & -> & ->).
  apply matches_group in Hg3 as (rest & g3' & -> & -> & -> & Hd).
  apply matches_star_cls in Hd as (t3 & _ & _ & _ & ->).
  exists qty, t1, unit, t2, rest. repeat split; [exact Hne|].
  eapply all_impl; [|exact Hall]. apply letters_class.
Qed.

(** The groups of a part, and where they stand in it. *)
Lemma part_groups_inv part qty unit rest :
  part_groups part = Some (qty, unit, rest) ->
  exists pre t1 t2 post,
    part = pre ++ qty ++ t1 ++ unit ++ t2 ++ rest ++ post
    /\ Str.nonempty unit = true
    /\ Str.all Chr.is_ascii_letter unit = true.
Proof.
  unfold part_groups. intros H.
  destruct (Re.search IGNORECASE part_re part) as [m|] eqn:E; [|discriminate].
  unfold Re.search in E. apply search_from_sound in E as (pre & suf & -> & E).
  apply match_here_sound in E as (p' & s' & t & Hm & _).
  apply part_re_groups in Hm as (q & t1 & u & t2 & r & -> & Hg & Hne & Hall).
  unfold Re.group in H. rewrite Hg in H. simpl in H. inversion H; subst.
  exists pre, t1, t2, s'. repeat split; assumption.
Qed.

(** The unit token of a part is a non-empty run of ASCII letters. *)
Lemma part_groups_unit part qty unit rest :
  part_groups part = Some (qty, unit, rest) ->
  Str.nonempty unit = true /\ Str.all Chr.is_ascii_letter unit = true.
Proof.
  intros H. apply part_groups_inv in H as (pre & t1 & t2 & post & _ & H).
  exact H.
Qed.

(** ** The extractor *)

Lemma parse_part_unfold part qty unit rest :
  part_groups part = Some (qty, unit, rest) ->
  parse_part part =
    match Re.search IGNORECASE unit_pattern (Str.rstrip "s" unit) with
    | None => None
    | Some unit_match =>
        match parse_quantity qty with
        | Some q =>
            if Float.truthy q && Str.nonempty (Str.lower (Re.whole unit_match))
               && Str.nonempty rest
            then Some {| ingredient :=
                           Str.strip (Str.replace "-" " " (Str.lower rest));
                         quantity := q;
                         unit_ := Str.lower (Re.whole unit_match) |}
            else None
        | None => None
        end
    end.
Proof. intros H. unfold parse_part. rewrite H. reflexivity. Qed.

Lemma nonempty_neq s : Str.nonempty s = true <-> s <> "".
Proof. destruct s; simpl; split; congruence. Qed.

(** For a sub-entry of the shape quantity, unit token, remainder: every
    trailing lower-case "s" of the unit token is removed, and the sub-entry
    is kept exactly when the result is, in any case, one of the forms of
    the unit pattern, the quantity parses to a non-zero number and the
    remainder is not empty; the unit recorded is that form in lower case. *)
Lemma parse_part_kept part qty unit rest :
  part_groups part = Some (qty, unit, rest) ->
  Str.all Chr.is_ascii_letter unit = true ->
  (is_Some (parse_part part) <->
     In (Str.lower (Str.rstrip "s" unit)) unit_forms
     /\ quantity_truthy (parse_quantity qty) = true
     /\ rest <> "")
  /\ (forall r, parse_part part = Some r ->
        unit_ r = Str.lower (Str.rstrip "s" unit)).
Proof.
  intros Hg Hlet. rewrite (parse_part_unfold _ _ _ _ Hg).
  assert (Hlet' : Str.all Chr.is_ascii_letter (Str.rstrip "s" unit) = true)
    by (apply all_rstrip_by; exact Hlet).
  destruct (Re.search IGNORECASE unit_pattern (Str.rstrip "s" unit))
    as [um|] eqn:E.
  - destruct (unit_search_sound _ _ Hlet' E) as [Hw Hform]. rewrite Hw.
    destruct (unit_forms_letters _ Hform) as [Hne _].
    destruct (parse_quantity qty) as [q|]; simpl.
    + rewrite Hne, andb_true_r. destruct (Float.truthy q); simpl.
      * destruct rest as [|a rest]; simpl.
        -- split; [|discriminate]. split.
           ++ intros [r Hr]. discriminate.
           ++ intros (_ & _ & Hrest). congruence.
        -- split.
           ++ split; [intros _; repeat split; [exact Hform | discriminate]
                     | intros _; eauto].
           ++ intros r Hr. inversion Hr; subst. reflexivity.
      * split; [|discriminate]. split.
        -- intros [r Hr]. discriminate.
        -- intros (_ & Hq & _). discriminate.
    + split; [|discriminate]. split.
      * intros [r Hr]. discriminate.
      * intros (_ & Hq & _). discriminate.
  - split; [|discriminate]. split.
    + intros [r Hr]. discriminate.
    + intros (Hform & _). apply unit_search_complete in Hform as (um & Hum).
      congruence.
Qed.

(** The forms of the unit pattern that do not end in "s" are the ten
    units. *)
Lemma unit_forms_singular w :
  In w unit_forms -> Str.last None w <> Some "s"%char ->
  In w Spec.vocabulary.
Proof.
  cbv [In unit_forms Spec.vocabulary]. intros H Hl.
  repeat (destruct H as [<- | H];
          [first [ contradiction Hl; reflexivity | tauto ] |]).
  contradiction.
Qed.

Lemma vocabulary_forms w : In w Spec.vocabulary -> In w unit_forms.
Proof.
  cbv [In unit_forms Spec.vocabulary]. intros H.
  repeat (destruct H as [<- | H]; [tauto|]). contradiction.
Qed.

Lemma last_lower t : forall p,
  Str.last (option_map Chr.lower p) (Str.lower t)
  = option_map Chr.lower (Str.last p t).
Proof.
  induction t as [|a t IH]; intros p; [reflexivity|].
  unfold Str.lower in *. simpl. apply (IH (Some a)).
Qed.

Lemma last_snoc s c : forall p, Str.last p (s ++ String c "") = Some c.
Proof.
  induction s as [|a s IH]; intros p; [reflexivity|].
  rewrite app_cons. simpl. apply IH.
Qed.

Lemma drop_while_first p s c r :
  Str.drop_while p s = String c r -> p c = false.
Proof.
  induction s as [|b s IH]; intros Hd; [discriminate Hd|].
  simpl in Hd. destruct (p b) eqn:Eb; [exact (IH Hd)|].
  inversion Hd; subst. exact Eb.
Qed.

Lemma rstrip_no_s unit :
  Str.last None (Str.rstrip "s" unit) <> Some "s"%char.
Proof.
  unfold Str.rstrip, Str.rstrip_by.
  destruct (Str.drop_while (fun a => Str.contains (String a "") "s")
              (Str.rev unit)) as [|c r] eqn:E; [discriminate|].
  apply drop_while_first in E. rewrite rev_cons, last_snoc.
  intros H. inversion H; subst. discriminate E.
Qed.

(** C6, as the code has it by design. For a sub-entry of the shape
    quantity, unit token, remainder, whose unit token is made of the
    letters a to z and A to Z and does not end, once its trailing
    lower-case "s" are removed, in an upper-case "S": every trailing
    lower-case "s" of the unit token is removed, and the sub-entry is kept
    exactly when the result is, in any case, one of the ten units, the
    quantity parses to a non-zero number and the remainder is not empty;
    the unit recorded is the result in lower case. Any other such unit
    token drops the sub-entry. *)
Theorem unit_normalization part qty unit rest :
  part_groups part = Some (qty, unit, rest) ->
  Str.all Chr.is_ascii_letter unit = true ->
  Str.last None (Str.rstrip "s" unit) <> Some "S"%char ->
  (is_Some (parse_part part) <->
     In (Str.lower (Str.rstrip "s" unit)) Spec.vocabulary
     /\ quantity_truthy (parse_quantity qty) = true
     /\ rest <> "")
  /\ (forall r, parse_part part = Some r ->
        unit_ r = Str.lower (Str.rstrip "s" unit)
        /\ In (unit_ r) Spec.vocabulary).
Proof.
  intros Hg Hlet HS.
  destruct (parse_part_kept part qty unit rest Hg Hlet) as [Hiff Hunit].
  assert (Hlast : Str.last None (Str.lower (Str.rstrip "s" unit))
                  <> Some "s"%char).
  { rewrite (last_lower _ None). intros H.
    destruct (Str.last None (Str.rstrip "s" unit)) as [c|] eqn:E;
      [|discriminate H].
    simpl in H. inversion H as [Hc]. apply lower_s in Hc as [-> | ->].
    - exact (rstrip_no_s unit E).
    - exact (HS eq_refl). }
  assert (Hten : In (Str.lower (Str.rstrip "s" unit)) unit_forms
                 <-> In (Str.lower (Str.rstrip "s" unit)) Spec.vocabulary).
  { split; [intros H; apply unit_forms_singular; assumption
           | apply vocabulary_forms]. }
  split.
  - rewrite Hiff, Hten. reflexivity.
  - intros r Hr. split; [exact (Hunit r Hr)|].
    rewrite (Hunit r Hr). apply Hten, Hiff. rewrite Hr. eauto.
Qed.

Lemma unit_normalization_witness :
  (is_Some (parse_part "2 cups flour") <->
     In (Str.lower (Str.rstrip "s" "cups")) Spec.vocabulary
     /\ quantity_truthy (parse_quantity "2") = true
     /\ "flour" <> "")
  /\ (forall r, parse_part "2 cups flour" = Some r ->
        unit_ r = Str.lower (Str.rstrip "s" "cups")
        /\ In (unit_ r) Spec.vocabulary).
Proof.
  apply (unit_normalization "2 cups flour" "2" "cups" "flour").
  - vm_compute. reflexivity.
  - reflexivity.
  - vm_compute. discriminate.
Defined.

(** C6 as stated fails: "cupss" loses both of its trailing "s" and the
    sub-entry is kept, although with one "s" stripped it is not a unit. *)
Lemma unit_normalization_counterexample :
  ~ (forall part qty unit rest,
       part_groups part = Some (qty, unit, rest) ->
       (is_Some (parse_part part) <-> Spec.unit_recognized unit = true)).
Proof.
  intros H.
  assert (Hg : part_groups "2 cupss flour" = Some ("2", "cupss", "flour"))
    by (vm_compute; reflexivity).
  apply H in Hg as [Hkeep _].
  assert (Hk : is_Some (parse_part "2 cupss flour"))
    by (vm_compute; eexists; reflexivity).
  apply Hkeep in Hk. vm_compute in Hk. discriminate Hk.
Qed.

(** The other direction fails as well: a recognized unit does not keep a
    sub-entry whose quantity is zero. *)
Example recognized_unit_dropped :
  part_groups "0 cups flour" = Some ("0", "cups", "flour")
  /\ Spec.unit_recognized "cups" = true
  /\ parse_part "0 cups flour" = None.
Proof. vm_compute. repeat split. Qed.

(** A plural whose final S is in upper case survives the stripping and is
    recorded as a plural. *)
Example upper_case_plural :
  List.map unit_ (extract_ingredients "- 2 CUPS flour") = ["cups"].
Proof. vm_compute. reflexivity. Qed.

(** A unit outside the vocabulary drops the entry. *)
Example unrecognized_unit_dropped :
  extract_ingredients "- 5 pinches salt" = [].
Proof. vm_compute. reflexivity. Qed.

(** No record is emitted with a zero quantity. *)
Lemma parse_part_quantity part r :
  parse_part part = Some r -> Float.truthy (quantity r) = true.
Proof.
  unfold parse_part. destruct (part_groups part) as [[[qty unit] rest]|];
    [|discriminate].
  destruct (Re.search _ _ _); [|discriminate].
  destruct (parse_quantity qty) as [q|]; [|discriminate].
  destruct (Float.truthy q) eqn:E; [|discriminate]. simpl.
  destruct (_ && _); [|discriminate]. intros H. inversion H; subst. exact E.
Qed.

Lemma extract_ingredients_In text r :
  In r (extract_ingredients text) ->
  exists line part,
    In line (discovered_lines text) /\ In part (line_parts line)
    /\ parse_part part = Some r.
Proof.
  unfold extract_ingredients. rewrite in_flat_map. intros (line & Hl & Hr).
  apply list_elem_of_In, list_elem_of_omap in Hr as (part & Hp & Hr).
  apply list_elem_of_In in Hp. eauto.
Qed.

Lemma extracted_quantity_nonzero text r :
  In r (extract_ingredients text) -> Float.is_zero (quantity r) = false.
Proof.
  intros H. apply extract_ingredients_In in H as (line & part & _ & _ & H).
  apply parse_part_quantity in H. unfold Float.is_zero. rewrite H. reflexivity.
Qed.

(** C10. A text with one ingredient line whose quantity token parses to
    zero yields no record: the emission test takes the zero for a failure,
    although [parse_quantity] accepts "0" and returns 0.0. *)
Theorem zero_quantity_dropped text line part qty unit rest x :
  discovered_lines text = [line] ->
  line_parts line = [part] ->
  part_groups part = Some (qty, unit, rest) ->
  parse_quantity qty = Some x ->
  Float.is_zero x = true ->
  extract_ingredients text = []
  /\ parse_quantity "0" = Some (S754_zero false).
Proof.
  intros Hl Hp Hg Hq Hz. split; [|vm_compute; reflexivity].
  unfold extract_ingredients. rewrite Hl. simpl. rewrite Hp. simpl.
  rewrite (parse_part_unfold _ _ _ _ Hg), Hq.
  unfold Float.is_zero in Hz. apply negb_true_iff in Hz. rewrite Hz.
  destruct (Re.search _ _ _); reflexivity.
Qed.

Lemma zero_quantity_dropped_witness :
  extract_ingredients "- 0 cups flour" = []
  /\ parse_quantity "0" = Some (S754_zero false).
Proof.
  apply (zero_quantity_dropped "- 0 cups flour" "0 cups flour" "0 cups flour"
           "0" "cups" "flour" (S754_zero false));
    vm_compute; reflexivity.
Defined.

(** C1. The line pattern stops a discovered line at the first comma, so
    the second item of the line is never seen: one record, not two. *)
Theorem multi_item_line_one_record :
  extract_ingredients "- 2 cups flour, 1 tsp salt"
  = [ {| ingredient := "flour"; quantity := Float.of_Q 2; unit_ := "cup" |} ].
Proof. vm_compute. reflexivity. Qed.

(** C2. Three records, but the text after the comma is lost: the second
    ingredient is "oil", not "oil, melted". *)
Theorem precision_example_drops_comma_text :
  extract_ingredients
    ("- 1 cup flour" ++ nl ++ "- 2 tbsp oil, melted" ++ nl ++ "- 3/4 tsp salt")
  = [ {| ingredient := "flour"; quantity := Float.of_Q 1; unit_ := "cup" |};
      {| ingredient := "oil"; quantity := Float.of_Q 2; unit_ := "tbsp" |};
      {| ingredient := "salt"; quantity := Float.of_Q (3 # 4); unit_ := "tsp" |} ].
Proof. vm_compute. reflexivity. Qed.

(** C7. The emission test looks at the remainder before it is normalized:
    a remainder made of a hyphen passes the test and becomes the empty
    name. *)
Theorem empty_ingredient_name_emitted :
  extract_ingredients "- 1 cup -"
  = [ {| ingredient := ""; quantity := Float.of_Q 1; unit_ := "cup" |} ].
Proof. vm_compute. reflexivity. Qed.

(** ** Number literals *)

Lemma digit_facts a :
  Chr.isdecimal a = true ->
  Chr.isspace a = false /\ Num.is_sign a = false /\ Chr.eqb a "_" = false
  /\ Chr.eqb a " " = false /\ Chr.eqb a "/" = false /\ Chr.lower a = a
  /\ (0 <= Num.digit_val a <= 9)%Z.
Proof. each_char a; vm_compute; intros H; try discriminate H; repeat split; congruence. Qed.

Lemma digit_not_word a :
  Chr.isdecimal a = true ->
  Ascii.eqb a "i" = false /\ Ascii.eqb a "n" = false.
Proof. each_char a; vm_compute; intros H; try discriminate H; split; reflexivity. Qed.

Lemma zero_char a : Chr.eqb a "0" = true -> a = "0"%char.
Proof. each_char a; vm_compute; intros H; try discriminate H; reflexivity. Qed.

Lemma drop_while_id p s :
  Str.all (fun a => negb (p a)) s = true -> Str.drop_while p s = s.
Proof.
  destruct s as [|a s]; [reflexivity|]. simpl. intros H.
  apply andb_true_iff in H as [H _]. apply negb_true_iff in H. rewrite H.
  reflexivity.
Qed.

Lemma strip_id s :
  Str.all (fun a => negb (Chr.isspace a)) s = true -> Str.strip s = s.
Proof.
  intros H. unfold Str.strip, Str.lstrip_by, Str.rstrip_by.
  rewrite (drop_while_id _ s H), drop_while_id, rev_involutive;
    [reflexivity | rewrite all_rev; exact H].
Qed.

Lemma take_while_app p d t :
  Str.all p d = true -> Str.take_while p (d ++ t) = d ++ Str.take_while p t.
Proof.
  induction d as [|a d IH]; [reflexivity|]. simpl. intros H.
  apply andb_true_iff in H as [Ha Hd]. rewrite ?app_cons. simpl.
  rewrite Ha, IH by exact Hd. reflexivity.
Qed.

Lemma drop_while_app p d t :
  Str.all p d = true -> Str.drop_while p (d ++ t) = Str.drop_while p t.
Proof.
  induction d as [|a d IH]; [reflexivity|]. simpl. intros H.
  apply andb_true_iff in H as [Ha Hd]. rewrite ?app_cons. simpl.
  rewrite Ha. apply IH. exact Hd.
Qed.

(** The digits of a token are read up to the first other character. *)
Lemma span_digits_app d t :
  Str.all Chr.isdecimal d = true ->
  Str.take_while Chr.isdecimal t = "" ->
  Num.span_digits (d ++ t) = (d, t).
Proof.
  intros Hd Ht. unfold Num.span_digits.
  rewrite take_while_app, drop_while_app, Ht, app_nil_r by exact Hd.
  f_equal. destruct t as [|a t]; [reflexivity|]. simpl in *.
  destruct (Chr.isdecimal a); [discriminate | reflexivity].
Qed.

Lemma span_digits_all d :
  Str.all Chr.isdecimal d = true -> Num.span_digits d = (d, "").
Proof.
  intros H. rewrite <- (app_nil_r d) at 1. apply span_digits_app; auto.
Qed.

Lemma span_digits_none t :
  Str.all (fun a => negb (Chr.isdecimal a)) t = true ->
  Num.span_digits t = ("", t).
Proof.
  intros H. unfold Num.span_digits. rewrite drop_while_id by exact H.
  destruct t as [|a t]; [reflexivity|]. simpl in *.
  apply andb_true_iff in H as [H _]. apply negb_true_iff in H. rewrite H.
  reflexivity.
Qed.

(** A numeral without underscores is read up to the first character
    that is neither a digit nor an underscore. *)
Lemma span_number_stop a s :
  Chr.isdecimal a = false -> Num.span_number (String a s) = ("", String a s).
Proof. intros H. simpl. rewrite H. reflexivity. Qed.

Lemma span_number_digits d t :
  Str.all Chr.isdecimal d = true ->
  (forall a t', t = String a t' ->
     Chr.isdecimal a = false /\ Chr.eqb a "_" = false) ->
  Num.span_number (d ++ t) = (d, t).
Proof.
  intros Hd Ht.
  assert (H0 : Num.span_number t = ("", t)).
  { destruct t as [|a t']; [reflexivity|].
    apply span_number_stop. exact (proj1 (Ht a t' eq_refl)). }
  induction d as [|a d IH]; [exact H0|].
  simpl in Hd. apply andb_true_iff in Hd as [Ha Hd]. specialize (IH Hd).
  rewrite app_cons.
  change (Num.span_number (String a (d ++ t)))
    with (if Chr.isdecimal a
          then match d ++ t with
               | String u (String b _ as s'') =>
                   if Chr.eqb u "_" && Chr.isdecimal b
                   then let '(ds, tl) := Num.span_number s'' in
                        (String a ds, tl)
                   else let '(ds, tl) := Num.span_number (d ++ t) in
                        (String a ds, tl)
               | _ => let '(ds, tl) := Num.span_number (d ++ t) in
                      (String a ds, tl)
               end
          else ("", String a (d ++ t))).
  rewrite Ha.
  assert (Hu : forall u r, d ++ t = String u r -> Chr.eqb u "_" = false).
  { intros u r E. destruct d as [|c d'].
    - rewrite app_nil_l in E. exact (proj2 (Ht u r E)).
    - rewrite app_cons in E. inversion E; subst. simpl in Hd.
      apply andb_true_iff in Hd as [Hc _].
      destruct (digit_facts u Hc) as (_ & _ & Hus & _). exact Hus. }
  rewrite IH.
  destruct (d ++ t) as [|u [|b r]] eqn:E; try reflexivity.
  rewrite (Hu u _ eq_refl). reflexivity.
Qed.

Lemma span_number_all d :
  Str.all Chr.isdecimal d = true -> Num.span_number d = (d, "").
Proof.
  intros H. rewrite <- (app_nil_r d) at 1. apply span_number_digits; [exact H|].
  intros a t' E. discriminate E.
Qed.

Lemma int_of_digits_short d :
  Num.int_of_digits d
  = if Spec.short d then Ok (Num.Z_of_digits d) else Raise ValueError.
Proof. reflexivity. Qed.

Lemma digit_string_inv d :
  Spec.digit_string d = true ->
  Str.all Chr.isdecimal d = true
  /\ exists a d', d = String a d' /\ Chr.isdecimal a = true.
Proof.
  unfold Spec.digit_string. intros H. apply andb_true_iff in H as [Hne Hall].
  split; [exact Hall|]. destruct d as [|a d']; [discriminate|].
  exists a, d'. split; [reflexivity|]. simpl in Hall.
  apply andb_true_iff in Hall. tauto.
Qed.

Lemma digits_all (q : ascii -> bool) d :
  (forall a, Chr.isdecimal a = true -> q a = true) ->
  Str.all Chr.isdecimal d = true -> Str.all q d = true.
Proof. intros Hq. apply all_impl. exact Hq. Qed.

Lemma digits_value_nonneg s : forall acc,
  Str.all Chr.isdecimal s = true -> (0 <= acc)%Z ->
  (0 <= Num.digits_value acc s)%Z.
Proof.
  induction s as [|a s IH]; intros acc H Hacc; [exact Hacc|]. simpl in *.
  apply andb_true_iff in H as [Ha Hs]. apply IH; [exact Hs|].
  pose proof (digit_facts a Ha) as (_ & _ & _ & _ & _ & _ & Hv). lia.
Qed.

Lemma Z_of_digits_nonneg s :
  Str.all Chr.isdecimal s = true -> (0 <= Num.Z_of_digits s)%Z.
Proof. intros H. apply digits_value_nonneg; [exact H | lia]. Qed.

Lemma Z_of_zero_string z :
  Spec.zero_string z = true -> Num.Z_of_digits z = 0%Z.
Proof.
  unfold Spec.zero_string, Num.Z_of_digits. intros H.
  apply andb_true_iff in H as [_ H].
  induction z as [|a z IH]; [reflexivity|]. simpl in *.
  apply andb_true_iff in H as [Ha Hz]. apply zero_char in Ha. subst a.
  exact (IH Hz).
Qed.

Lemma zero_string_digits z :
  Spec.zero_string z = true -> Spec.digit_string z = true.
Proof.
  unfold Spec.zero_string, Spec.digit_string. intros H.
  apply andb_true_iff in H as [Hne H]. rewrite Hne. simpl.
  eapply all_impl; [|exact H]. intros a Ha. apply zero_char in Ha. subst a.
  reflexivity.
Qed.

Lemma read_sign_digit a s :
  Chr.isdecimal a = true -> Num.read_sign (String a s) = (false, String a s).
Proof.
  intros H. simpl. destruct (digit_facts a H) as (_ & -> & _). reflexivity.
Qed.

Lemma mkFraction_pos n d :
  (0 < d)%Z -> Num.mkFraction n d = Ok (Qred (Qmake n (Z.to_pos d))).
Proof. intros H. destruct d; try lia. reflexivity. Qed.

Ltac not_digit_or_underscore :=
  let E := fresh in
  intros ? ? E; injection E as <- _; split; reflexivity.

Lemma digits_no_space_char d :
  Str.all Chr.isdecimal d = true ->
  Str.all (fun a => negb (Chr.isspace a)) d = true.
Proof.
  apply digits_all. intros c Hc.
  destruct (digit_facts c Hc) as (-> & _). reflexivity.
Qed.

(** [Fraction] of a vulgar fraction. *)
Lemma Fraction_of_str_frac n d :
  Spec.digit_string n = true -> Spec.digit_string d = true ->
  Num.Fraction_of_str (n ++ "/" ++ d)
  = if Spec.short n && Spec.short d
    then Num.mkFraction (Num.Z_of_digits n) (Num.Z_of_digits d)
    else Raise ValueError.
Proof.
  intros Hn Hd.
  destruct (digit_string_inv n Hn) as (Hna & a & n' & En & Ha).
  destruct (digit_string_inv d Hd) as (Hda & b & d' & Ed & Hb).
  unfold Num.Fraction_of_str. rewrite strip_id.
  - rewrite En at 1. rewrite app_cons, read_sign_digit by exact Ha.
    rewrite <- app_cons, <- En.
    rewrite span_number_digits by (exact Hna || not_digit_or_underscore).
    change ("/" ++ d) with (String "/" d).
    cbv beta iota zeta. rewrite span_number_all by exact Hda.
    unfold Num.ratio_literal. rewrite En at 1. rewrite Ed at 1.
    cbv beta iota. rewrite !int_of_digits_short.
    destruct (Spec.short n); [|reflexivity]. simpl.
    destruct (Spec.short d); reflexivity.
  - rewrite !all_app. rewrite !andb_true_iff. repeat split;
      auto using digits_no_space_char.
Qed.

(** [Fraction] of an integer. *)
Lemma Fraction_of_str_int d :
  Spec.digit_string d = true ->
  Num.Fraction_of_str d
  = if Spec.short d
    then Ok (Qred (inject_Z (Num.Z_of_digits d)))
    else Raise ValueError.
Proof.
  intros Hd. destruct (digit_string_inv d Hd) as (Hda & a & d' & Ed & Ha).
  unfold Num.Fraction_of_str. rewrite strip_id by auto using digits_no_space_char.
  rewrite Ed at 1. rewrite read_sign_digit by exact Ha. rewrite <- Ed.
  rewrite span_number_all by exact Hda.
  rewrite Ed at 1. cbv beta iota zeta. unfold Num.decimal_literal.
  change (Num.read_exponent_digits "") with (Some (false, "")).
  cbv beta iota. rewrite !int_of_digits_short.
  destruct (Spec.short d); [|reflexivity].
  change (Spec.short "") with true. simpl.
  unfold inject_Z. do 3 f_equal.
  change (Num.Z_of_digits "") with 0%Z. change (10 ^ Z.of_nat 0)%Z with 1%Z.
  change (10 ^ 0)%Z with 1%Z. lia.
Qed.

Lemma pow10_pos k : (0 < 10 ^ Z.of_nat k)%Z.
Proof. apply Z.pow_pos_nonneg; lia. Qed.

(** [Fraction] of a decimal. *)
Lemma Fraction_of_str_dec i f :
  Spec.digit_string i = true -> Spec.digit_string f = true ->
  Num.Fraction_of_str (i ++ "." ++ f)
  = if Spec.short i && Spec.short f
    then Ok (Qred (Qmake
            (Num.Z_of_digits i * 10 ^ Z.of_nat (String.length f)
             + Num.Z_of_digits f)
            (Z.to_pos (10 ^ Z.of_nat (String.length f)))))
    else Raise ValueError.
Proof.
  intros Hi Hf.
  destruct (digit_string_inv i Hi) as (Hia & a & i' & Ei & Ha).
  destruct (digit_string_inv f Hf) as (Hfa & b & f' & Ef & Hb).
  unfold Num.Fraction_of_str. rewrite strip_id.
  - rewrite Ei at 1. rewrite app_cons, read_sign_digit by exact Ha.
    rewrite <- app_cons, <- Ei.
    rewrite span_number_digits by (exact Hia || not_digit_or_underscore).
    change ("." ++ f) with (String "." f).
    cbv beta iota zeta. rewrite span_number_all by exact Hfa.
    rewrite Ei at 1. cbv beta iota zeta. unfold Num.decimal_literal.
    change (Num.read_exponent_digits "") with (Some (false, "")).
    cbv beta iota. rewrite !int_of_digits_short.
    destruct (Spec.short i); [|reflexivity]. simpl.
    destruct (Spec.short f); [|reflexivity].
    change (Spec.short "") with true. simpl.
    unfold Num.scale_decimal. change (0 <=? 0)%Z with true. cbv beta iota.
    rewrite mkFraction_pos by apply pow10_pos.
    do 3 f_equal. change (Num.Z_of_digits "") with 0%Z.
    change (10 ^ 0)%Z with 1%Z. ring.
  - rewrite !all_app. rewrite !andb_true_iff. repeat split;
      auto using digits_no_space_char.
Qed.

Lemma drop_underscores_digits d : forall p,
  Str.all Chr.isdecimal d = true -> Num.drop_underscores p d = Some d.
Proof.
  induction d as [|a d IH]; intros p H; [reflexivity|]. simpl in *.
  apply andb_true_iff in H as [Ha Hd].
  destruct (digit_facts a Ha) as (_ & _ & -> & _). rewrite IH by exact Hd.
  reflexivity.
Qed.

(** [float] of an integer literal. *)
Lemma float_of_str_int w :
  Spec.digit_string w = true ->
  Num.float_of_str w = Ok (Float.of_Q (inject_Z (Num.Z_of_digits w))).
Proof.
  intros Hw. destruct (digit_string_inv w Hw) as (Hwa & a & w' & -> & Ha).
  unfold Num.float_of_str. rewrite strip_id.
  - rewrite read_sign_digit by exact Ha.
    assert (Hword : forall v, String.eqb (Str.lower (String a w'))
                                (String "i" v) = false
                              /\ String.eqb (Str.lower (String a w'))
                                   (String "n" v) = false).
    { intros v. unfold Str.lower. simpl.
      destruct (digit_facts a Ha) as (_ & _ & _ & _ & _ & -> & _).
      destruct (digit_not_word a Ha) as [-> ->]. split; reflexivity. }
    rewrite (proj1 (Hword "nf")), (proj1 (Hword "nfinity")), (proj2 (Hword "an")).
    cbv beta iota zeta. simpl orb. cbv beta iota.
    rewrite drop_underscores_digits by exact Hwa.
    rewrite span_digits_all by exact Hwa.
    cbv beta iota zeta. unfold Num.read_exponent, Num.scale_decimal.
    cbv beta iota zeta. change (0 <=? 0)%Z with true. cbv beta iota.
    unfold inject_Z. do 3 f_equal.
    change (Num.Z_of_digits "") with 0%Z. change (String.length "") with 0%nat.
    change (10 ^ Z.of_nat 0)%Z with 1%Z. change (10 ^ 0)%Z with 1%Z. lia.
  - eapply digits_all; [|exact Hwa]. intros c Hc.
    destruct (digit_facts c Hc) as (-> & _). reflexivity.
Qed.

(** ** [parse_quantity] on the tokens of the specification *)

Lemma contains_char_false c s :
  Str.all (fun a => negb (Chr.eqb c a)) s = true ->
  Str.contains (String c "") s = false.
Proof.
  induction s as [|a s IH]; [reflexivity|]. simpl. intros H.
  apply andb_true_iff in H as [Ha Hs]. apply negb_true_iff in Ha.
  rewrite Ha, (IH Hs). reflexivity.
Qed.

Lemma contains_app_r needle s t :
  Str.contains needle t = true -> Str.contains needle (s ++ t) = true.
Proof.
  induction s as [|a s IH]; intros H; [exact H|]. rewrite app_cons. simpl.
  rewrite (IH H). apply orb_true_r.
Qed.

Lemma contains_head c s : Str.contains (String c "") (String c s) = true.
Proof.
  simpl. unfold Chr.eqb. rewrite N.eqb_refl. reflexivity.
Qed.

Lemma split_ws_run w t : forall cur,
  Str.all (fun a => negb (Chr.isspace a)) w = true ->
  Str.split_ws (w ++ t) cur = Str.split_ws t (Str.rev_app w cur).
Proof.
  induction w as [|a w IH]; intros cur H; [reflexivity|]. simpl in H.
  apply andb_true_iff in H as [Ha Hw]. apply negb_true_iff in Ha.
  rewrite app_cons. simpl. rewrite Ha. apply IH. exact Hw.
Qed.

Lemma rev_app_nonempty w cur :
  Str.nonempty w = true -> Str.nonempty (Str.rev_app w cur) = true.
Proof.
  revert cur. induction w as [|a w IH]; intros cur H; [discriminate|]. simpl.
  destruct w; [reflexivity | apply IH; reflexivity].
Qed.

(** A mixed number splits at its single space. *)
Lemma split_mixed w r :
  Str.all (fun a => negb (Chr.isspace a)) w = true -> Str.nonempty w = true ->
  Str.all (fun a => negb (Chr.isspace a)) r = true -> Str.nonempty r = true ->
  Str.split (w ++ " " ++ r) = [w; r].
Proof.
  intros Hw Hwn Hr Hrn. unfold Str.split. rewrite split_ws_run by exact Hw.
  change (" " ++ r) with (String " " r). simpl.
  pose proof (rev_app_nonempty w "" Hwn) as Hn1.
  destruct (Str.rev_app w "") as [|c1 k1] eqn:E1; [discriminate|].
  rewrite <- E1. fold (Str.rev w). rewrite rev_involutive. f_equal.
  rewrite <- (app_nil_r r) at 1. rewrite split_ws_run by exact Hr. simpl.
  pose proof (rev_app_nonempty r "" Hrn) as Hn2.
  destruct (Str.rev_app r "") as [|c2 k2] eqn:E2; [discriminate|].
  rewrite <- E2. fold (Str.rev r). rewrite rev_involutive. reflexivity.
Qed.

Lemma of_Q_Qeq q q' : (q == q')%Q -> Float.of_Q q = Float.of_Q q'.
Proof. intros H. unfold Float.of_Q. rewrite (Qred_complete _ _ H). reflexivity. Qed.

Lemma float_of_Fraction_Qred q :
  Num.float_of_Fraction (Qred q)
  = match float_of_exact q with Some x => Ok x | None => Raise OverflowError end.
Proof.
  unfold Num.float_of_Fraction, float_of_exact, Float.of_Q.
  destruct (Float.of_ratio (Qnum (Qred q)) (Qden (Qred q))); reflexivity.
Qed.

Lemma digits_no_space d :
  Str.all Chr.isdecimal d = true ->
  Str.all (fun a => negb (Chr.isspace a)) d = true.
Proof.
  apply all_impl. intros c Hc. destruct (digit_facts c Hc) as (-> & _).
  reflexivity.
Qed.

Lemma digits_no_blank d :
  Str.all Chr.isdecimal d = true ->
  Str.all (fun a => negb (Chr.eqb " " a)) d = true.
Proof.
  apply all_impl. intros c. each_char c; vm_compute; congruence.
Qed.

(** A token without a space takes the second branch of the parser. *)
Lemma parse_quantity_plain s :
  Str.contains " " s = false ->
  parse_quantity_body s
  = (f ← Num.Fraction_of_str s; Num.float_of_Fraction f).
Proof. intros H. unfold parse_quantity_body. rewrite H. reflexivity. Qed.

(** A mixed number takes the first. *)
Lemma parse_quantity_mixed w n d :
  Spec.digit_string w = true -> Spec.digit_string n = true ->
  Spec.digit_string d = true ->
  parse_quantity_body (w ++ " " ++ n ++ "/" ++ d)
  = (x ← (f ← (if Spec.short n && Spec.short d
               then Num.mkFraction (Num.Z_of_digits n) (Num.Z_of_digits d)
               else Raise ValueError);
          Num.float_of_Fraction f);
     Ok (Float.add (Float.of_Q (inject_Z (Num.Z_of_digits w))) x)).
Proof.
  intros Hw Hn Hd.
  destruct (digit_string_inv w Hw) as (Hwa & _).
  destruct (digit_string_inv n Hn) as (Hna & a & n' & En & _).
  destruct (digit_string_inv d Hd) as (Hda & _).
  unfold parse_quantity_body.
  assert (Hsp : Str.contains " " (w ++ " " ++ n ++ "/" ++ d) = true).
  { apply contains_app_r. apply contains_head. }
  assert (Hsl : Str.contains "/" (w ++ " " ++ n ++ "/" ++ d) = true).
  { rewrite <- (app_assoc w " "), <- (app_assoc (w ++ " ") n).
    apply contains_app_r. apply contains_head. }
  rewrite Hsp, Hsl. simpl andb. cbv iota.
  rewrite split_mixed.
  - rewrite float_of_str_int by exact Hw.
    rewrite Fraction_of_str_frac by assumption.
    destruct (Spec.short n && Spec.short d); [|reflexivity].
    destruct (Num.mkFraction _ _) as [f|e]; [|reflexivity]. simpl.
    destruct (Num.float_of_Fraction f); reflexivity.
  - apply digits_no_space, Hwa.
  - apply andb_true_iff in Hw. tauto.
  - rewrite !all_app, !andb_true_iff. repeat split;
      auto using digits_no_space.
  - subst n. reflexivity.
Qed.

Lemma valid_denominator d :
  Spec.digit_string d = true -> negb (Num.Z_of_digits d =? 0)%Z = true ->
  (0 < Num.Z_of_digits d)%Z.
Proof.
  intros Hd Hz. apply negb_true_iff, Z.eqb_neq in Hz.
  destruct (digit_string_inv d Hd) as (Hda & _).
  pose proof (Z_of_digits_nonneg d Hda). lia.
Qed.

(** C4, as the code has it. An integer, decimal or fraction token yields
    its exact value rounded once to binary64, and nothing when the value
    is out of range or when one of its digit runs has more digits than
    [int] converts. A mixed number yields the float sum of its whole part
    and of its fraction, each rounded on its own, and nothing when the
    fraction is out of range or has such a digit run. *)
Theorem parse_quantity_rounding (t : Spec.token) :
  Spec.token_valid t = true ->
  parse_quantity (Spec.token_text t) =
    if Spec.within_limit t
    then
      match t with
      | Spec.TMixed w n d =>
          match float_of_exact (Spec.ratio n d) with
          | Some x =>
              Some (Float.add (Float.of_Q (inject_Z (Num.Z_of_digits w))) x)
          | None => None
          end
      | _ => float_of_exact (Spec.token_value t)
      end
    else None.
Proof.
  destruct t as [d | i f | n d | w n d];
    cbn [Spec.token_valid Spec.token_text Spec.within_limit Spec.token_value];
    intros Hv; unfold parse_quantity.
  - destruct (digit_string_inv d Hv) as (Hda & _).
    rewrite parse_quantity_plain
      by (apply contains_char_false, digits_no_blank, Hda).
    rewrite Fraction_of_str_int by exact Hv.
    destruct (Spec.short d); [|reflexivity]. simpl.
    rewrite float_of_Fraction_Qred. destruct (float_of_exact _); reflexivity.
  - apply andb_true_iff in Hv as [Hi Hf].
    destruct (digit_string_inv i Hi) as (Hia & _).
    destruct (digit_string_inv f Hf) as (Hfa & _).
    rewrite parse_quantity_plain.
    + rewrite Fraction_of_str_dec by assumption.
      destruct (Spec.short i && Spec.short f); [|reflexivity]. simpl.
      rewrite float_of_Fraction_Qred.
      assert (Heq : float_of_exact
                (Num.Z_of_digits i * 10 ^ Z.of_nat (String.length f)
                 + Num.Z_of_digits f
                 # Z.to_pos (10 ^ Z.of_nat (String.length f)))
              = float_of_exact
                  (inject_Z (Num.Z_of_digits i)
                   + (Num.Z_of_digits f
                      # Z.to_pos (10 ^ Z.of_nat (String.length f))))%Q).
      { unfold float_of_exact. rewrite (of_Q_Qeq _ (inject_Z (Num.Z_of_digits i)
            + (Num.Z_of_digits f # Z.to_pos (10 ^ Z.of_nat (String.length f))))%Q);
          [reflexivity|].
        unfold Qeq, Qplus, inject_Z. simpl.
        rewrite Pos.mul_1_l, !Z2Pos.id by apply pow10_pos. ring. }
      rewrite Heq. clear Heq. destruct (float_of_exact _); reflexivity.
    + apply contains_char_false. rewrite !all_app, !andb_true_iff.
      repeat split; auto using digits_no_blank.
  - apply andb_true_iff in Hv as [Hv Hz]. apply andb_true_iff in Hv as [Hn Hd].
    destruct (digit_string_inv n Hn) as (Hna & _).
    destruct (digit_string_inv d Hd) as (Hda & _).
    rewrite parse_quantity_plain.
    + rewrite Fraction_of_str_frac by assumption.
      destruct (Spec.short n && Spec.short d); [|reflexivity].
      rewrite mkFraction_pos by (apply valid_denominator; assumption).
      simpl. fold (Spec.ratio n d). rewrite float_of_Fraction_Qred.
      destruct (float_of_exact _); reflexivity.
    + apply contains_char_false. rewrite !all_app, !andb_true_iff.
      repeat split; auto using digits_no_blank.
  - apply andb_true_iff in Hv as [Hv Hz]. apply andb_true_iff in Hv as [Hv Hd].
    apply andb_true_iff in Hv as [Hw Hn].
    rewrite parse_quantity_mixed by assumption.
    destruct (Spec.short n && Spec.short d); [|reflexivity].
    rewrite mkFraction_pos by (apply valid_denominator; assumption).
    simpl. fold (Spec.ratio n d). rewrite float_of_Fraction_Qred.
    destruct (float_of_exact _); reflexivity.
Qed.

Lemma parse_quantity_rounding_witness :
  parse_quantity "3/4" = float_of_exact (3 # 4).
Proof.
  apply (parse_quantity_rounding (Spec.TFrac "3" "4")). reflexivity.
Defined.

(** C4 as stated fails on a mixed number: "1 2/3" yields
    1.6666666666666665, the sum of two rounded parts, where the exact
    value five thirds rounds to 1.6666666666666667. *)
Lemma parse_quantity_exact_counterexample :
  ~ (forall t, Spec.token_valid t = true ->
       parse_quantity (Spec.token_text t) = Spec.parse_quantity t).
Proof.
  intros H. specialize (H (Spec.TMixed "1" "2" "3") eq_refl).
  vm_compute in H. discriminate H.
Qed.

(** The three examples of the claim hold. *)
Example parse_quantity_examples :
  parse_quantity "3/4" = Some (Float.of_Q (3 # 4))
  /\ parse_quantity "1 1/3" = Some (Float.of_Q (4 # 3))
  /\ parse_quantity "2.5" = Some (Float.of_Q (5 # 2)).
Proof. vm_compute. repeat split. Qed.

Example parse_quantity_mixed_drift :
  parse_quantity "1 2/3" = Some (S754_finite false 7505999378950826 (-52))
  /\ Float.of_Q (5 # 3) = S754_finite false 7505999378950827 (-52).
Proof. vm_compute. split; reflexivity. Qed.

(** ** Number texts: what [Fraction] and [float] accept *)

Lemma underscore_char a : Chr.eqb a "_" = true -> a = "_"%char.
Proof. each_char a; vm_compute; intros H; try discriminate H; reflexivity. Qed.

Lemma sign_char a :
  Num.is_sign a = true -> a = "+"%char \/ a = "-"%char.
Proof. each_char a; vm_compute; intros H; try discriminate H; auto. Qed.

Lemma sign_facts a :
  Num.is_sign a = true -> Chr.isdecimal a = false /\ Chr.eqb a "_" = false.
Proof. intros H. apply sign_char in H as [-> | ->]; split; reflexivity. Qed.

Lemma e_facts a :
  Num.is_e a = true -> Chr.isdecimal a = false /\ Chr.eqb a "_" = false.
Proof. each_char a; vm_compute; intros H; try discriminate H; split; reflexivity. Qed.

Lemma span_number_unfold a s' :
  Num.span_number (String a s')
  = if Chr.isdecimal a
    then let '(ds, tl) :=
           Num.span_number
             (match s' with
              | String u (String b r) =>
                  if Chr.eqb u "_" && Chr.isdecimal b then String b r else s'
              | _ => s'
              end) in
         (String a ds, tl)
    else ("", String a s').
Proof.
  destruct s' as [|u [|b r]]; cbn [Num.span_number];
    destruct (Chr.isdecimal a); try reflexivity.
  destruct (Chr.eqb u "_" && Chr.isdecimal b); reflexivity.
Qed.

(** What the numeral reader consumed is a numeral. *)
Lemma span_number_spec : forall n s ds tl,
  (String.length s < n)%nat -> Num.span_number s = (ds, tl) ->
  (ds = "" /\ tl = s)
  \/ (exists raw, s = raw ++ tl /\ Spec.numeral raw /\ ds <> "").
Proof.
  induction n as [|n IH]; intros s ds tl Hn H; [lia|].
  destruct s as [|a s']; [inversion H; left; auto|].
  rewrite span_number_unfold in H.
  destruct (Chr.isdecimal a) eqn:Ha; [|inversion H; left; auto].
  destruct (Num.span_number _) as [ds' tl'] eqn:E in H.
  inversion H; subst; clear H. right.
  destruct s' as [|u [|b r]].
  - inversion E; subst. exists (String a ""). repeat split;
      [constructor; exact Ha | discriminate].
  - apply IH in E; [|simpl in *; lia].
    destruct E as [[-> ->] | (raw & -> & Hraw & _)].
    + exists (String a ""). repeat split; [constructor; exact Ha | discriminate].
    + exists (String a raw). split; [reflexivity|].
      split; [constructor 2; assumption | discriminate].
  - destruct (Chr.eqb u "_" && Chr.isdecimal b) eqn:Eu.
    + apply andb_true_iff in Eu as [Eu Eb]. apply underscore_char in Eu.
      subst u. pose proof E as E0. rewrite span_number_unfold, Eb in E0.
      destruct (Num.span_number _) as [x y] in E0. inversion E0; subst.
      apply IH in E; [|simpl in *; lia].
      destruct E as [[E1 _] | (raw & Hr & Hraw & _)]; [discriminate E1|].
      exists (String a (String "_" raw)). rewrite Hr.
      split; [reflexivity|].
      split; [constructor 3; assumption | discriminate].
    + apply IH in E; [|simpl in *; lia].
      destruct E as [[-> ->] | (raw & Hr & Hraw & _)].
      * exists (String a ""). repeat split;
          [constructor; exact Ha | discriminate].
      * exists (String a raw). rewrite Hr. split; [reflexivity|].
        split; [constructor 2; assumption | discriminate].
Qed.

Lemma span_number_text s ds tl :
  Num.span_number s = (ds, tl) ->
  (ds = "" /\ tl = s)
  \/ (exists raw, s = raw ++ tl /\ Spec.numeral raw /\ ds <> "").
Proof. apply (span_number_spec (S (String.length s))). lia. Qed.

Lemma read_sign_spec s neg body :
  Num.read_sign s = (neg, body) ->
  exists sg, s = sg ++ body /\ Spec.sign_text sg.
Proof.
  destruct s as [|a s']; simpl; intros H.
  - inversion H. exists "". split; [reflexivity | left; reflexivity].
  - destruct (Num.is_sign a) eqn:E; inversion H; subst.
    + apply sign_char in E as [-> | ->]; [exists "+" | exists "-"];
        (split; [reflexivity | right; auto]).
    + exists "". split; [reflexivity | left; reflexivity].
Qed.

Lemma read_exponent_digits_spec s neg ds :
  Num.read_exponent_digits s = Some (neg, ds) -> Spec.exponent_text s.
Proof.
  destruct s as [|a s']; [left; reflexivity|].
  unfold Num.read_exponent_digits.
  destruct (Num.is_e a) eqn:Ea; [|discriminate].
  destruct (Num.read_sign s') as [ng s''] eqn:Es.
  destruct (Num.span_number s'') as [d tl] eqn:Ed.
  destruct d as [|c d]; [discriminate|]. destruct tl; [|discriminate].
  intros _. right. apply read_sign_spec in Es as (sg & -> & Hsg).
  apply span_number_text in Ed as [[Hd _] | (raw & -> & Hraw & _)];
    [discriminate Hd|].
  exists a, sg, raw. rewrite app_nil_r. auto.
Qed.

Lemma ratio_literal_ok neg num denom tl q :
  Num.ratio_literal neg num denom tl = Ok q ->
  num <> "" /\ denom <> "" /\ tl = "".
Proof.
  unfold Num.ratio_literal. destruct num, denom, tl; try discriminate.
  intros _. repeat split; discriminate.
Qed.

Lemma decimal_literal_ok neg num decimal tl q :
  Num.decimal_literal neg num decimal tl = Ok q -> Spec.exponent_text tl.
Proof.
  unfold Num.decimal_literal.
  destruct (Num.read_exponent_digits tl) as [[eneg ex]|] eqn:E; [|discriminate].
  intros _. exact (read_exponent_digits_spec _ _ _ E).
Qed.

Lemma Fraction_of_str_unfold s :
  Num.Fraction_of_str s
  = let '(neg, body) := Num.read_sign (Str.strip s) in
    let '(num, tl) := Num.span_number body in
    match tl with
    | String c tl' =>
        if Chr.eqb c "/"
        then let '(denom, tl'') := Num.span_number tl' in
             Num.ratio_literal neg num denom tl''
        else if Chr.eqb c "."
        then let '(decimal, tl'') := Num.span_number tl' in
             match num, decimal with
             | EmptyString, EmptyString => Raise ValueError
             | _, _ => Num.decimal_literal neg num decimal tl''
             end
        else match num with
             | EmptyString => Raise ValueError
             | _ => Num.decimal_literal neg num EmptyString tl
             end
    | EmptyString =>
        match num with
        | EmptyString => Raise ValueError
        | _ => Num.decimal_literal neg num EmptyString tl
        end
    end.
Proof.
  unfold Num.Fraction_of_str.
  destruct (Num.read_sign (Str.strip s)) as [neg body].
  destruct (Num.span_number body) as [num tl].
  destruct tl as [|c tl']; [reflexivity|]. each_char c; reflexivity.
Qed.

Lemma point_char a : Chr.eqb a "." = true -> a = "."%char.
Proof. each_char a; vm_compute; intros H; try discriminate H; reflexivity. Qed.

Lemma slash_char a : Chr.eqb a "/" = true -> a = "/"%char.
Proof. each_char a; vm_compute; intros H; try discriminate H; reflexivity. Qed.

(** Whatever [Fraction] accepts is a [Fraction] text. *)
Lemma Fraction_of_str_text s q :
  Num.Fraction_of_str s = Ok q -> Spec.fraction_text s.
Proof.
  rewrite Fraction_of_str_unfold.
  destruct (Num.read_sign (Str.strip s)) as [neg body] eqn:Es.
  destruct (Num.span_number body) as [num tl] eqn:En.
  apply read_sign_spec in Es as (sg & Hs & Hsg).
  intros H. exists sg, body. split; [exact Hs|]. split; [exact Hsg|].
  apply span_number_text in En. destruct tl as [|c tl'].
  - destruct num as [|a num]; [discriminate H|].
    apply decimal_literal_ok in H.
    destruct En as [[Hd _] | (raw & -> & Hraw & _)]; [discriminate Hd|].
    left. constructor; assumption.
  - destruct (Chr.eqb c "/") eqn:Ec; [|destruct (Chr.eqb c ".") eqn:Ep].
    + apply slash_char in Ec. subst c.
      destruct (Num.span_number tl') as [denom tl''] eqn:Ed.
      apply ratio_literal_ok in H as (Hn & Hd & ->).
      apply span_number_text in Ed as [[Hd' _] | (rawd & -> & Hrawd & _)];
        [contradiction|].
      destruct En as [[Hn' _] | (raw & -> & Hraw & _)]; [contradiction|].
      right. exists raw, rawd. rewrite app_nil_r. auto.
    + apply point_char in Ep. subst c.
      destruct (Num.span_number tl') as [decimal tl''] eqn:Ed.
      apply span_number_text in Ed. left.
      destruct En as [[-> Hb] | (raw & -> & Hraw & Hn)].
      * destruct decimal as [|d decimal]; [discriminate H|].
        apply decimal_literal_ok in H.
        destruct Ed as [[Hd' _] | (rawd & -> & Hrawd & _)]; [discriminate Hd'|].
        rewrite <- Hb. apply (Spec.Dec_frac rawd tl''); assumption.
      * assert (Hx : Spec.exponent_text tl'').
        { destruct num; [contradiction Hn; reflexivity|].
          exact (decimal_literal_ok _ _ _ _ _ H). }
        destruct Ed as [[_ ->] | (rawd & -> & Hrawd & _)].
        -- apply (Spec.Dec_point raw tl'); assumption.
        -- apply (Spec.Dec_both raw rawd tl''); assumption.
    + destruct num as [|a num]; [discriminate H|].
      apply decimal_literal_ok in H.
      destruct En as [[Hd _] | (raw & -> & Hraw & _)]; [discriminate Hd|].
      left. constructor; assumption.
Qed.

(** *** [float] *)

Lemma take_drop_while p s : s = Str.take_while p s ++ Str.drop_while p s.
Proof.
  induction s as [|a s IH]; [reflexivity|]. simpl.
  destruct (p a); [|reflexivity]. rewrite app_cons, <- IH. reflexivity.
Qed.

Lemma all_take_while p s : Str.all p (Str.take_while p s) = true.
Proof.
  induction s as [|a s IH]; [reflexivity|]. simpl.
  destruct (p a) eqn:E; [|reflexivity]. simpl. rewrite E, IH. reflexivity.
Qed.

Lemma span_digits_spec s ds tl :
  Num.span_digits s = (ds, tl) ->
  s = ds ++ tl /\ Str.all Chr.isdecimal ds = true
  /\ (forall a r, tl = String a r -> Chr.isdecimal a = false).
Proof.
  unfold Num.span_digits. intros H. inversion H; subst; clear H.
  split; [apply take_drop_while|]. split; [apply all_take_while|].
  intros a r E. exact (drop_while_first _ _ _ _ E).
Qed.

Lemma drop_first prev x s lit :
  Chr.eqb x "_" = false ->
  Num.drop_underscores prev (String x s) = Some lit ->
  exists t, lit = String x t /\ Num.drop_underscores (Some x) s = Some t.
Proof.
  intros Hx. cbn [Num.drop_underscores]. rewrite Hx.
  destruct (Num.drop_underscores (Some x) s) as [t|]; [|discriminate].
  intros H. inversion H. eauto.
Qed.

Lemma drop_us prev s lit :
  Num.drop_underscores prev (String "_" s) = Some lit ->
  exists b c s1,
    prev = Some b /\ Chr.isdecimal b = true /\ s = String c s1
    /\ Chr.isdecimal c = true
    /\ Num.drop_underscores (Some "_"%char) s = Some lit.
Proof.
  cbn [Num.drop_underscores]. change (Chr.eqb "_" "_") with true. cbv iota.
  destruct prev as [b|]; [|discriminate]. destruct s as [|c s1]; [discriminate|].
  destruct (Chr.isdecimal b) eqn:Eb; [|discriminate].
  destruct (Chr.isdecimal c) eqn:Ec; [|discriminate]. simpl andb. cbv iota.
  intros H. exists b, c, s1. auto.
Qed.

Lemma digit_not_underscore c : Chr.isdecimal c = true -> Chr.eqb c "_" = false.
Proof. intros H. exact (proj1 (proj2 (proj2 (digit_facts c H)))). Qed.

(** The text of an underscore starts, once the underscores are dropped,
    with the digit after it. *)
Lemma drop_us_digit prev s lit :
  Num.drop_underscores prev (String "_" s) = Some lit ->
  exists c t, lit = String c t /\ Chr.isdecimal c = true.
Proof.
  intros H. apply drop_us in H as (b & c & s1 & _ & _ & -> & Hc & H).
  apply drop_first in H as (t & -> & _); [eauto|].
  apply digit_not_underscore, Hc.
Qed.

Lemma first_not_underscore x s :
  (forall r, String x s <> String "_" r) -> Chr.eqb x "_" = false.
Proof.
  intros H. destruct (Chr.eqb x "_") eqn:E; [|reflexivity].
  apply underscore_char in E. subst x. contradiction (H s). reflexivity.
Qed.

Lemma drop_nil prev body :
  Num.drop_underscores prev body = Some "" -> body = "".
Proof.
  destruct body as [|x s]; [reflexivity|]. intros H. exfalso.
  destruct (Chr.eqb x "_") eqn:E.
  - apply underscore_char in E. subst x.
    apply drop_us_digit in H as (c & t & H & _). discriminate H.
  - apply (drop_first _ _ _ _ E) in H as (t & H & _). discriminate H.
Qed.

(** After a character that is no digit the text cannot go on with an
    underscore. *)
Lemma drop_no_us prev body lit :
  Num.drop_underscores prev body = Some lit ->
  (forall b, prev = Some b -> Chr.isdecimal b = false) ->
  forall r, body <> String "_" r.
Proof.
  intros H Hp r E. subst body.
  apply drop_us in H as (b & c & s1 & Hb & Hd & _).
  rewrite (Hp b Hb) in Hd. discriminate Hd.
Qed.

(** A run of digits of the literal comes from a numeral of the text. *)
Lemma drop_run : forall d prev body rest,
  Str.all Chr.isdecimal d = true -> d <> "" ->
  Num.drop_underscores prev body = Some (d ++ rest) ->
  (forall a r, rest = String a r -> Chr.isdecimal a = false) ->
  (forall r, body <> String "_" r) ->
  exists raw body' p',
    body = raw ++ body' /\ Spec.numeral raw
    /\ Num.drop_underscores p' body' = Some rest
    /\ (forall r, body' <> String "_" r).
Proof.
  induction d as [|a d IH]; intros prev body rest Hall Hne H Hrest Hb;
    [contradiction Hne; reflexivity|].
  simpl in Hall. apply andb_true_iff in Hall as [Ha Hd].
  destruct body as [|x s]; [discriminate H|].
  apply drop_first in H as (t & Ht & H); [|exact (first_not_underscore x s Hb)].
  rewrite app_cons in Ht. inversion Ht; subst x t; clear Ht.
  destruct d as [|b d].
  - rewrite app_nil_l in H. exists (String a ""), s, (Some a).
    split; [reflexivity|]. split; [constructor; exact Ha|].
    split; [exact H|]. intros r E. subst s.
    apply drop_us_digit in H as (c & t & -> & Hc).
    rewrite (Hrest c t eq_refl) in Hc. discriminate Hc.
  - destruct s as [|y s1]; [discriminate H|].
    destruct (Chr.eqb y "_") eqn:Ey.
    + apply underscore_char in Ey. subst y.
      apply drop_us in H as (b0 & c & s2 & _ & _ & E & Hc & H).
      destruct (IH (Some "_"%char) s1 rest Hd ltac:(discriminate) H Hrest)
        as (raw & body' & p' & -> & Hraw & Hd' & Hb').
      { intros r E'. rewrite E in E'. inversion E'; subst.
        discriminate Hc. }
      exists (String a (String "_" raw)), body', p'.
      split; [reflexivity|].
      split; [constructor 3; assumption | auto].
    + destruct (IH (Some a) (String y s1) rest Hd ltac:(discriminate) H Hrest)
        as (raw & body' & p' & E & Hraw & Hd' & Hb').
      { intros r E'. inversion E'; subst. discriminate Ey. }
      exists (String a raw), body', p'. rewrite E.
      split; [reflexivity|].
      split; [constructor 2; assumption | auto].
Qed.

(** The exponent of the literal comes from an exponent of the text. *)
Lemma exponent_lift prev body tl exp :
  Num.read_exponent tl = Some exp ->
  Num.drop_underscores prev body = Some tl ->
  (forall r, body <> String "_" r) ->
  Spec.exponent_text body.
Proof.
  intros He Hd Hb. destruct tl as [|a s'].
  - apply drop_nil in Hd. left. exact Hd.
  - right. unfold Num.read_exponent in He.
    destruct (Num.is_e a) eqn:Ea; [|discriminate He].
    destruct (Num.read_sign s') as [ng s''] eqn:Es.
    destruct (Num.span_digits s'') as [ds t2] eqn:En.
    destruct ds as [|c ds]; [discriminate He|].
    destruct t2; [|discriminate He].
    apply span_digits_spec in En as (E2 & Hall & _). rewrite app_nil_r in E2.
    subst s''. destruct (e_facts a Ea) as [Had Hau].
    destruct body as [|x s]; [discriminate Hd|].
    apply drop_first in Hd as (t & Ht & Hd);
      [|exact (first_not_underscore x s Hb)].
    inversion Ht; subst x t; clear Ht.
    assert (Hs : forall r, s <> String "_" r).
    { apply (drop_no_us _ _ _ Hd). intros b E. inversion E; subst. exact Had. }
    assert (Hrun : forall p0 s0,
              Num.drop_underscores p0 s0 = Some (String c ds) ->
              (forall r, s0 <> String "_" r) -> Spec.numeral s0).
    { intros p0 s0 H0 Hs0. rewrite <- (app_nil_r (String c ds)) in H0.
      destruct (drop_run _ _ _ _ Hall ltac:(discriminate) H0
                  ltac:(intros ? ? E; discriminate E) Hs0)
        as (raw & body' & p' & -> & Hraw & Hn & _).
      apply drop_nil in Hn. subst body'. rewrite app_nil_r. exact Hraw. }
    unfold Num.read_sign in Es. cbn [Str.all] in Hall.
    assert (Hc : Num.is_sign c = false).
    { apply andb_true_iff in Hall as [Hc _].
      exact (proj1 (proj2 (digit_facts c Hc))). }
    destruct s' as [|y s1]; [inversion Es|].
    destruct (Num.is_sign y) eqn:Ey.
    + inversion Es; subst ng s1; clear Es.
      destruct (sign_facts y Ey) as [Hyd Hyu].
      destruct s as [|x s2]; [discriminate Hd|].
      apply drop_first in Hd as (t & Ht & Hd);
        [|exact (first_not_underscore x s2 Hs)].
      inversion Ht; subst x t; clear Ht.
      exists a, (String y ""), s2. split; [reflexivity|].
      split; [exact Ea|]. split.
      * apply sign_char in Ey as [-> | ->]; right; auto.
      * apply (Hrun (Some y) s2 Hd).
        apply (drop_no_us _ _ _ Hd). intros b E. inversion E; subst.
        exact Hyd.
    + inversion Es; subst. exists a, "", s. split; [reflexivity|].
      split; [exact Ea|]. split; [left; reflexivity|].
      exact (Hrun (Some a) s Hd Hs).
Qed.

Lemma point_match tl :
  match tl with
  | String "."%char t => Num.span_digits t
  | _ => ("", tl)
  end
  = match tl with
    | String c t => if Chr.eqb c "." then Num.span_digits t else ("", tl)
    | EmptyString => ("", tl)
    end.
Proof. destruct tl as [|c t]; [reflexivity|]. each_char c; reflexivity. Qed.

(** Whatever [float] accepts is a [float] text. *)
Lemma float_of_str_text s x :
  Num.float_of_str s = Ok x -> Spec.float_text s.
Proof.
  unfold Num.float_of_str.
  destruct (Num.read_sign (Str.strip s)) as [neg body] eqn:Es.
  apply read_sign_spec in Es as (sg & Hs & Hsg).
  intros H. exists sg, body. split; [exact Hs|]. split; [exact Hsg|].
  destruct (String.eqb (Str.lower body) "inf") eqn:E1;
    [apply String.eqb_eq in E1; left; rewrite E1; simpl; auto|].
  destruct (String.eqb (Str.lower body) "infinity") eqn:E2;
    [apply String.eqb_eq in E2; left; rewrite E2; simpl; auto|].
  destruct (String.eqb (Str.lower body) "nan") eqn:E3;
    [apply String.eqb_eq in E3; left; rewrite E3; simpl; auto|].
  right. simpl orb in H. cbv iota in H.
  destruct (Num.drop_underscores None body) as [lit|] eqn:Ed;
    [|discriminate H].
  assert (Hb : forall r, body <> String "_" r)
    by (apply (drop_no_us _ _ _ Ed); intros b E; discriminate E).
  destruct (Num.span_digits lit) as [num tl] eqn:En.
  rewrite point_match in H.
  apply span_digits_spec in En as (El & Hnum & Htl). subst lit.
  (* the numeral in front, when there is one *)
  assert (Hfront :
            num = ""
            \/ exists raw body1 p1,
                 body = raw ++ body1 /\ Spec.numeral raw
                 /\ Num.drop_underscores p1 body1 = Some tl
                 /\ (forall r, body1 <> String "_" r)).
  { destruct num as [|a num]; [left; reflexivity|]. right.
    exact (drop_run _ _ _ _ Hnum ltac:(discriminate) Ed Htl Hb). }
  (* what follows a point *)
  assert (Hpoint : forall p1 body1 t,
            Num.drop_underscores p1 body1 = Some (String "." t) ->
            (forall r, body1 <> String "_" r) ->
            forall decimal tl',
              Num.span_digits t = (decimal, tl') ->
              forall exp, Num.read_exponent tl' = Some exp ->
              exists body2,
                body1 = String "." body2
                /\ ((decimal = "" /\ Spec.exponent_text body2)
                    \/ exists rawd body3,
                         decimal <> "" /\ body2 = rawd ++ body3
                         /\ Spec.numeral rawd /\ Spec.exponent_text body3)).
  { intros p1 body1 t Hd1 Hb1 decimal tl' Hsp exp Hex.
    destruct body1 as [|y body2]; [discriminate Hd1|].
    apply drop_first in Hd1 as (t0 & Ht0 & Hd2);
      [|exact (first_not_underscore y body2 Hb1)].
    inversion Ht0; subst y t0; clear Ht0. exists body2.
    split; [reflexivity|].
    assert (Hb2 : forall r, body2 <> String "_" r)
      by (apply (drop_no_us _ _ _ Hd2); intros b E; inversion E; reflexivity).
    apply span_digits_spec in Hsp as (Et & Hdec & Htl'). subst t.
    destruct decimal as [|c decimal].
    - left. split; [reflexivity|]. rewrite app_nil_l in Hd2.
      exact (exponent_lift _ _ _ _ Hex Hd2 Hb2).
    - right.
      destruct (drop_run _ _ _ _ Hdec ltac:(discriminate) Hd2 Htl' Hb2)
        as (rawd & body3 & p3 & -> & Hrawd & Hd3 & Hb3).
      exists rawd, body3. split; [discriminate|]. split; [reflexivity|].
      split; [exact Hrawd|]. exact (exponent_lift _ _ _ _ Hex Hd3 Hb3). }
  destruct tl as [|c t].
  - (* digits only *)
    destruct num as [|a num]; [discriminate H|].
    destruct Hfront as [Hn | (raw & body1 & p1 & -> & Hraw & Hd1 & _)];
      [discriminate Hn|].
    apply drop_nil in Hd1. subst body1.
    apply Spec.Dec_int; [exact Hraw | left; reflexivity].
  - destruct (Chr.eqb c ".") eqn:Ec.
    + apply point_char in Ec. subst c.
      destruct (Num.span_digits t) as [decimal tl'] eqn:Esp.
      assert (Hex : exists exp, Num.read_exponent tl' = Some exp).
      { destruct num, decimal; try discriminate H;
          destruct (Num.read_exponent tl'); try discriminate H; eauto. }
      destruct Hex as [exp Hex].
      destruct Hfront as [-> | (raw & body1 & p1 & -> & Hraw & Hd1 & Hb1)].
      * rewrite app_nil_l in Ed.
        destruct (Hpoint _ _ _ Ed Hb _ _ Esp _ Hex)
          as (body2 & -> & [[-> Hx] | (rawd & body3 & _ & -> & Hrawd & Hx)]).
        -- discriminate H.
        -- apply (Spec.Dec_frac rawd body3); assumption.
      * destruct (Hpoint _ _ _ Hd1 Hb1 _ _ Esp _ Hex)
          as (body2 & -> & [[_ Hx] | (rawd & body3 & _ & -> & Hrawd & Hx)]).
        -- apply (Spec.Dec_point raw body2); assumption.
        -- apply (Spec.Dec_both raw rawd body3); assumption.
    + destruct num as [|a num]; [discriminate H|].
      destruct (Num.read_exponent (String c t)) as [exp|] eqn:Hex;
        [|discriminate H].
      destruct Hfront as [Hn | (raw & body1 & p1 & -> & Hraw & Hd1 & Hb1)];
        [discriminate Hn|].
      apply Spec.Dec_int; [exact Hraw|].
      exact (exponent_lift _ _ _ _ Hex Hd1 Hb1).
Qed.

(** *** [parse_quantity] *)

(** Whatever [parse_quantity] turns into a number is a number text. *)
Lemma parse_quantity_text s x :
  parse_quantity s = Some x -> Spec.quantity_text s.
Proof.
  unfold parse_quantity, parse_quantity_body, Spec.quantity_text.
  destruct (Str.contains " " s && Str.contains "/" s).
  - destruct (Str.split s) as [|whole [|fraction [|y l]]]; try discriminate.
    destruct (Num.float_of_str whole) as [w|e] eqn:Ew; [|discriminate].
    destruct (Num.Fraction_of_str fraction) as [f|e] eqn:Ef; [|discriminate].
    intros _. exists whole, fraction. split; [reflexivity|].
    split; [exact (float_of_str_text _ _ Ew) | exact (Fraction_of_str_text _ _ Ef)].
  - destruct (Num.Fraction_of_str s) as [f|e] eqn:Ef; [|discriminate].
    intros _. exact (Fraction_of_str_text _ _ Ef).
Qed.

(** ** [parse_quantity] on malformed tokens *)

Lemma all_strip q s : Str.all q s = true -> Str.all q (Str.strip s) = true.
Proof.
  intros H. unfold Str.strip, Str.lstrip_by.
  apply all_rstrip_by, all_drop_while, H.
Qed.

Lemma split_ws_all q s : forall cur,
  Str.all q s = true -> Str.all q cur = true ->
  Forall (fun x => Str.all q x = true) (Str.split_ws s cur).
Proof.
  induction s as [|a s IH]; intros cur Hs Hc; simpl.
  - destruct cur; constructor; [|constructor]. rewrite all_rev. exact Hc.
  - simpl in Hs. apply andb_true_iff in Hs as [Ha Hs].
    destruct (Chr.isspace a).
    + destruct cur as [|c cur'].
      * apply IH; [exact Hs | reflexivity].
      * constructor; [rewrite all_rev; exact Hc |].
        apply IH; [exact Hs | reflexivity].
    + apply IH; [exact Hs|]. simpl. rewrite Ha, Hc. reflexivity.
Qed.

(** Every number text holds a digit. *)
Lemma numeral_digit s :
  Spec.numeral s -> Str.all (fun a => negb (Chr.isdecimal a)) s = false.
Proof. intros H. destruct H as [a Ha | a s Ha _ | a s Ha _]; simpl; rewrite Ha; reflexivity. Qed.

Lemma all_false_app_l q s t : Str.all q s = false -> Str.all q (s ++ t) = false.
Proof. intros H. rewrite all_app, H. reflexivity. Qed.

Lemma all_false_app_r q s t : Str.all q t = false -> Str.all q (s ++ t) = false.
Proof. intros H. rewrite all_app, H. apply andb_false_r. Qed.

Lemma decimal_text_digit b :
  Spec.decimal_text b -> Str.all (fun a => negb (Chr.isdecimal a)) b = false.
Proof.
  intros H. destruct H as [n x Hn _ | n x Hn _ | n f x Hn _ _ | f x Hf _].
  - apply all_false_app_l, numeral_digit, Hn.
  - apply all_false_app_l, numeral_digit, Hn.
  - apply all_false_app_l, numeral_digit, Hn.
  - apply all_false_app_r, all_false_app_l, numeral_digit, Hf.
Qed.

Lemma fraction_text_digit s :
  Spec.fraction_text s -> Str.all (fun a => negb (Chr.isdecimal a)) s = false.
Proof.
  intros (sg & b & Hs & _ & Hb).
  destruct (Str.all (fun a => negb (Chr.isdecimal a)) s) eqn:E; [|reflexivity].
  apply all_strip in E. rewrite Hs, all_app in E.
  apply andb_true_iff in E as [_ E].
  destruct Hb as [Hb | (n & d & -> & Hn & _)].
  - rewrite (decimal_text_digit b Hb) in E. discriminate E.
  - rewrite (all_false_app_l _ _ _ (numeral_digit n Hn)) in E. discriminate E.
Qed.

(** Text without a digit is no number text. *)
Lemma no_digit_not_a_number s :
  Str.all (fun a => negb (Chr.isdecimal a)) s = true -> ~ Spec.quantity_text s.
Proof.
  intros H. unfold Spec.quantity_text.
  destruct (Str.contains " " s && Str.contains "/" s).
  - intros (w & f & Hsplit & _ & Hf).
    pose proof (split_ws_all _ s "" H eq_refl) as Hall.
    fold (Str.split s) in Hall. rewrite Hsplit in Hall.
    inversion Hall as [|? ? _ Hall']; subst.
    inversion Hall' as [|? ? Hd _]; subst.
    rewrite (fraction_text_digit f Hf) in Hd. discriminate Hd.
  - intros Hf. rewrite (fraction_text_digit s Hf) in H. discriminate H.
Qed.

(** The characters of a [Fraction] text, whitespace apart. *)
Lemma all_or_l (p q : ascii -> bool) s :
  Str.all p s = true -> Str.all (fun a => p a || q a) s = true.
Proof. apply all_impl. intros a ->. reflexivity. Qed.

Lemma all_or_r (p q : ascii -> bool) s :
  Str.all q s = true -> Str.all (fun a => p a || q a) s = true.
Proof. apply all_impl. intros a ->. apply orb_true_r. Qed.

Lemma numeral_chars s :
  Spec.numeral s ->
  Str.all (fun a => Chr.isdecimal a || Chr.eqb a "_") s = true.
Proof.
  induction 1 as [a Ha | a s Ha _ IH | a s Ha _ IH]; simpl; rewrite Ha;
    simpl; try rewrite IH; reflexivity.
Qed.

Lemma sign_text_chars sg : Spec.sign_text sg -> Str.all Num.is_sign sg = true.
Proof. intros [-> | [-> | ->]]; reflexivity. Qed.

Lemma exponent_text_chars x :
  Spec.exponent_text x ->
  Str.all (fun a => (Chr.isdecimal a || Chr.eqb a "_")
                    || (Num.is_sign a || Num.is_e a)) x = true.
Proof.
  intros [-> | (e & sg & n & -> & He & Hsg & Hn)]; [reflexivity|].
  simpl. rewrite He, !orb_true_r. simpl. rewrite all_app.
  apply andb_true_iff. split.
  - apply all_or_r, all_or_l, sign_text_chars, Hsg.
  - apply all_or_l, numeral_chars, Hn.
Qed.

Lemma decimal_text_chars b :
  Spec.decimal_text b ->
  Str.all (fun a => ((Chr.isdecimal a || Chr.eqb a "_")
                     || (Num.is_sign a || Num.is_e a))
                    || Chr.eqb a ".") b = true.
Proof.
  intros H.
  assert (Hn : forall n, Spec.numeral n ->
            Str.all (fun a => ((Chr.isdecimal a || Chr.eqb a "_")
                               || (Num.is_sign a || Num.is_e a))
                              || Chr.eqb a ".") n = true)
    by (intros n Hn; apply all_or_l, all_or_l, numeral_chars, Hn).
  assert (Hx : forall x, Spec.exponent_text x ->
            Str.all (fun a => ((Chr.isdecimal a || Chr.eqb a "_")
                               || (Num.is_sign a || Num.is_e a))
                              || Chr.eqb a ".") x = true)
    by (intros x Hx; apply all_or_l, exponent_text_chars, Hx).
  destruct H as [n x H1 H2 | n x H1 H2 | n f x H1 H2 H3 | f x H1 H2];
    rewrite ?all_app; simpl; rewrite ?all_app;
    repeat (apply andb_true_iff; split); auto.
Qed.

Lemma fraction_text_chars s :
  Spec.fraction_text s ->
  Str.all (fun a => (((Chr.isdecimal a || Chr.eqb a "_")
                      || (Num.is_sign a || Num.is_e a))
                     || Chr.eqb a ".") || Chr.eqb a "/") (Str.strip s) = true.
Proof.
  intros (sg & b & -> & Hsg & Hb). rewrite all_app. apply andb_true_iff. split.
  - apply all_or_l, all_or_l, all_or_r, all_or_l, sign_text_chars, Hsg.
  - destruct Hb as [Hb | (n & d & -> & Hn & Hd)].
    + apply all_or_l, decimal_text_chars, Hb.
    + rewrite all_app. simpl. rewrite all_app.
      repeat (apply andb_true_iff; split);
        try (apply all_or_l, all_or_l, all_or_l, numeral_chars; assumption);
        reflexivity.
Qed.

(** C5, as the code has it. A malformed token, that is a token that is no
    number text in the syntax of [Fraction] and [float] (the empty string
    and text without a digit among them) or a fraction with a zero
    denominator, makes the body of the parser raise, and the parser
    returns [None]: the exception never leaves [parse_quantity]. *)
Theorem parse_quantity_malformed s :
  Spec.malformed s ->
  (exists e, parse_quantity_body s = Raise e) /\ parse_quantity s = None.
Proof.
  intros H.
  assert (Hnone : parse_quantity s = None).
  { assert (Hnot : forall s0, ~ Spec.quantity_text s0 ->
                              parse_quantity s0 = None).
    { intros s0 Hn. destruct (parse_quantity s0) as [x|] eqn:E;
        [|reflexivity].
      contradiction (Hn (parse_quantity_text s0 x E)). }
    destruct H as [| s Hnd | s Hn | n z Hn Hz | w n z Hw Hn Hz].
    - reflexivity.
    - apply Hnot, no_digit_not_a_number, Hnd.
    - apply Hnot, Hn.
    - pose proof (zero_string_digits _ Hz) as Hd.
      destruct (digit_string_inv n Hn) as (Hna & _).
      destruct (digit_string_inv z Hd) as (Hza & _).
      unfold parse_quantity. rewrite parse_quantity_plain.
      + rewrite Fraction_of_str_frac by assumption.
        rewrite (Z_of_zero_string _ Hz).
        destruct (Spec.short n && Spec.short z); reflexivity.
      + apply contains_char_false. rewrite !all_app, !andb_true_iff.
        repeat split; auto using digits_no_blank.
    - pose proof (zero_string_digits _ Hz) as Hd.
      unfold parse_quantity. rewrite parse_quantity_mixed by assumption.
      rewrite (Z_of_zero_string _ Hz).
      destruct (Spec.short n && Spec.short z); reflexivity. }
  split; [|exact Hnone]. unfold parse_quantity in Hnone.
  destruct (parse_quantity_body s) as [x|e]; [discriminate Hnone | eauto].
Qed.

Lemma parse_quantity_malformed_witness :
  parse_quantity "12abc" = None /\ parse_quantity "" = None
  /\ parse_quantity "abc" = None /\ parse_quantity "1/0" = None.
Proof.
  assert (Hnot : ~ Spec.quantity_text "12abc").
  { unfold Spec.quantity_text. simpl. intros H.
    apply fraction_text_chars in H. vm_compute in H. discriminate H. }
  split; [|split; [|split]].
  - exact (proj2 (parse_quantity_malformed "12abc"
                    (Spec.Mal_not_a_number "12abc" Hnot))).
  - exact (proj2 (parse_quantity_malformed "" Spec.Mal_empty)).
  - exact (proj2 (parse_quantity_malformed "abc"
                    (Spec.Mal_non_numeric "abc" eq_refl))).
  - exact (proj2 (parse_quantity_malformed "1/0"
                    (Spec.Mal_zero_denominator "1" "0" eq_refl eq_refl))).
Defined.

(** The characters of a valid token. *)
Lemma token_text_chars t :
  Spec.token_valid t = true ->
  Str.all (fun a => Chr.isdecimal a
                    || (Chr.eqb a "." || Chr.eqb a "/" || Chr.eqb a " "))
    (Spec.token_text t) = true.
Proof.
  assert (Hd : forall d, Spec.digit_string d = true ->
            Str.all (fun a => Chr.isdecimal a
                              || (Chr.eqb a "." || Chr.eqb a "/"
                                  || Chr.eqb a " ")) d = true).
  { intros d H. apply all_or_l. exact (proj1 (digit_string_inv d H)). }
  destruct t as [d | i f | n d | w n d];
    cbn [Spec.token_valid Spec.token_text]; intros Hv.
  - apply Hd, Hv.
  - apply andb_true_iff in Hv as [Hi Hf].
    rewrite !all_app, (Hd i Hi), (Hd f Hf). reflexivity.
  - apply andb_true_iff in Hv as [Hv _]. apply andb_true_iff in Hv as [Hn Hdd].
    rewrite !all_app, (Hd n Hn), (Hd d Hdd). reflexivity.
  - apply andb_true_iff in Hv as [Hv _]. apply andb_true_iff in Hv as [Hv Hdd].
    apply andb_true_iff in Hv as [Hw Hn].
    rewrite !all_app, (Hd w Hw), (Hd n Hn), (Hd d Hdd). reflexivity.
Qed.

(** C5 as stated fails when a malformed token is one that is not valid: a
    token outside the four shapes that [Fraction] reads is parsed. The
    text "1e3" yields 1000.0. *)
Lemma parse_quantity_malformed_counterexample :
  ~ (forall s,
       (forall t, Spec.token_valid t = true -> Spec.token_text t <> s) ->
       parse_quantity s = None).
Proof.
  intros H. specialize (H "1e3").
  assert (Hp : parse_quantity "1e3" = Some (Float.of_Q 1000))
    by (vm_compute; reflexivity).
  rewrite H in Hp; [discriminate Hp|].
  intros t Hv E. apply token_text_chars in Hv. rewrite E in Hv.
  vm_compute in Hv. discriminate Hv.
Qed.

(** Whatever the token, the parser returns: an exception of the body is
    the answer [None]. *)
Lemma parse_quantity_total s :
  (exists x, parse_quantity_body s = Ok x /\ parse_quantity s = Some x)
  \/ (exists e, parse_quantity_body s = Raise e /\ parse_quantity s = None).
Proof.
  unfold parse_quantity. destruct (parse_quantity_body s) as [x|e]; eauto.
Qed.

(** Some tokens outside the four shapes are numbers for [Fraction] or
    [float] and are parsed, not refused. *)
Example parse_quantity_lenient :
  parse_quantity "1e3" = Some (Float.of_Q 1000)
  /\ parse_quantity ".5" = Some (Float.of_Q (1 # 2))
  /\ parse_quantity "-2" = Some (Float.of_Q (-2))
  /\ parse_quantity "1_000" = Some (Float.of_Q 1000)
  /\ parse_quantity "inf 1/2" = Some (S754_infinity false).
Proof. vm_compute. repeat split. Qed.

(** Tokens that are no number text. *)
Example parse_quantity_refused :
  parse_quantity "1/x" = None /\ parse_quantity "1/2/3" = None
  /\ parse_quantity "1 2" = None /\ parse_quantity "1..2" = None
  /\ parse_quantity "x 1/2" = None.
Proof. vm_compute. repeat split. Qed.

(** ** The validator of the model's answer *)

Lemma py_mapM_Forall2 {A B : Type} (f : A -> py B) l l' :
  py_mapM f l = Ok l' -> Forall2 (fun a b => f a = Ok b) l l'.
Proof.
  revert l'. induction l as [|a l IH]; intros l' H; simpl in H.
  - inversion H. constructor.
  - destruct (f a) as [b|e] eqn:E; [|discriminate]. simpl in H.
    destruct (py_mapM f l) as [bs|e]; [|discriminate]. simpl in H.
    inversion H; subst. constructor; [exact E | apply IH; reflexivity].
Qed.

(** The cleanup of a dict, step by step. *)
Lemma cleanup_item_dict (fields : gmap string json) :
  let kept := delete "state" (delete "notes" fields) in
  cleanup_item (JObj fields) =
    if bool_decide (is_Some (kept !! "ml"))
       && bool_decide (is_Some (kept !! "grams"))
    then
      name ← PyObj.getitem (JObj kept) "ingredient";
      is_flour ← PyObj.contains "flour" name;
      if is_flour : bool then PyObj.delitem (JObj kept) "ml"
      else PyObj.delitem (JObj kept) "grams"
    else Ok (JObj kept).
Proof.
  intros kept. unfold cleanup_item. simpl. fold kept.
  destruct (bool_decide (is_Some (kept !! "ml"))); simpl; [|reflexivity].
  destruct (bool_decide (is_Some (kept !! "grams"))); reflexivity.
Qed.

Lemma cleanup_item_single item item' :
  cleanup_item item = Ok item' -> has_both item' = false.
Proof.
  destruct item as [| | | | |items|fields]; try discriminate.
  rewrite cleanup_item_dict. cbv zeta.
  set (kept := delete "state" (delete "notes" fields)).
  destruct (bool_decide (is_Some (kept !! "ml"))) eqn:Hml; simpl.
  - destruct (bool_decide (is_Some (kept !! "grams"))) eqn:Hgr; simpl.
    + destruct (kept !! "ingredient") as [name|]; [|discriminate]. simpl.
      destruct (PyObj.contains "flour" name) as [[]|]; simpl; try discriminate.
      * destruct (kept !! "ml"); [|discriminate]. intros H. inversion H; subst.
        simpl. rewrite lookup_delete_eq. reflexivity.
      * destruct (kept !! "grams"); [|discriminate]. intros H. inversion H; subst.
        simpl. rewrite lookup_delete_eq. apply andb_false_r.
    + intros H. inversion H; subst. simpl. rewrite Hml, Hgr. reflexivity.
  - intros H. inversion H; subst. simpl. rewrite Hml. reflexivity.
Qed.

Lemma cleanup_results_single results v :
  cleanup_results results = Ok v ->
  exists items, PyObj.iter v = Ok items
                /\ Forall (fun it => has_both it = false) items.
Proof.
  unfold cleanup_results. intros H.
  destruct (PyObj.iter results) as [items|e] eqn:Eit; [|discriminate].
  simpl in H. destruct (py_mapM cleanup_item items) as [items'|e] eqn:Em;
    [|discriminate]. simpl in H. inversion H; subst; clear H.
  apply py_mapM_Forall2 in Em.
  destruct results as [| | | | s | l | fields]; try discriminate;
    simpl in Eit; inversion Eit; subst; clear Eit.
  - eexists. split; [reflexivity|]. apply Forall_forall. intros it Hin.
    apply list_elem_of_In, in_map_iff in Hin as (a & <- & _). reflexivity.
  - exists items'. split; [reflexivity|]. clear -Em.
    induction Em as [|a b l l' Hab _ IH]; constructor;
      [exact (cleanup_item_single _ _ Hab) | exact IH].
  - eexists. split; [reflexivity|]. apply Forall_forall. intros it Hin.
    apply list_elem_of_In, in_map_iff in Hin as (a & <- & _). reflexivity.
Qed.

Lemma py_mapM_raise_inv {A B : Type} (f : A -> py B) l e :
  py_mapM f l = Raise e -> exists a e', In a l /\ f a = Raise e'.
Proof.
  induction l as [|a l IH]; intros H; simpl in H; [discriminate H|].
  destruct (f a) as [b|e'] eqn:E; [|exists a, e'; split; [left|]; auto].
  simpl in H. destruct (py_mapM f l) as [bs|e'']; [discriminate H|].
  simpl in H. destruct (IH H) as (a' & e' & Hin & Ha'). exists a', e'.
  split; [right; exact Hin | exact Ha'].
Qed.

(** C8, as the code has it. For every answer of the model whose "results"
    is a list: an item with both measures and an ingredient name keeps
    "grams" and loses "ml" when the name contains "flour", and keeps "ml"
    and loses "grams" otherwise; for an item with both measures and no
    name the cleanup raises; an item without both measures only loses
    "notes" and "state"; and what the validator returns is the list of
    the items so cleaned, in their order, none of which carries both
    measures. It returns [None] only when the cleanup of an item
    raises. *)
Theorem grams_or_ml generate_content json_loads json_dumps ingredients
    text m (fields : gmap string json) items :
  generate_content (prompt json_dumps ingredients) = Ok text ->
  Re.search DOTALL braces_re text = Some m ->
  json_loads (Re.whole m) = Ok (JObj fields) ->
  fields !! "results" = Some (JArr items) ->
  (forall (item : gmap string json) g ml,
     item !! "grams" = Some g -> item !! "ml" = Some ml ->
     let kept := delete "state" (delete "notes" item) in
     match item !! "ingredient" with
     | Some (JStr name) =>
         cleanup_item (JObj item)
         = Ok (JObj (delete (if Str.contains "flour" name
                             then "ml" else "grams") kept))
         /\ (if Str.contains "flour" name
             then delete "ml" kept !! "grams" = Some g
                  /\ delete "ml" kept !! "ml" = None
             else delete "grams" kept !! "ml" = Some ml
                  /\ delete "grams" kept !! "grams" = None)
     | Some other =>
         cleanup_item (JObj item)
         = (is_flour ← PyObj.contains "flour" other;
            Ok (JObj (delete (if is_flour : bool then "ml" else "grams")
                        kept)))
     | None => cleanup_item (JObj item) = Raise KeyError
     end)
  /\ (forall item : gmap string json,
        item !! "grams" = None \/ item !! "ml" = None ->
        cleanup_item (JObj item)
        = Ok (JObj (delete "state" (delete "notes" item))))
  /\ match convert_with_gemini generate_content json_loads json_dumps
             ingredients with
     | Some v =>
         exists items',
           v = JArr items'
           /\ Forall2 (fun it it' => cleanup_item it = Ok it') items items'
           /\ Forall (fun it' => has_both it' = false) items'
     | None => exists it e, In it items /\ cleanup_item it = Raise e
     end.
Proof.
  intros H1 H2 H3 H4. split; [|split].
  - intros item g ml Hg Hm. cbv zeta. rewrite cleanup_item_dict. cbv zeta.
    set (kept := delete "state" (delete "notes" item)).
    assert (Hkg : kept !! "grams" = Some g)
      by (unfold kept; rewrite !lookup_delete_ne by discriminate; exact Hg).
    assert (Hkm : kept !! "ml" = Some ml)
      by (unfold kept; rewrite !lookup_delete_ne by discriminate; exact Hm).
    assert (Hki : kept !! "ingredient" = item !! "ingredient")
      by (unfold kept; rewrite !lookup_delete_ne by discriminate; reflexivity).
    rewrite !bool_decide_eq_true_2 by eauto. simpl andb. cbv iota.
    unfold PyObj.getitem. rewrite Hki.
    destruct (item !! "ingredient") as [n|]; [|reflexivity].
    assert (Hdel : forall b : bool,
              (if b then PyObj.delitem (JObj kept) "ml"
               else PyObj.delitem (JObj kept) "grams")
              = Ok (JObj (delete (if b then "ml" else "grams") kept))).
    { intros []; unfold PyObj.delitem; rewrite ?Hkm, ?Hkg; reflexivity. }
    destruct n as [| | | |name| |]; simpl mbind; try reflexivity;
      try exact (Hdel _).
    split; [exact (Hdel (Str.contains "flour" name))|].
    destruct (Str.contains "flour" name);
      rewrite lookup_delete_eq, lookup_delete_ne by discriminate; auto.
  - intros item Hnone. rewrite cleanup_item_dict. cbv zeta.
    set (kept := delete "state" (delete "notes" item)).
    assert (Hb : bool_decide (is_Some (kept !! "ml"))
                 && bool_decide (is_Some (kept !! "grams")) = false).
    { unfold kept. rewrite !lookup_delete_ne by discriminate.
      destruct Hnone as [Hn | Hn]; rewrite Hn.
      - rewrite (bool_decide_eq_false_2 (is_Some None));
          [apply andb_false_r | apply is_Some_None].
      - rewrite (bool_decide_eq_false_2 (is_Some None));
          [reflexivity | apply is_Some_None]. }
    rewrite Hb. reflexivity.
  - assert (Hbody : convert_body generate_content json_loads json_dumps
                      ingredients
                    = cleanup_results (JArr items)).
    { unfold convert_body. rewrite H1. simpl. rewrite H2. simpl. rewrite H3.
      simpl. rewrite H4. reflexivity. }
    unfold convert_with_gemini. rewrite Hbody. unfold cleanup_results.
    simpl. destruct (py_mapM cleanup_item items) as [items'|e] eqn:Em; simpl.
    + exists items'. split; [reflexivity|].
      apply py_mapM_Forall2 in Em. split; [exact Em|]. clear -Em.
      induction Em as [|a b l l' Hab _ IH]; constructor;
        [exact (cleanup_item_single _ _ Hab) | exact IH].
    + destruct (py_mapM_raise_inv _ _ _ Em) as (a & e' & Hin & Ha). eauto.
Qed.

Lemma grams_or_ml_witness :
  match
    convert_with_gemini
      (fun _ => Ok "{}")
      (fun _ => Ok (JObj {[ "results" :=
                  JArr [JObj (<["ingredient" := JStr "flour"]>
                              (<["grams" := JInt 125]>
                               (<["ml" := JInt 296]> ∅)));
                        JObj (<["ingredient" := JStr "milk"]>
                              (<["ml" := JInt 240]> ∅))] ]}))
      (fun _ => "[]") []
  with
  | Some v =>
      exists items',
        v = JArr items'
        /\ Forall2 (fun it it' => cleanup_item it = Ok it')
             [JObj (<["ingredient" := JStr "flour"]>
                    (<["grams" := JInt 125]> (<["ml" := JInt 296]> ∅)));
              JObj (<["ingredient" := JStr "milk"]> (<["ml" := JInt 240]> ∅))]
             items'
        /\ Forall (fun it' => has_both it' = false) items'
  | None =>
      exists it e,
        In it
          [JObj (<["ingredient" := JStr "flour"]>
                 (<["grams" := JInt 125]> (<["ml" := JInt 296]> ∅)));
           JObj (<["ingredient" := JStr "milk"]> (<["ml" := JInt 240]> ∅))]
        /\ cleanup_item it = Raise e
  end.
Proof.
  set (items := [JObj (<["ingredient" := JStr "flour"]>
                       (<["grams" := JInt 125]> (<["ml" := JInt 296]> ∅)));
                 JObj (<["ingredient" := JStr "milk"]>
                       (<["ml" := JInt 240]> ∅))]).
  assert (Hs : Re.search DOTALL braces_re "{}"
               = Some {| Re.whole := "{}"; Re.groups := [] |})
    by (vm_compute; reflexivity).
  assert (Hr : ({[ "results" := JArr items ]} : gmap string json)
                 !! "results" = Some (JArr items))
    by apply lookup_singleton_eq.
  exact (proj2 (proj2 (grams_or_ml
                         (fun _ => Ok "{}")
                         (fun _ => Ok (JObj {[ "results" := JArr items ]}))
                         (fun _ => "[]") [] "{}" _ _ items
                         eq_refl Hs eq_refl Hr))).
Defined.

(** C8 as stated fails for an item with both measures and no ingredient
    name: the validator does not keep "ml", it raises, and the whole stage
    returns [None]. *)
Lemma grams_or_ml_counterexample :
  ~ (forall item : gmap string json,
       is_Some (item !! "grams") -> is_Some (item !! "ml") ->
       exists item', cleanup_item (JObj item) = Ok item').
Proof.
  intros H.
  destruct (H (<["grams" := JInt 125]> (<["ml" := JInt 296]> ∅)))
    as (item' & Hc).
  - rewrite lookup_insert_eq. eauto.
  - rewrite lookup_insert_ne by discriminate. rewrite lookup_insert_eq. eauto.
  - vm_compute in Hc. discriminate Hc.
Qed.

(** An item with both measures and no name makes the loop raise, and with
    it the whole stage fail. *)
Lemma cleanup_item_without_name (fields : gmap string json) :
  is_Some (fields !! "ml") -> is_Some (fields !! "grams") ->
  fields !! "ingredient" = None ->
  cleanup_item (JObj fields) = Raise KeyError.
Proof.
  intros Hm Hg Hn. rewrite cleanup_item_dict. cbv zeta.
  unfold PyObj.getitem. rewrite !lookup_delete_ne by discriminate.
  rewrite !bool_decide_eq_true_2 by assumption. rewrite Hn. reflexivity.
Qed.

(** ** The handlers *)






Lemma convert_recipe_empty generate_content json_loads json_dumps exn_str text :
  extract_ingredients text = [] ->
  convert_recipe generate_content json_loads json_dumps exn_str text
  = Raise (HTTPException 500
             (exn_str (HTTPException 400 "No ingredients detected"))).
Proof.
  intros H. unfold convert_recipe, convert_recipe_body. rewrite H. reflexivity.
Qed.

(** C3. The 400 raised for a text without ingredients is raised inside
    the [try] block, whose handler catches it and raises a 500 in its
    place: the client gets status 500, with the text of the caught
    exception as its message. *)
Theorem no_ingredients_answers_500
    generate_content json_loads json_dumps exn_str :
  respond (convert_recipe generate_content json_loads json_dumps exn_str
             "Mix well and bake.")
  = {| status := 500;
       body := JObj {[ "detail" :=
                       JStr (exn_str
                               (HTTPException 400 "No ingredients detected")) ]} |}.
Proof.
  rewrite convert_recipe_empty by (vm_compute; reflexivity). reflexivity.
Qed.

(** The POST handler never answers 400. *)
Lemma convert_recipe_never_400 generate_content json_loads json_dumps exn_str text :
  status (respond (convert_recipe generate_content json_loads json_dumps
                     exn_str text)) <> 400%Z.
Proof.
  unfold convert_recipe.
  destruct (convert_recipe_body _ _ _ _) as [v|e]; simpl; [|lia].
  destruct (renderable v); simpl; lia.
Qed.

(** ** The split of a discovered line never splits

    The line pattern ends its lazy capture at the first comma, so the text
    of group 1 holds no comma and the split on a comma followed by a digit
    finds nothing to split. *)

Lemma rmatch_seq_sound fl r1 r2 (R : Type) p s g (k : Re.cont R) x :
  Re.rmatch fl (Re.Seq r1 r2) p s g k = Some x ->
  exists p1 s1 g1,
    Re.matches fl r1 p s g p1 s1 g1 /\ Re.rmatch fl r2 p1 s1 g1 k = Some x.
Proof. simpl. intros H. apply rmatch_sound in H. exact H. Qed.

Lemma rmatch_star_unfold fl greedy r (R : Type) p s g (k : Re.cont R) :
  Re.rmatch fl (Re.Star greedy r) p s g k
  = Re.star_loop greedy (fun p' s' g' k' => Re.rmatch fl r p' s' g' k') k
      (String.length s) p s g.
Proof. reflexivity. Qed.

Lemma comma_char a : Chr.eqb a "," = true -> a = ","%char.
Proof. each_char a; vm_compute; intros H; try discriminate H; reflexivity. Qed.

Lemma item_excludes_comma_sound fl it a :
  Re.item_excludes_comma it = true -> Re.citem_match fl it a = true ->
  not_comma a = true.
Proof.
  unfold not_comma. destruct (Chr.eqb a ",") eqn:E; [|reflexivity].
  apply comma_char in E. subst a. destruct fl as [ic da].
  destruct it as [c | lo hi | | | ].
  - destruct ic; each_char c; vm_compute; intros H1 H2;
      first [discriminate H1 | discriminate H2].
  - unfold Re.item_excludes_comma, Re.citem_match. cbn [Re.ignorecase].
    destruct ic;
      change (Chr.code ",") with 44%N; change (Chr.tolower 44) with 44%N;
      change (Chr.toupper 44) with 44%N;
      destruct (Chr.in_range (Chr.code lo) (Chr.code hi) 44); simpl;
      intros H1 H2; first [discriminate H1 | discriminate H2].
  - vm_compute. intros _ H. discriminate H.
  - vm_compute. intros _ H. discriminate H.
  - simpl. intros H. discriminate H.
Qed.

Lemma cls_excludes_comma fl items a :
  forallb Re.item_excludes_comma items = true ->
  Re.cls_match fl items a = true -> not_comma a = true.
Proof.
  unfold Re.cls_match. induction items as [|it items IH]; [discriminate|].
  simpl. rewrite andb_true_iff, orb_true_iff. intros [H1 H2] [H|H].
  - eapply item_excludes_comma_sound; eauto.
  - auto.
Qed.

(** A pattern whose classes exclude the comma consumes no comma. *)
Lemma matches_no_comma fl r p s g p' s' g' :
  Re.matches fl r p s g p' s' g' ->
  Re.all_cls (forallb Re.item_excludes_comma) r = true ->
  exists t, s = t ++ s' /\ Str.all not_comma t = true.
Proof.
  induction 1 as
    [ p s g | items a p s g Hc
    | r1 r2 p s g p1 s1 g1 p2 s2 g2 _ IH1 _ IH2
    | r1 r2 p s g p' s' g' _ IH | r1 r2 p s g p' s' g' _ IH
    | greedy r p s g
    | greedy r p s g p1 s1 g1 p2 s2 g2 _ IH1 Hlt _ IH2
    | n r p s g p' s' g' _ IH
    | r p s g p1 s1 g1 _ IH
    | s g | p s g He | p s g Hb ];
    simpl; intros Hall;
    try (exists ""; split; reflexivity).
  - exists (String a ""). split; [reflexivity|]. simpl.
    rewrite (cls_excludes_comma _ _ _ Hall Hc). reflexivity.
  - apply andb_true_iff in Hall as [H1 H2].
    destruct (IH1 H1) as (t1 & -> & Ht1), (IH2 H2) as (t2 & -> & Ht2).
    exists (t1 ++ t2). rewrite app_assoc, all_app, Ht1, Ht2. split; reflexivity.
  - apply andb_true_iff in Hall as [H1 H2]. auto.
  - apply andb_true_iff in Hall as [H1 H2]. auto.
  - destruct (IH1 Hall) as (t1 & -> & Ht1), (IH2 Hall) as (t2 & -> & Ht2).
    exists (t1 ++ t2). rewrite app_assoc, all_app, Ht1, Ht2. split; reflexivity.
  - auto.
Qed.

(** A lazy repetition of a class stops at the first cursor its
    continuation accepts. *)
Lemma lazy_star_first fl (R : Type) items (k : Re.cont R) :
  forall n p s g x,
    Re.star_loop false
      (fun p' s' g' k' => Re.rmatch fl (Re.Cls items) p' s' g' k') k n p s g
      = Some x ->
    exists t s',
      s = t ++ s' /\ k (Str.last p t) s' g = Some x
      /\ forall t1 t2, t = t1 ++ t2 -> t2 <> "" ->
           k (Str.last p t1) (t2 ++ s') g = None.
Proof.
  induction n as [|n IH]; intros p s g x H; simpl in H.
  - destruct (k p s g) eqn:E; [|discriminate]. inversion H; subst.
    exists "", s. repeat split; [exact E|]. intros t1 t2 Ht Hne.
    destruct t1; [|discriminate Ht]. rewrite app_nil_l in Ht. congruence.
  - destruct (k p s g) eqn:E.
    + inversion H; subst. exists "", s. repeat split; [exact E|].
      intros t1 t2 Ht Hne. destruct t1; [|discriminate Ht].
      rewrite app_nil_l in Ht. congruence.
    + destruct s as [|a s1]; [discriminate|].
      destruct (Re.cls_match fl items a); [|discriminate].
      destruct (String.length s1 <? String.length (String a s1))%nat;
        [|discriminate].
      apply IH in H as (t & s' & -> & Hk & Hmin).
      exists (String a t), s'. repeat split; [exact Hk|].
      intros t1 t2 Ht Hne. destruct t1 as [|b t1].
      * rewrite app_nil_l in Ht. subst t2. exact E.
      * rewrite app_cons in Ht. inversion Ht; subst. simpl.
        apply Hmin; [reflexivity | exact Hne].
Qed.

Lemma first_accept_no_comma (R : Type) (k : Re.cont R) g s' :
  (forall p rest, k p (String "," rest) g <> None) ->
  forall t p,
    (forall t1 t2, t = t1 ++ t2 -> t2 <> "" ->
       k (Str.last p t1) (t2 ++ s') g = None) ->
    Str.all not_comma t = true.
Proof.
  intros Hk. induction t as [|a t IH]; intros p Hmin; [reflexivity|]. simpl.
  apply andb_true_iff. split.
  - unfold not_comma. destruct (Chr.eqb a ",") eqn:E; [|reflexivity].
    apply comma_char in E. subst a. exfalso.
    apply (Hk p (t ++ s')). apply (Hmin "" (String "," t)); [reflexivity|].
    discriminate.
  - apply (IH (Some a)). intros t1 t2 Ht Hne.
    apply (Hmin (String a t1) t2); [|exact Hne]. rewrite app_cons, Ht.
    reflexivity.
Qed.

Lemma line_re_unfold :
  line_re
  = Re.Seq (Re.chr "-")
      (Re.Seq (Re.Star true space)
         (Re.Seq
            (Re.Group 1
               (Re.Seq (Re.Group 2 quantity_re)
                  (Re.Seq (Re.Star true space)
                     (Re.Seq (Re.Group 3 letters)
                        (Re.Seq (Re.Plus true space) (Re.Star false dot))))))
            (Re.Lookahead
               (Re.alts [Re.chr ","; Re.chr Chr.newline; Re.Eol])))).
Proof. reflexivity. Qed.

(** Group 1 of a match of the line pattern holds no comma. *)
Lemma line_match_no_comma p s len g :
  Re.match_at IGNORECASE line_re p s = Some (len, g) ->
  exists line, Re.cap_lookup 1 g = Some line
               /\ Str.all not_comma line = true.
Proof.
  unfold Re.match_at. rewrite line_re_unfold. intros H.
  apply rmatch_seq_sound in H as (p1 & s1 & g1 & _ & H).
  apply rmatch_seq_sound in H as (p2 & s2 & g2 & _ & H).
  simpl Re.rmatch in H.
  set (K := fun (p' : option ascii) (s' : string) (g' : Re.caps) =>
              match
                match Re.rmatch IGNORECASE (Re.chr ",") p' s'
                        ((1, Str.take (String.length s2 - String.length s') s2)
                         :: g') (fun _ _ g'0 => Some g'0) with
                | Some x => Some x
                | None =>
                    match Re.rmatch IGNORECASE (Re.chr Chr.newline) p' s'
                            ((1, Str.take (String.length s2 - String.length s') s2)
                             :: g') (fun _ _ g'0 => Some g'0) with
                    | Some x => Some x
                    | None =>
                        if Re.at_eol s'
                        then Some ((1, Str.take (String.length s2
                                                 - String.length s') s2) :: g')
                        else None
                    end
                end
              with
              | Some g'0 =>
                  Some ((String.length s - String.length s')%nat, g'0)
              | None => None
              end) in *.
  change (Re.rmatch IGNORECASE
            (Re.Seq (Re.Group 2 quantity_re)
               (Re.Seq (Re.Star true space)
                  (Re.Seq (Re.Group 3 letters)
                     (Re.Seq (Re.Plus true space) (Re.Star false dot)))))
            p2 s2 g2 K = Some (len, g)) in H.
  apply rmatch_seq_sound in H as (p3 & s3 & g3 & Hq & H).
  apply rmatch_seq_sound in H as (p4 & s4 & g4 & Hs1 & H).
  apply rmatch_seq_sound in H as (p5 & s5 & g5 & Hl & H).
  apply rmatch_seq_sound in H as (p6 & s6 & g6 & Hs2 & H).
  apply matches_no_comma in Hq as (tq & -> & Hq); [|reflexivity].
  apply matches_no_comma in Hs1 as (ts1 & -> & Hs1); [|reflexivity].
  apply matches_no_comma in Hl as (tl & -> & Hl); [|reflexivity].
  apply matches_no_comma in Hs2 as (ts2 & -> & Hs2); [|reflexivity].
  unfold dot in H. rewrite rmatch_star_unfold in H.
  apply lazy_star_first in H as (t & s' & -> & Hk & Hmin).
  assert (Ht : Str.all not_comma t = true).
  { apply (first_accept_no_comma _ K g6 s') with (p := p6); [|exact Hmin].
    intros p' rest. unfold K. simpl. discriminate. }
  exists (tq ++ ts1 ++ tl ++ ts2 ++ t). split.
  - unfold K in Hk.
    match type of Hk with
    | match ?m with _ => _ end = _ => destruct m as [g'|] eqn:E; [|discriminate]
    end.
    injection Hk as _ Hgg. subst g.
    assert (Hg' : g' = (1, Str.take
                            (String.length (tq ++ ts1 ++ tl ++ ts2 ++ t ++ s')
                             - String.length s')
                            (tq ++ ts1 ++ tl ++ ts2 ++ t ++ s')) :: g6).
    { simpl in E.
      destruct s' as [|a s'']; simpl in E.
      - inversion E; reflexivity.
      - repeat match type of E with
               | context [if ?b then _ else _] => destruct b
               end; inversion E; reflexivity. }
    rewrite Hg'. simpl. f_equal.
    replace (tq ++ ts1 ++ tl ++ ts2 ++ t ++ s')
      with ((tq ++ ts1 ++ tl ++ ts2 ++ t) ++ s')
      by (rewrite !app_assoc; reflexivity).
    apply consumed_app.
  - rewrite !all_app, Hq, Hs1, Hl, Hs2, Ht. reflexivity.
Qed.

Lemma scan_sound fl r m : forall s skip p,
  In m (Re.scan fl r skip p s) ->
  exists p0 s0 len,
    Re.match_at fl r p0 s0 = Some (len, Re.groups m).
Proof.
  induction s as [|a s IH]; intros skip p H.
  - destruct skip; simpl in H; [|contradiction].
    destruct (Re.match_at fl r p "") as [[len g]|] eqn:E; [|contradiction].
    destruct H as [<- | []]. eauto.
  - destruct skip as [|skip]; simpl in H; [|eauto].
    destruct (Re.match_at fl r p (String a s)) as [[len g]|] eqn:E; [|eauto].
    destruct H as [<- | H]; eauto.
Qed.

Lemma discovered_line_no_comma text line :
  In line (discovered_lines text) -> Str.all not_comma line = true.
Proof.
  unfold discovered_lines. intros H.
  apply list_elem_of_In, list_elem_of_omap in H as (m & Hm & Hg).
  apply list_elem_of_In in Hm. unfold Re.finditer in Hm.
  apply scan_sound in Hm as (p0 & s0 & len & Hm).
  apply line_match_no_comma in Hm as (line' & Hl & Hnc).
  unfold Re.group in Hg. congruence.
Qed.

(** The split pattern needs a comma to match. *)
Lemma split_re_needs_comma p a s :
  not_comma a = true -> Re.match_at IGNORECASE split_re p (String a s) = None.
Proof.
  intros H.
  destruct (Re.match_at IGNORECASE split_re p (String a s)) as [[len g]|] eqn:E;
    [exfalso | reflexivity].
  unfold Re.match_at in E. change split_re with
    (Re.Seq (Re.chr ",")
       (Re.Seq (Re.Star true space) (Re.Lookahead (Re.Cls [Re.CDigit])))) in E.
  apply rmatch_seq_sound in E as (p1 & s1 & g1 & Hm & _).
  inversion Hm as [|? ? ? ? ? Hc| | | | | | | | | |]; subst.
  revert H Hc. each_char a; vm_compute; intros H1 H2;
    first [discriminate H1 | discriminate H2].
Qed.

Lemma split_scan_no_comma s : forall p cur,
  Str.all not_comma s = true ->
  Re.split_scan IGNORECASE split_re 0 p s cur = [Str.rev cur ++ s].
Proof.
  induction s as [|a s IH]; intros p cur H; simpl.
  - rewrite app_nil_r. reflexivity.
  - simpl in H. apply andb_true_iff in H as [Ha Hs].
    rewrite (split_re_needs_comma p a s Ha). rewrite IH by exact Hs.
    rewrite rev_cons, app_assoc. reflexivity.
Qed.

(** For every text, each discovered line is its own single part: the
    second item of a line and the text after a comma are never seen. *)
Lemma line_parts_single text line :
  In line (discovered_lines text) -> line_parts line = [Str.strip line].
Proof.
  intros H. apply discovered_line_no_comma in H.
  unfold line_parts, Re.split. rewrite split_scan_no_comma by exact H.
  reflexivity.
Qed.

Lemma flat_map_singletons {A B C : Type} (f : A -> list B) (g : A -> B)
    (h : B -> option C) (l : list A) :
  (forall x, In x l -> f x = [g x]) ->
  flat_map (fun x => omap h (f x)) l = omap (fun x => h (g x)) l.
Proof.
  induction l as [|a l IH]; intros H; [reflexivity|]. simpl.
  rewrite (H a) by (left; reflexivity). simpl.
  rewrite IH by (intros x Hx; apply H; right; exact Hx).
  destruct (h (g a)); reflexivity.
Qed.

(** For every text, a discovered line yields at most one record. *)
Lemma extract_ingredients_per_line text :
  extract_ingredients text
  = omap (fun line => parse_part (Str.strip line)) (discovered_lines text).
Proof.
  unfold extract_ingredients. apply flat_map_singletons.
  intros line H. exact (line_parts_single text line H).
Qed.

Lemma not_comma_lower a : not_comma a = true -> not_comma (Chr.lower a) = true.
Proof. each_char a; vm_compute; congruence. Qed.

Lemma all_map q f s :
  (forall a, q a = true -> q (f a) = true) ->
  Str.all q s = true -> Str.all q (Str.map f s) = true.
Proof.
  intros Hf. induction s as [|a s IH]; [reflexivity|]. simpl.
  rewrite !andb_true_iff. intros [H1 H2]. auto.
Qed.

(** For every text, no ingredient name holds a comma: text after a comma
    is never retained. *)
Lemma ingredient_no_comma text r :
  In r (extract_ingredients text) -> Str.all not_comma (ingredient r) = true.
Proof.
  rewrite extract_ingredients_per_line. intros H.
  apply list_elem_of_In, list_elem_of_omap in H as (line & Hl & Hr).
  apply list_elem_of_In, discovered_line_no_comma in Hl.
  apply (all_strip not_comma) in Hl.
  unfold parse_part in Hr.
  destruct (part_groups (Str.strip line)) as [[[qty unit] rest]|] eqn:Hg;
    [|discriminate].
  apply part_groups_inv in Hg as (pre & t1 & t2 & post & Hp & _).
  rewrite Hp, !all_app, !andb_true_iff in Hl.
  destruct Hl as (_ & _ & _ & _ & _ & Hrest & _).
  destruct (Re.search _ _ _); [|discriminate].
  destruct (parse_quantity qty); [|discriminate].
  destruct (_ && _); [|discriminate]. inversion Hr; subst. simpl.
  apply all_strip. unfold Str.replace, Str.lower.
  apply all_map; [|apply all_map; [apply not_comma_lower | exact Hrest]].
  intros a Ha. destruct (Chr.eqb a "-"); [reflexivity | exact Ha].
Qed.

(** ** How [strip] and [rstrip] act *)

Lemma drop_while_nil p s :
  Str.all p s = true -> Str.drop_while p s = "".
Proof.
  induction s as [|a s IH]; [reflexivity|]. simpl. intros H.
  apply andb_true_iff in H as [Ha Hs]. rewrite Ha. auto.
Qed.

Lemma drop_while_app_gen p u v :
  Str.drop_while p (u ++ v)
  = if Str.all p u then Str.drop_while p v else Str.drop_while p u ++ v.
Proof.
  induction u as [|a u IH]; [reflexivity|]. rewrite app_cons. simpl.
  destruct (p a); [exact IH | reflexivity].
Qed.

(** [rstrip], read from the left. *)
Lemma rstrip_by_cons p a t :
  Str.rstrip_by p (String a t)
  = if Str.all p t
    then (if p a then "" else String a "")
    else String a (Str.rstrip_by p t).
Proof.
  unfold Str.rstrip_by. rewrite rev_cons, drop_while_app_gen, all_rev.
  destruct (Str.all p t).
  - simpl. destruct (p a); reflexivity.
  - rewrite rev_snoc. reflexivity.
Qed.

Lemma last_cons p a t : Str.last p (String a t) = Str.last None (String a t).
Proof. reflexivity. Qed.

Lemma last_not_all (q : ascii -> bool) p t c :
  Str.last p t = Some c -> q c = false -> t <> "" -> Str.all q t = false.
Proof.
  revert p. induction t as [|a t IH]; intros p Hl Hc Hne;
    [exfalso; apply Hne; reflexivity|].
  simpl in *. destruct t as [|b t].
  - simpl in Hl. inversion Hl; subst. rewrite Hc. reflexivity.
  - rewrite (IH (Some a) Hl Hc) by discriminate. apply andb_false_r.
Qed.

(** A string that does not end with a stripped character is kept. *)
Lemma rstrip_by_id p s c :
  Str.last None s = Some c -> p c = false -> Str.rstrip_by p s = s.
Proof.
  induction s as [|a s IH]; intros Hl Hc; [discriminate|].
  rewrite rstrip_by_cons. destruct s as [|b s].
  - simpl in Hl. inversion Hl; subst. simpl. rewrite Hc. reflexivity.
  - rewrite (last_not_all p (Some a) (String b s) c Hl Hc) by discriminate.
    f_equal. apply IH; [exact Hl | exact Hc].
Qed.

(** What [rstrip] returns is empty or ends with a character it keeps, and
    it starts as the string did. *)
Lemma rstrip_by_ends p s :
  Str.rstrip_by p s = ""
  \/ exists c, Str.last None (Str.rstrip_by p s) = Some c /\ p c = false.
Proof.
  induction s as [|a s IH]; [left; reflexivity|]. rewrite rstrip_by_cons.
  destruct (Str.all p s) eqn:E.
  - destruct (p a) eqn:Ea; [left; reflexivity|]. right. exists a. auto.
  - right. destruct IH as [IH | (c & Hl & Hc)].
    + exfalso. unfold Str.rstrip_by in IH.
      apply (f_equal Str.rev) in IH. rewrite rev_involutive in IH. simpl in IH.
      assert (Hall : Str.all p (Str.rev s) = false) by (rewrite all_rev; exact E).
      clear -IH Hall. induction (Str.rev s) as [|b u IHu]; [discriminate|].
      simpl in *. destruct (p b); [auto | discriminate].
    + exists c. split; [|exact Hc].
      destruct (Str.rstrip_by p s); [discriminate | exact Hl].
Qed.

Lemma rstrip_by_head p a t :
  p a = false -> exists u, Str.rstrip_by p (String a t) = String a u.
Proof.
  intros H. rewrite rstrip_by_cons, H. destruct (Str.all p t); eauto.
Qed.

Lemma drop_while_head p s :
  Str.drop_while p s = ""
  \/ exists a t, Str.drop_while p s = String a t /\ p a = false.
Proof.
  induction s as [|a s IH]; [left; reflexivity|]. simpl.
  destruct (p a) eqn:E; [exact IH|]. right. eauto.
Qed.

(** [strip] leaves a string without whitespace at its ends. *)
Lemma strip_idempotent s : Str.strip (Str.strip s) = Str.strip s.
Proof.
  unfold Str.strip at 2 3, Str.lstrip_by.
  destruct (drop_while_head Chr.isspace s) as [-> | (a & t & -> & Ha)];
    [reflexivity|].
  destruct (rstrip_by_head Chr.isspace a t Ha) as (u & Hu).
  destruct (rstrip_by_ends Chr.isspace (String a t)) as [E | (c & Hl & Hc)];
    [rewrite E; reflexivity|].
  rewrite Hu in *. unfold Str.strip, Str.lstrip_by. simpl. rewrite Ha.
  apply (rstrip_by_id _ _ c Hl Hc).
Qed.

(** A string with no whitespace at its ends is its own [strip]. *)
Lemma strip_ends a t c :
  Chr.isspace a = false -> Str.last None (String a t) = Some c ->
  Chr.isspace c = false -> Str.strip (String a t) = String a t.
Proof.
  intros Ha Hl Hc. unfold Str.strip, Str.lstrip_by. simpl. rewrite Ha.
  apply (rstrip_by_id _ _ c Hl Hc).
Qed.

(** ** The records of the extractor are normalized *)

Lemma lower_lower a : Chr.lower (Chr.lower a) = Chr.lower a.
Proof. each_char a; reflexivity. Qed.

Lemma lower_not_hyphen a : Chr.eqb (Chr.lower a) "-" = Chr.eqb a "-".
Proof. each_char a; reflexivity. Qed.

Lemma lower_fixed s :
  Str.all (fun a => Chr.eqb (Chr.lower a) a) s = true -> Str.lower s = s.
Proof.
  induction s as [|a s IH]; [reflexivity|]. simpl. intros H.
  apply andb_true_iff in H as [Ha Hs]. unfold Str.lower in *. simpl.
  rewrite (IH Hs). f_equal. revert Ha.
  each_char a; vm_compute; intros H; first [reflexivity | discriminate H].
Qed.

Lemma all_map_any (q : ascii -> bool) f s :
  (forall a, q (f a) = true) -> Str.all q (Str.map f s) = true.
Proof.
  intros H. induction s as [|a s IH]; [reflexivity|]. simpl.
  rewrite H, IH. reflexivity.
Qed.

(** The name built from a remainder: in lower case, without a hyphen,
    without whitespace at its ends. *)
Lemma normalized_name rest :
  let name := Str.strip (Str.replace "-" " " (Str.lower rest)) in
  Str.strip name = name /\ Str.lower name = name
  /\ Str.contains "-" name = false.
Proof.
  cbv zeta. split; [apply strip_idempotent|]. split.
  - apply lower_fixed, all_strip. unfold Str.replace, Str.lower.
    apply all_map.
    + intros a Ha. destruct (Chr.eqb a "-"); [reflexivity | exact Ha].
    + apply all_map_any. intros a. rewrite lower_lower. unfold Chr.eqb.
      apply N.eqb_refl.
  - apply contains_char_false, all_strip. unfold Str.replace.
    induction (Str.lower rest) as [|a s IH]; [reflexivity|]. simpl.
    rewrite IH, andb_true_r. destruct (Chr.eqb a "-") eqn:E; [reflexivity|].
    unfold Chr.eqb in *. rewrite N.eqb_sym, E. reflexivity.
Qed.

(** * Further properties of the extractor *)

(** What a kept part records. *)
Lemma parse_part_record part r :
  parse_part part = Some r ->
  exists qty unit rest,
    part_groups part = Some (qty, unit, rest)
    /\ ingredient r = Str.strip (Str.replace "-" " " (Str.lower rest))
    /\ unit_ r = Str.lower (Str.rstrip "s" unit)
    /\ In (unit_ r) unit_forms
    /\ parse_quantity qty = Some (quantity r)
    /\ Float.truthy (quantity r) = true
    /\ rest <> "".
Proof.
  intros H.
  destruct (part_groups part) as [[[qty unit] rest]|] eqn:Hg;
    [|unfold parse_part in H; rewrite Hg in H; discriminate].
  rewrite (parse_part_unfold _ _ _ _ Hg) in H.
  destruct (part_groups_unit _ _ _ _ Hg) as [_ Hlet].
  pose proof (all_rstrip_by
                (fun a => Str.contains (String a "") "s") _ _ Hlet) as Hlet'.
  fold (Str.rstrip "s" unit) in Hlet'.
  destruct (Re.search IGNORECASE unit_pattern (Str.rstrip "s" unit))
    as [um|] eqn:E; [|discriminate].
  destruct (unit_search_sound _ _ Hlet' E) as [Hw Hform]. rewrite Hw in H.
  destruct (parse_quantity qty) as [q|] eqn:Hpq; [|discriminate].
  destruct (Float.truthy q) eqn:Hq; simpl in H; [|discriminate].
  destruct (Str.nonempty (Str.lower (Str.rstrip "s" unit))); simpl in H;
    [|discriminate].
  destruct rest as [|a rest]; simpl in H; [discriminate|].
  inversion H; subst; clear H. simpl.
  exists qty, unit, (String a rest).
  repeat split; try assumption; discriminate.
Qed.

(** X1. Whatever the text, a discovered line holds no comma, so the split
    on a comma followed by a digit returns the line as its single part. *)
Theorem split_never_splits text line :
  In line (discovered_lines text) ->
  Str.contains "," line = false /\ line_parts line = [Str.strip line].
Proof.
  intros H. split; [|exact (line_parts_single text line H)].
  apply discovered_line_no_comma in H. apply contains_char_false.
  eapply all_impl; [|exact H]. intros a Ha. unfold not_comma, Chr.eqb in *.
  rewrite N.eqb_sym. exact Ha.
Qed.

Lemma split_never_splits_witness :
  Str.contains "," "2 cups flour" = false
  /\ line_parts "2 cups flour" = [Str.strip "2 cups flour"].
Proof.
  apply (split_never_splits "- 2 cups flour, 1 tsp salt" "2 cups flour").
  vm_compute. left. reflexivity.
Defined.

(** X2. Whatever the text, every discovered line gives at most one
    record, the one of the line taken as a single part, in the order of
    the lines. *)
Theorem one_record_per_line text :
  extract_ingredients text
  = omap (fun line => parse_part (Str.strip line)) (discovered_lines text)
  /\ (List.length (extract_ingredients text)
      <= List.length (discovered_lines text))%nat.
Proof.
  pose proof (extract_ingredients_per_line text) as H. split; [exact H|].
  rewrite H. generalize (discovered_lines text). intros l.
  induction l as [|a l IH]; [simpl; lia|].
  change (omap (fun line => parse_part (Str.strip line)) (a :: l))
    with (match parse_part (Str.strip a) with
          | Some y => y :: omap (fun line => parse_part (Str.strip line)) l
          | None => omap (fun line => parse_part (Str.strip line)) l
          end).
  destruct (parse_part (Str.strip a)); simpl List.length; lia.
Qed.

Lemma unit_forms_lower w :
  In w unit_forms -> w <> "" /\ Str.lower w = w.
Proof.
  cbv [In unit_forms]. intros H.
  repeat (destruct H as [<- | H]; [split; [discriminate | reflexivity]|]).
  contradiction.
Qed.

(** X3. Every record the extractor emits has a name in lower case, with
    no hyphen, no comma and no whitespace at its ends, a unit that is not
    empty and in lower case, and a quantity that is not zero. *)
Theorem emitted_record_normalized text r :
  In r (extract_ingredients text) ->
  Str.strip (ingredient r) = ingredient r
  /\ Str.lower (ingredient r) = ingredient r
  /\ Str.contains "-" (ingredient r) = false
  /\ Str.contains "," (ingredient r) = false
  /\ unit_ r <> ""
  /\ Str.lower (unit_ r) = unit_ r
  /\ Float.is_zero (quantity r) = false.
Proof.
  intros H. pose proof (ingredient_no_comma text r H) as Hc.
  apply extract_ingredients_In in H as (line & part & _ & _ & H).
  apply parse_part_record in H as
    (qty & unit & rest & _ & Hi & _ & Hu & _ & Hq & _).
  destruct (normalized_name rest) as (H1 & H2 & H3). rewrite <- Hi in *.
  destruct (unit_forms_lower _ Hu) as [Hu1 Hu2].
  repeat split; try assumption.
  - apply contains_char_false. eapply all_impl; [|exact Hc].
    intros a Ha. unfold not_comma, Chr.eqb in *. rewrite N.eqb_sym. exact Ha.
  - unfold Float.is_zero. rewrite Hq. reflexivity.
Qed.

Lemma emitted_record_normalized_witness :
  Str.strip "brown sugar" = "brown sugar"
  /\ Str.lower "brown sugar" = "brown sugar"
  /\ Str.contains "-" "brown sugar" = false
  /\ Str.contains "," "brown sugar" = false
  /\ "tbsp" <> ""
  /\ Str.lower "tbsp" = "tbsp"
  /\ Float.is_zero (Float.of_Q 2) = false.
Proof.
  apply (emitted_record_normalized "- 2 TBSPs Brown-Sugar"
           {| ingredient := "brown sugar"; quantity := Float.of_Q 2;
              unit_ := "tbsp" |}).
  vm_compute. left. reflexivity.
Defined.

Lemma contains_char_all c s :
  Str.contains (String c "") s = false ->
  Str.all (fun a => negb (Chr.eqb c a)) s = true.
Proof.
  induction s as [|a s IH]; [reflexivity|]. simpl.
  rewrite andb_true_r. intros H. apply orb_false_iff in H as [Ha Hs].
  rewrite Ha, (IH Hs). reflexivity.
Qed.

Lemma line_re_needs_hyphen p a s :
  Chr.eqb "-" a = false -> Re.match_at IGNORECASE line_re p (String a s) = None.
Proof.
  intros H.
  destruct (Re.match_at IGNORECASE line_re p (String a s)) as [[len g]|] eqn:E;
    [exfalso | reflexivity].
  unfold Re.match_at in E. rewrite line_re_unfold in E.
  apply rmatch_seq_sound in E as (p1 & s1 & g1 & Hm & _).
  inversion Hm as [|? ? ? ? ? Hc| | | | | | | | | |]; subst.
  revert H Hc. each_char a; vm_compute; intros H1 H2;
    first [discriminate H1 | discriminate H2].
Qed.

Lemma scan_no_hyphen s : forall p,
  Str.all (fun a => negb (Chr.eqb "-" a)) s = true ->
  Re.scan IGNORECASE line_re 0 p s = [].
Proof.
  induction s as [|a s IH]; intros p H; [reflexivity|]. simpl in H.
  apply andb_true_iff in H as [Ha Hs]. apply negb_true_iff in Ha.
  simpl. rewrite (line_re_needs_hyphen p a s Ha). apply IH. exact Hs.
Qed.

(** X4. A text without a hyphen, the empty text among them, yields no
    record: only a hyphen starts an ingredient line. *)
Theorem no_hyphen_no_record text :
  Str.contains "-" text = false -> extract_ingredients text = [].
Proof.
  intros H. apply contains_char_all in H.
  unfold extract_ingredients, discovered_lines, Re.finditer.
  rewrite scan_no_hyphen by exact H. reflexivity.
Qed.

Lemma no_hyphen_no_record_witness :
  extract_ingredients "2 cups flour, 1 tsp salt" = []
  /\ extract_ingredients "" = [].
Proof.
  split; apply no_hyphen_no_record; reflexivity.
Defined.

(** * Further properties of the quantity parser *)

Lemma isspace_cases c :
  Chr.isspace c = true ->
  In c ["009"; "010"; "011"; "012"; "013"; "028"; "029"; "030"; "031"; " ";
        "133"; "160"]%char.
Proof.
  each_char c; vm_compute; intros H; try discriminate H;
    repeat first [left; reflexivity | right].
Qed.

Lemma Fraction_of_str_blank_inside w c rest :
  Spec.digit_string w = true ->
  Chr.isspace c = true ->
  Str.strip (w ++ String c rest) = w ++ String c rest ->
  Num.Fraction_of_str (w ++ String c rest) = Raise ValueError.
Proof.
  intros Hw Hc Hstrip.
  destruct (digit_string_inv w Hw) as (Hwa & a & w' & Ew & Ha).
  rewrite Fraction_of_str_unfold, Hstrip.
  rewrite Ew at 1. rewrite app_cons, read_sign_digit by exact Ha.
  rewrite <- app_cons, <- Ew.
  apply isspace_cases in Hc. cbv [In] in Hc.
  rewrite span_number_digits; [|exact Hwa|].
  - rewrite Ew at 1.
    repeat (destruct Hc as [<- | Hc]; [reflexivity|]). contradiction.
  - intros b t E. inversion E; subst b t; clear E.
    repeat (destruct Hc as [<- | Hc]; [split; reflexivity|]). contradiction.
Qed.

(** X5. A mixed number whose two parts are separated by whitespace other
    than a space (a tab, a newline) is refused, although the quantity
    pattern of the extractor accepts any whitespace there: the parser only
    takes the mixed-number branch when the token holds a space. *)
Theorem mixed_number_needs_a_space w c n d :
  Spec.digit_string w = true -> Spec.digit_string n = true ->
  Spec.digit_string d = true ->
  Chr.isspace c = true -> Chr.eqb " " c = false ->
  parse_quantity (w ++ String c (n ++ "/" ++ d)) = None.
Proof.
  intros Hw Hn Hd Hc Hsp.
  destruct (digit_string_inv w Hw) as (Hwa & a & w' & Ew & Ha).
  destruct (digit_string_inv n Hn) as (Hna & _).
  destruct (digit_string_inv d Hd) as (Hda & b & d' & Ed & _).
  unfold parse_quantity. rewrite parse_quantity_plain.
  - rewrite Fraction_of_str_blank_inside; [reflexivity | exact Hw | exact Hc |].
    rewrite Ew, app_cons.
    destruct (last_all Chr.isdecimal
                (Str.last (Some a) (w' ++ String c (n ++ "/"))) d Hda)
      as (z & Hz & Hzd); [rewrite Ed; reflexivity|].
    apply (strip_ends a _ z).
    + destruct (digit_facts a Ha) as (-> & _). reflexivity.
    + rewrite <- Hz. simpl. rewrite !last_app. simpl. rewrite !last_app.
      reflexivity.
    + destruct (digit_facts z Hzd) as (-> & _). reflexivity.
  - apply contains_char_false. rewrite all_app. simpl.
    rewrite !all_app. simpl. rewrite Hsp.
    rewrite (digits_no_blank w Hwa), (digits_no_blank n Hna),
      (digits_no_blank d Hda). reflexivity.
Qed.

Lemma mixed_number_needs_a_space_witness :
  parse_quantity ("1" ++ String "009" ("1" ++ "/" ++ "2")) = None.
Proof.
  apply mixed_number_needs_a_space; reflexivity.
Defined.

(** With a tab the extractor finds the line and drops it; with a space it
    keeps it. *)
Example tab_separated_mixed_number :
  extract_ingredients ("- 1" ++ String "009" "1/2 cups flour") = []
  /\ List.map quantity (extract_ingredients "- 1 1/2 cups flour")
     = [Float.of_Q (3 # 2)].
Proof. vm_compute. split; reflexivity. Qed.

(** * Further properties of the validator *)

Lemma cleanup_item_object item item' :
  cleanup_item item = Ok item' ->
  exists fields fields', item = JObj fields /\ item' = JObj fields'.
Proof.
  destruct item as [| | | | |items|fields]; try discriminate.
  rewrite cleanup_item_dict. cbv zeta.
  set (kept := delete "state" (delete "notes" fields)). intros H.
  destruct (_ && _).
  - destruct (PyObj.getitem (JObj kept) "ingredient") as [name|];
      simpl in H; [|discriminate].
    destruct (PyObj.contains "flour" name) as [[]|]; simpl in H;
      try discriminate; unfold PyObj.delitem in H.
    + destruct (kept !! "ml"); [|discriminate]. inversion H. eauto.
    + destruct (kept !! "grams"); [|discriminate]. inversion H. eauto.
  - inversion H. eauto.
Qed.

Lemma cleanup_item_cases (fields fields' : gmap string json) :
  cleanup_item (JObj fields) = Ok (JObj fields') ->
  let kept := delete "state" (delete "notes" fields) in
  fields' = kept
  \/ (fields' = delete "ml" kept /\ is_Some (kept !! "grams"))
  \/ (fields' = delete "grams" kept /\ is_Some (kept !! "ml")).
Proof.
  rewrite cleanup_item_dict. cbv zeta.
  set (kept := delete "state" (delete "notes" fields)). intros H.
  destruct (bool_decide (is_Some (kept !! "ml"))) eqn:Hml;
    [|simpl in H; inversion H; auto].
  destruct (bool_decide (is_Some (kept !! "grams"))) eqn:Hgr;
    [|simpl in H; inversion H; auto].
  apply bool_decide_eq_true in Hml, Hgr. simpl in H.
  destruct (kept !! "ingredient") as [name|]; simpl in H; [|discriminate].
  destruct (PyObj.contains "flour" name) as [[]|]; simpl in H;
    try discriminate.
  - destruct (kept !! "ml"); [|discriminate]. inversion H. auto.
  - destruct (kept !! "grams"); [|discriminate]. inversion H. auto.
Qed.

Lemma cleanup_item_cleaned item item' :
  cleanup_item item = Ok item' ->
  exists fields' : gmap string json,
    item' = JObj fields' /\ fields' !! "notes" = None
    /\ fields' !! "state" = None.
Proof.
  intros H. destruct (cleanup_item_object _ _ H) as (fields & fields' & -> & ->).
  exists fields'. split; [reflexivity|].
  apply cleanup_item_cases in H. cbv zeta in H.
  set (kept := delete "state" (delete "notes" fields)) in *.
  assert (Hn1 : kept !! "notes" = None).
  { unfold kept. rewrite lookup_delete_ne by discriminate.
    apply lookup_delete_eq. }
  assert (Hn2 : kept !! "state" = None) by apply lookup_delete_eq.
  destruct H as [-> | [[-> _] | [-> _]]];
    rewrite ?lookup_delete_ne by discriminate; auto.
Qed.

(** X6. The cleanup of an item only removes: "notes" and "state" are
    gone, every other field but "ml" and "grams" is as it was, no field is
    added or changed, and an item that had a measure still has one. An
    item that is not an object is never accepted. *)
Theorem cleanup_item_frame item item' :
  cleanup_item item = Ok item' ->
  exists fields fields' : gmap string json,
    item = JObj fields /\ item' = JObj fields'
    /\ fields' !! "notes" = None /\ fields' !! "state" = None
    /\ (forall k, k <> "notes" -> k <> "state" -> k <> "ml" -> k <> "grams" ->
          fields' !! k = fields !! k)
    /\ (forall k, fields' !! k = None \/ fields' !! k = fields !! k)
    /\ (is_Some (fields !! "ml") \/ is_Some (fields !! "grams") ->
        is_Some (fields' !! "ml") \/ is_Some (fields' !! "grams")).
Proof.
  intros H. destruct (cleanup_item_object _ _ H) as (fields & fields' & -> & ->).
  exists fields, fields'. split; [reflexivity|]. split; [reflexivity|].
  apply cleanup_item_cases in H. cbv zeta in H.
  set (kept := delete "state" (delete "notes" fields)) in *.
  assert (Hkept : forall k, kept !! k = None \/ kept !! k = fields !! k).
  { intros k. unfold kept. rewrite !lookup_delete. repeat case_decide; auto. }
  assert (Hfr : forall k, k <> "notes" -> k <> "state" ->
              kept !! k = fields !! k).
  { intros k H1 H2. unfold kept. rewrite !lookup_delete_ne by congruence.
    reflexivity. }
  assert (Hn1 : kept !! "notes" = None).
  { unfold kept. rewrite lookup_delete_ne by discriminate.
    apply lookup_delete_eq. }
  assert (Hn2 : kept !! "state" = None) by apply lookup_delete_eq.
  destruct H as [-> | [[-> Hgr] | [-> Hml]]].
  - repeat split; auto.
    rewrite !Hfr by discriminate. auto.
  - repeat split.
    + rewrite lookup_delete_ne by discriminate. exact Hn1.
    + rewrite lookup_delete_ne by discriminate. exact Hn2.
    + intros k ? ? ? ?. rewrite lookup_delete_ne by congruence. auto.
    + intros k. rewrite lookup_delete. case_decide; auto.
    + intros _. right. rewrite lookup_delete_ne by discriminate. exact Hgr.
  - repeat split.
    + rewrite lookup_delete_ne by discriminate. exact Hn1.
    + rewrite lookup_delete_ne by discriminate. exact Hn2.
    + intros k ? ? ? ?. rewrite lookup_delete_ne by congruence. auto.
    + intros k. rewrite lookup_delete. case_decide; auto.
    + intros _. left. rewrite lookup_delete_ne by discriminate. exact Hml.
Qed.

Lemma cleanup_item_frame_witness :
  exists fields fields' : gmap string json,
    JObj (<["ingredient" := JStr "milk"]>
          (<["ml" := JInt 240]> (<["notes" := JStr "cold"]> ∅)))
    = JObj fields
    /\ JObj (<["ingredient" := JStr "milk"]> (<["ml" := JInt 240]> ∅))
       = JObj fields'
    /\ fields' !! "notes" = None /\ fields' !! "state" = None
    /\ (forall k, k <> "notes" -> k <> "state" -> k <> "ml" -> k <> "grams" ->
          fields' !! k = fields !! k)
    /\ (forall k, fields' !! k = None \/ fields' !! k = fields !! k)
    /\ (is_Some (fields !! "ml") \/ is_Some (fields !! "grams") ->
        is_Some (fields' !! "ml") \/ is_Some (fields' !! "grams")).
Proof.
  apply cleanup_item_frame. vm_compute. reflexivity.
Defined.

Lemma py_mapM_raise {A B : Type} (f : A -> py B) l a e :
  In a l -> f a = Raise e -> exists e', py_mapM f l = Raise e'.
Proof.
  induction l as [|b l IH]; intros Hin Hf; [contradiction|]. simpl.
  destruct Hin as [-> | Hin].
  - rewrite Hf. simpl. eauto.
  - destruct (f b); simpl; [|eauto].
    destruct (IH Hin Hf) as (e' & ->). simpl. eauto.
Qed.

Lemma convert_body_results generate_content json_loads json_dumps ingredients
    text m fields results :
  generate_content (prompt json_dumps ingredients) = Ok text ->
  Re.search DOTALL braces_re text = Some m ->
  json_loads (Re.whole m) = Ok (JObj fields) ->
  fields !! "results" = Some results ->
  convert_body generate_content json_loads json_dumps ingredients
  = cleanup_results results.
Proof.
  intros H1 H2 H3 H4. unfold convert_body. rewrite H1. simpl. rewrite H2.
  simpl. rewrite H3. simpl. rewrite H4. reflexivity.
Qed.

(** X7. The conversion is all or nothing: one item of the result list
    that the cleanup refuses (an item that is not an object, or an item
    with both measures and no usable name) makes the whole stage return
    [None], whatever the other items are. *)
Theorem one_bad_item_fails_all generate_content json_loads json_dumps
    ingredients text m fields items item e :
  generate_content (prompt json_dumps ingredients) = Ok text ->
  Re.search DOTALL braces_re text = Some m ->
  json_loads (Re.whole m) = Ok (JObj fields) ->
  fields !! "results" = Some (JArr items) ->
  In item items ->
  cleanup_item item = Raise e ->
  convert_with_gemini generate_content json_loads json_dumps ingredients = None.
Proof.
  intros H1 H2 H3 H4 Hin He. unfold convert_with_gemini.
  rewrite (convert_body_results _ _ _ _ _ _ _ _ H1 H2 H3 H4).
  unfold cleanup_results. simpl.
  destruct (py_mapM_raise cleanup_item items item e Hin He) as (e' & ->).
  reflexivity.
Qed.

Lemma one_bad_item_fails_all_witness :
  convert_with_gemini
    (fun _ => Ok "{}")
    (fun _ => Ok (JObj {[ "results" :=
                          JArr [JObj {[ "ingredient" := JStr "flour" ]};
                                JStr "n/a"] ]}))
    (fun _ => "[]") []
  = None.
Proof.
  eapply (one_bad_item_fails_all _ _ _ _ "{}" _ _ _ (JStr "n/a") AttributeError).
  - reflexivity.
  - vm_compute. reflexivity.
  - reflexivity.
  - vm_compute. reflexivity.
  - right. left. reflexivity.
  - reflexivity.
Defined.

(** X8. Every item of a value the conversion returns is an object
    without the fields "notes" and "state". *)
Theorem returned_items_are_clean generate_content json_loads json_dumps
    ingredients v :
  convert_with_gemini generate_content json_loads json_dumps ingredients
    = Some v ->
  exists items,
    PyObj.iter v = Ok items
    /\ Forall (fun it => exists fields : gmap string json,
                 it = JObj fields /\ fields !! "notes" = None
                 /\ fields !! "state" = None) items.
Proof.
  unfold convert_with_gemini. intros H.
  destruct (convert_body _ _ _ _) as [v'|e] eqn:E; [|discriminate].
  inversion H; subst; clear H. unfold convert_body in E.
  destruct (generate_content _) as [text|e]; [|discriminate]. simpl in E.
  destruct (Re.search DOTALL braces_re text); [|discriminate]. simpl in E.
  destruct (json_loads _) as [result|e]; [|discriminate]. simpl in E.
  destruct (PyObj.getitem result "results") as [results|e]; [|discriminate].
  simpl in E. unfold cleanup_results in E.
  destruct (PyObj.iter results) as [items|e] eqn:Eit; [|discriminate].
  simpl in E. destruct (py_mapM cleanup_item items) as [items'|e] eqn:Em;
    [|discriminate]. simpl in E. inversion E; subst; clear E.
  apply py_mapM_Forall2 in Em.
  assert (Hclean : Forall (fun it => exists fields : gmap string json,
                     it = JObj fields /\ fields !! "notes" = None
                     /\ fields !! "state" = None) items').
  { clear -Em. induction Em as [|a b l l' Hab _ IH]; constructor; [|exact IH].
    apply cleanup_item_cleaned in Hab as (f' & -> & Hn & Hs). eauto. }
  assert (Hstr : forall l : list json,
            Forall2 (fun a b => cleanup_item a = Ok b) l items' ->
            Forall (fun a => exists s, a = JStr s) l -> l = []).
  { intros l HF Hs. destruct HF as [|a b l l' Hab _]; [reflexivity|].
    inversion Hs as [|? ? [s ->] _]; subst. discriminate Hab. }
  destruct results as [| | | | s | l | fields]; try discriminate;
    simpl in Eit; inversion Eit; subst; clear Eit.
  - eexists. split; [reflexivity|].
    assert (Hnil : List.map (fun a => JStr (String a ""))
                     (list_ascii_of_string s) = []).
    { apply Hstr; [exact Em|]. apply Forall_forall. intros it Hin.
      apply list_elem_of_In, in_map_iff in Hin as (a & <- & _). eauto. }
    rewrite Hnil. constructor.
  - exists items'. split; [reflexivity | exact Hclean].
  - eexists. split; [reflexivity|].
    assert (Hnil : List.map (fun kv : string * json => JStr kv.1)
                     (map_to_list fields) = []).
    { apply Hstr; [exact Em|]. apply Forall_forall. intros it Hin.
      apply list_elem_of_In, in_map_iff in Hin as (a & <- & _). eauto. }
    rewrite Hnil. constructor.
Qed.

Lemma returned_items_are_clean_witness :
  exists items,
    PyObj.iter
      (JArr [JObj (<["ingredient" := JStr "flour"]>
                   (<["grams" := JInt 125]> ∅))])
    = Ok items
    /\ Forall (fun it => exists fields : gmap string json,
                 it = JObj fields /\ fields !! "notes" = None
                 /\ fields !! "state" = None) items.
Proof.
  apply (returned_items_are_clean
           (fun _ => Ok "{}")
           (fun _ => Ok (JObj {[ "results" :=
                JArr [JObj (<["ingredient" := JStr "flour"]>
                            (<["grams" := JInt 125]>
                             (<["ml" := JInt 296]>
                              (<["notes" := JStr "sifted"]> ∅))))] ]}))
           (fun _ => "[]") []).
  vm_compute. reflexivity.
Defined.

(** * The JSON span of the model's answer *)

Lemma braces_re_unfold :
  braces_re = Re.Seq (Re.chr "{") (Re.Seq (Re.Star true dot) (Re.chr "}")).
Proof. reflexivity. Qed.

Lemma star_loop_greedy (R : Type) body (k : Re.cont R) n p s g :
  Re.star_loop true body k n p s g
  = match
      match n with
      | O => None
      | S n' =>
          body p s g
            (fun p' s' g' =>
               if (String.length s' <? String.length s)%nat
               then Re.star_loop true body k n' p' s' g' else None)
      end
    with
    | Some x => Some x
    | None => k p s g
    end.
Proof. destruct n; reflexivity. Qed.

Lemma rmatch_cls_cons fl (R : Type) items p a s g (k : Re.cont R) :
  Re.rmatch fl (Re.Cls items) p (String a s) g k
  = if Re.cls_match fl items a then k (Some a) s g else None.
Proof. reflexivity. Qed.

Lemma rmatch_cls_nil fl (R : Type) items p g (k : Re.cont R) :
  Re.rmatch fl (Re.Cls items) p "" g k = None.
Proof. reflexivity. Qed.

Lemma ltb_tail a s : (String.length s <? String.length (String a s))%nat = true.
Proof. apply Nat.ltb_lt. simpl. lia. Qed.

(** A greedy repetition fails when its continuation fails at every cursor
    ahead. *)
Lemma greedy_star_none fl (R : Type) items (k : Re.cont R) g :
  forall n s p,
    (forall u v, s = u ++ v -> k (Str.last p u) v g = None) ->
    Re.star_loop true
      (fun p' s' g' k' => Re.rmatch fl (Re.Cls items) p' s' g' k') k n p s g
    = None.
Proof.
  induction n as [|n IH]; intros s p H; rewrite star_loop_greedy.
  - apply (H "" s). reflexivity.
  - cbv beta. destruct s as [|a s].
    + rewrite rmatch_cls_nil. apply (H "" ""). reflexivity.
    + rewrite rmatch_cls_cons, ltb_tail.
      rewrite IH by (intros u v ->; apply (H (String a u) v); reflexivity).
      destruct (Re.cls_match fl items a); apply (H "" (String a s)); reflexivity.
Qed.

(** A greedy repetition goes as far as the last cursor its continuation
    accepts. *)
Lemma greedy_star_last fl (R : Type) items (k : Re.cont R) g s' x :
  forall t n p,
    Str.all (Re.cls_match fl items) t = true ->
    (String.length (t ++ s') <= n)%nat ->
    k (Str.last p t) s' g = Some x ->
    (forall u v, s' = u ++ v -> u <> "" ->
       k (Str.last p (t ++ u)) v g = None) ->
    Re.star_loop true
      (fun p' s' g' k' => Re.rmatch fl (Re.Cls items) p' s' g' k') k n p
      (t ++ s') g
    = Some x.
Proof.
  induction t as [|a t IH]; intros n p Hall Hn Hk Hlater;
    rewrite star_loop_greedy.
  - rewrite app_nil_l in *. simpl in Hk.
    destruct n as [|n]; [exact Hk|]. cbv beta.
    destruct s' as [|b s1]; [rewrite rmatch_cls_nil; exact Hk|].
    rewrite rmatch_cls_cons, ltb_tail.
    rewrite greedy_star_none
      by (intros u v ->; apply (Hlater (String b u) v);
          [reflexivity | discriminate]).
    destruct (Re.cls_match fl items b); exact Hk.
  - simpl in Hall. apply andb_true_iff in Hall as [Ha Ht].
    rewrite app_cons in *. simpl in Hn.
    destruct n as [|n]; [lia|]. cbv beta.
    rewrite rmatch_cls_cons, Ha, ltb_tail.
    rewrite (IH n (Some a)); [reflexivity | exact Ht | lia | exact Hk |].
    intros u v Hs Hu. apply (Hlater u v Hs Hu).
Qed.

Lemma all_true_chars (q : ascii -> bool) s :
  (forall a, q a = true) -> Str.all q s = true.
Proof.
  intros H. induction s as [|a s IH]; [reflexivity|]. simpl.
  rewrite H, IH. reflexivity.
Qed.

Lemma braces_need_open p a s :
  Chr.eqb "{" a = false -> Re.match_here DOTALL braces_re p (String a s) = None.
Proof.
  intros H. unfold Re.match_here, Re.match_at. rewrite braces_re_unfold.
  simpl. unfold Re.cls_match. simpl. unfold Chr.eqb in *.
  rewrite N.eqb_sym, H. reflexivity.
Qed.

Lemma search_from_skip fl r (q : ascii -> bool) :
  (forall p a s, q a = true -> Re.match_here fl r p (String a s) = None) ->
  forall pre p s,
    Str.all q pre = true ->
    Re.search_from fl r p (pre ++ s) = Re.search_from fl r (Str.last p pre) s.
Proof.
  intros Hq. induction pre as [|a pre IH]; intros p s H; [reflexivity|].
  simpl in H. apply andb_true_iff in H as [Ha Hp]. rewrite app_cons. simpl.
  rewrite (Hq p a _ Ha). apply IH. exact Hp.
Qed.

Lemma rmatch_seq_unfold fl r1 r2 (R : Type) p s g (k : Re.cont R) :
  Re.rmatch fl (Re.Seq r1 r2) p s g k
  = Re.rmatch fl r1 p s g (fun p1 s1 g1 => Re.rmatch fl r2 p1 s1 g1 k).
Proof. reflexivity. Qed.

Lemma take_prefix t s :
  Str.take (String.length (t ++ s) - String.length s) (t ++ s) = t.
Proof.
  rewrite length_app.
  replace (String.length t + String.length s - String.length s)%nat
    with (String.length t) by lia.
  apply take_app.
Qed.

Lemma close_brace_only (R : Type) p c v g (k : Re.cont R) :
  Chr.eqb "}" c = false ->
  Re.rmatch DOTALL (Re.chr "}") p (String c v) g k = None.
Proof.
  intros H. unfold Re.chr. rewrite rmatch_cls_cons.
  unfold Re.cls_match. cbn [existsb]. unfold Re.citem_match.
  cbn [Re.ignorecase DOTALL]. unfold Chr.eqb in *.
  rewrite N.eqb_sym, H. reflexivity.
Qed.

Lemma braces_match p mid post :
  Str.all (fun a => negb (Chr.eqb "}" a)) post = true ->
  Re.match_here DOTALL braces_re p ("{" ++ mid ++ "}" ++ post)
  = Some {| Re.whole := "{" ++ mid ++ "}"; Re.groups := [] |}.
Proof.
  intros Hpost.
  assert (Hat : Re.match_at DOTALL braces_re p ("{" ++ mid ++ "}" ++ post)
                = Some ((String.length ("{" ++ mid ++ "}" ++ post)
                         - String.length post)%nat, [])).
  { unfold Re.match_at. rewrite braces_re_unfold.
    change ("{" ++ mid ++ "}" ++ post) with (String "{" (mid ++ "}" ++ post)).
    rewrite rmatch_seq_unfold. unfold Re.chr at 1. rewrite rmatch_cls_cons.
    change (Re.cls_match DOTALL [Re.CLit "{"] "{") with true. cbv iota beta.
    rewrite rmatch_seq_unfold, rmatch_star_unfold. unfold dot.
    apply greedy_star_last.
    - apply all_true_chars. intros a. reflexivity.
    - apply Nat.le_refl.
    - change ("}" ++ post) with (String "}" post). unfold Re.chr.
      rewrite rmatch_cls_cons. reflexivity.
    - intros u v Hs Hu. destruct u as [|b u]; [contradiction Hu; reflexivity|].
      change ("}" ++ post) with (String "}" post) in Hs.
      rewrite app_cons in Hs. injection Hs as _ Hp. subst post.
      rewrite all_app in Hpost. apply andb_true_iff in Hpost as [_ Hv].
      destruct v as [|c v]; [reflexivity|]. simpl in Hv.
      apply andb_true_iff in Hv as [Hc _]. apply negb_true_iff in Hc.
      apply close_brace_only. exact Hc. }
  unfold Re.match_here. rewrite Hat. do 2 f_equal.
  replace ("{" ++ mid ++ "}" ++ post) with (("{" ++ mid ++ "}") ++ post)
    by (rewrite <- !app_assoc; reflexivity).
  apply take_prefix.
Qed.

Lemma braces_search pre mid post :
  Str.contains "{" pre = false ->
  Str.contains "}" post = false ->
  exists m,
    Re.search DOTALL braces_re (pre ++ "{" ++ mid ++ "}" ++ post) = Some m
    /\ Re.whole m = "{" ++ mid ++ "}".
Proof.
  intros Hpre Hpost. apply contains_char_all in Hpre, Hpost.
  exists {| Re.whole := "{" ++ mid ++ "}"; Re.groups := [] |}.
  split; [|reflexivity]. unfold Re.search.
  rewrite (search_from_skip DOTALL braces_re
             (fun a => negb (Chr.eqb "{" a)))
    by first [ exact Hpre
             | intros p0 a s Ha; apply braces_need_open;
               apply negb_true_iff; exact Ha ].
  change ("{" ++ mid ++ "}" ++ post) with (String "{" (mid ++ "}" ++ post)).
  cbn [Re.search_from].
  change (String "{" (mid ++ "}" ++ post)) with ("{" ++ mid ++ "}" ++ post).
  rewrite braces_match by exact Hpost. reflexivity.
Qed.

Lemma braces_need_close text :
  Str.contains "}" text = false -> Re.search DOTALL braces_re text = None.
Proof.
  intros H. apply contains_char_all in H.
  destruct (Re.search DOTALL braces_re text) as [m|] eqn:E; [|reflexivity].
  exfalso. unfold Re.search in E.
  apply search_from_sound in E as (pre & suf & -> & E).
  apply match_here_sound in E as (p' & s' & t & Hm & _).
  rewrite braces_re_unfold in Hm.
  apply matches_seq_inv in Hm as (p0 & s0 & g0 & H0 & Hm).
  apply matches_seq_inv in Hm as (p1 & s1 & g1 & H1 & Hm).
  apply matches_consumes in H0 as (t0 & -> & _).
  apply matches_consumes in H1 as (t1 & -> & _).
  unfold Re.chr in Hm. inversion Hm; subst.
  rewrite !all_app in H. simpl in H.
  match goal with Hc : Re.cls_match _ _ ?a = true |- _ =>
    unfold Re.cls_match in Hc; simpl in Hc; rewrite orb_false_r in Hc;
    unfold Chr.eqb in *; rewrite N.eqb_sym in Hc; rewrite Hc in H
  end.
  simpl in H. rewrite !andb_false_r in H. discriminate H.
Qed.

Lemma braces_need_an_open text :
  Str.contains "{" text = false -> Re.search DOTALL braces_re text = None.
Proof.
  intros H. apply contains_char_all in H. unfold Re.search.
  rewrite <- (app_nil_r text).
  rewrite (search_from_skip DOTALL braces_re
             (fun a => negb (Chr.eqb "{" a)))
    by first [ exact H
             | intros p0 a s Ha; apply braces_need_open;
               apply negb_true_iff; exact Ha ].
  reflexivity.
Qed.

(** X9. The text handed to [json.loads] runs from the first opening brace
    of the model's answer to its last closing brace, whatever stands
    before, between and after them. *)
Theorem json_span_first_to_last generate_content json_loads json_dumps
    ingredients pre mid post :
  generate_content (prompt json_dumps ingredients)
    = Ok (pre ++ "{" ++ mid ++ "}" ++ post) ->
  Str.contains "{" pre = false ->
  Str.contains "}" post = false ->
  convert_body generate_content json_loads json_dumps ingredients
  = (result ← json_loads ("{" ++ mid ++ "}");
     results ← PyObj.getitem result "results";
     cleanup_results results).
Proof.
  intros Hgen Hpre Hpost. unfold convert_body. rewrite Hgen.
  destruct (braces_search pre mid post Hpre Hpost) as (m & Hs & Hw).
  simpl. rewrite Hs. simpl. rewrite Hw. reflexivity.
Qed.

Lemma json_span_first_to_last_witness :
  convert_body
    (fun _ => Ok ("ok " ++ "{" ++ "a} {b" ++ "}" ++ " end"))
    (fun s => if String.eqb s "{a} {b}"
              then Ok (JObj {[ "results" := JArr [] ]})
              else Raise ValueError)
    (fun _ => "[]") []
  = (result ← (fun s => if String.eqb s "{a} {b}"
                        then Ok (JObj {[ "results" := JArr [] ]})
                        else Raise ValueError) ("{" ++ "a} {b" ++ "}");
     results ← PyObj.getitem result "results";
     cleanup_results results).
Proof.
  apply (json_span_first_to_last _ _ _ [] "ok " "a} {b" " end");
    reflexivity.
Defined.

(** X10. An answer of the model without an opening brace, or without a
    closing brace, makes the conversion stage return [None]: the search
    finds nothing and [json.loads] is never called. *)
Theorem answer_without_braces generate_content json_loads json_dumps
    ingredients text :
  generate_content (prompt json_dumps ingredients) = Ok text ->
  Str.contains "{" text = false \/ Str.contains "}" text = false ->
  convert_body generate_content json_loads json_dumps ingredients
    = Raise AttributeError
  /\ convert_with_gemini generate_content json_loads json_dumps ingredients
     = None.
Proof.
  intros Hgen H.
  assert (Hs : Re.search DOTALL braces_re text = None)
    by (destruct H as [H | H];
        [apply braces_need_an_open | apply braces_need_close]; exact H).
  assert (Hb : convert_body generate_content json_loads json_dumps ingredients
               = Raise AttributeError).
  { unfold convert_body. rewrite Hgen. simpl. rewrite Hs. reflexivity. }
  split; [exact Hb|]. unfold convert_with_gemini. rewrite Hb. reflexivity.
Qed.

Lemma answer_without_braces_witness :
  convert_body (fun _ => Ok "I cannot convert this }.")
    (fun _ => Ok JNull) (fun _ => "[]") []
    = Raise AttributeError
  /\ convert_with_gemini (fun _ => Ok "I cannot convert this }.")
       (fun _ => Ok JNull) (fun _ => "[]") []
     = None.
Proof.
  apply (answer_without_braces _ _ _ [] "I cannot convert this }.").
  - reflexivity.
  - left. reflexivity.
Defined.

(** * The answer of [POST /convert-recipe] *)

(** X11. [POST /convert-recipe] returns a body exactly when the
    extraction found a record and the conversion stage returned a truthy
    value; the body then holds the status "success", the extracted records
    and the conversions. In every other case it raises an HTTP error 500,
    never another status; a conversion that returned [None] or an empty
    list is such a case. *)
Theorem convert_recipe_outcome generate_content json_loads json_dumps exn_str
    text :
  let ingredients := extract_ingredients text in
  let result := convert_with_gemini generate_content json_loads json_dumps
                  ingredients in
  match convert_recipe generate_content json_loads json_dumps exn_str text with
  | Ok body =>
      ingredients <> []
      /\ PyObj.truthy (json_of_option result) = true
      /\ body = JObj (<["status" := JStr "success"]>
                      (<["ingredients" :=
                           JArr (List.map json_of_record ingredients)]>
                       (<["conversions" := json_of_option result]> ∅)))
  | Raise e =>
      (exists detail, e = HTTPException 500 detail)
      /\ (ingredients = [] \/ PyObj.truthy (json_of_option result) = false)
  end
  /\ (result = None \/ result = Some (JArr []) ->
      exists detail,
        convert_recipe generate_content json_loads json_dumps exn_str text
        = Raise (HTTPException 500 detail)).
Proof.
  cbv zeta. unfold convert_recipe, convert_recipe_body.
  destruct (extract_ingredients text) as [|i l] eqn:Hi; simpl.
  - split; [split; eauto|]. eauto.
  - destruct (PyObj.truthy (json_of_option (convert_with_gemini _ _ _ _)))
      eqn:Ht; simpl.
    + split; [repeat split; discriminate|].
      intros [E | E]; rewrite E in Ht; discriminate Ht.
    + split; [split; eauto|]. eauto.
Qed.

Lemma convert_recipe_outcome_witness :
  exists detail,
    convert_recipe
      (fun _ => Ok "{}")
      (fun _ => Ok (JObj {[ "results" := JArr [] ]}))
      (fun _ => "[]") (fun _ => "error") "- 2 cups flour"
    = Raise (HTTPException 500 detail).
Proof.
  apply (proj2 (convert_recipe_outcome
                  (fun _ => Ok "{}")
                  (fun _ => Ok (JObj {[ "results" := JArr [] ]}))
                  (fun _ => "[]") (fun _ => "error") "- 2 cups flour")).
  right. vm_compute. reflexivity.
Defined.
(** * A well-formed ingredient line *)

(** ** Runs of one character class *)

Lemma rmatch_group_unfold fl n r (R : Type) p s g (k : Re.cont R) :
  Re.rmatch fl (Re.Group n r) p s g k
  = Re.rmatch fl r p s g
      (fun p' s' g' =>
         k p' s' ((n, Str.take (String.length s - String.length s') s) :: g')).
Proof. reflexivity. Qed.

Lemma rmatch_alt_unfold fl r1 r2 (R : Type) p s g (k : Re.cont R) :
  Re.rmatch fl (Re.Alt r1 r2) p s g k
  = match Re.rmatch fl r1 p s g k with
    | Some x => Some x
    | None => Re.rmatch fl r2 p s g k
    end.
Proof. reflexivity. Qed.

Lemma star_loop_lazy (R : Type) body (k : Re.cont R) n p s g :
  Re.star_loop false body k n p s g
  = match k p s g with
    | Some x => Some x
    | None =>
        match n with
        | O => None
        | S n' =>
            body p s g
              (fun p' s' g' =>
                 if (String.length s' <? String.length s)%nat
                 then Re.star_loop false body k n' p' s' g' else None)
        end
    end.
Proof. destruct n; reflexivity. Qed.

(** A greedy repetition of a class takes the whole run when the
    continuation accepts the cursor after it. *)
Lemma greedy_run fl (R : Type) items (k : Re.cont R) g s' x :
  (forall a s1, s' = String a s1 -> Re.cls_match fl items a = false) ->
  forall t n p,
    Str.all (Re.cls_match fl items) t = true ->
    (String.length (t ++ s') <= n)%nat ->
    k (Str.last p t) s' g = Some x ->
    Re.star_loop true
      (fun p' s' g' k' => Re.rmatch fl (Re.Cls items) p' s' g' k') k n p
      (t ++ s') g
    = Some x.
Proof.
  intros Hout. induction t as [|a t IH]; intros n p Hall Hn Hk;
    rewrite star_loop_greedy.
  - rewrite app_nil_l in *. simpl in Hk. destruct n as [|n]; [exact Hk|].
    cbv beta. destruct s' as [|b s1]; [rewrite rmatch_cls_nil; exact Hk|].
    rewrite rmatch_cls_cons, (Hout b s1 eq_refl). exact Hk.
  - simpl in Hall. apply andb_true_iff in Hall as [Ha Ht].
    rewrite app_cons in *. simpl in Hn. destruct n as [|n]; [lia|]. cbv beta.
    rewrite rmatch_cls_cons, Ha, ltb_tail.
    rewrite (IH n (Some a)); [reflexivity | exact Ht | lia | exact Hk].
Qed.

(** It fails when the continuation refuses every cursor of the run. *)
Lemma greedy_run_none fl (R : Type) items (k : Re.cont R) g s' :
  (forall a s1, s' = String a s1 -> Re.cls_match fl items a = false) ->
  forall t n p,
    (forall u v, t = u ++ v -> k (Str.last p u) (v ++ s') g = None) ->
    Re.star_loop true
      (fun p' s' g' k' => Re.rmatch fl (Re.Cls items) p' s' g' k') k n p
      (t ++ s') g
    = None.
Proof.
  intros Hout. induction t as [|a t IH]; intros n p H;
    rewrite star_loop_greedy.
  - rewrite app_nil_l.
    assert (H0 : k p s' g = None) by exact (H "" "" eq_refl).
    destruct n as [|n]; [exact H0|]. cbv beta.
    destruct s' as [|b s1]; [rewrite rmatch_cls_nil; exact H0|].
    rewrite rmatch_cls_cons, (Hout b s1 eq_refl). exact H0.
  - rewrite app_cons.
    assert (H0 : k p (String a (t ++ s')) g = None)
      by exact (H "" (String a t) eq_refl).
    destruct n as [|n]; [exact H0|]. cbv beta.
    rewrite rmatch_cls_cons, ltb_tail.
    rewrite (IH n (Some a))
      by (intros u v ->; exact (H (String a u) v eq_refl)).
    destruct (Re.cls_match fl items a); exact H0.
Qed.

(** A lazy repetition of a class stops at the first cursor the
    continuation accepts. *)
Lemma lazy_run fl (R : Type) items (k : Re.cont R) g s' x :
  forall t n p,
    Str.all (Re.cls_match fl items) t = true ->
    (String.length (t ++ s') <= n)%nat ->
    (forall u v, t = u ++ v -> v <> "" ->
       k (Str.last p u) (v ++ s') g = None) ->
    k (Str.last p t) s' g = Some x ->
    Re.star_loop false
      (fun p' s' g' k' => Re.rmatch fl (Re.Cls items) p' s' g' k') k n p
      (t ++ s') g
    = Some x.
Proof.
  induction t as [|a t IH]; intros n p Hall Hn H Hk; rewrite star_loop_lazy.
  - rewrite app_nil_l. simpl in Hk. rewrite Hk. reflexivity.
  - rewrite app_cons in *.
    assert (H0 : k p (String a (t ++ s')) g = None)
      by (apply (H "" (String a t)); [reflexivity | discriminate]).
    rewrite H0. simpl in Hn. destruct n as [|n]; [lia|]. cbv beta.
    simpl in Hall. apply andb_true_iff in Hall as [Ha Ht].
    rewrite rmatch_cls_cons, Ha, ltb_tail.
    apply IH; [exact Ht | lia | | exact Hk].
    intros u v -> Hv. exact (H (String a u) v eq_refl Hv).
Qed.

Lemma star_run fl (R : Type) items (k : Re.cont R) g s' x t p :
  (forall a s1, s' = String a s1 -> Re.cls_match fl items a = false) ->
  Str.all (Re.cls_match fl items) t = true ->
  k (Str.last p t) s' g = Some x ->
  Re.rmatch fl (Re.Star true (Re.Cls items)) p (t ++ s') g k = Some x.
Proof.
  intros Hout Hall Hk. rewrite rmatch_star_unfold.
  apply greedy_run; [exact Hout | exact Hall | apply Nat.le_refl | exact Hk].
Qed.

Lemma plus_run fl (R : Type) items (k : Re.cont R) g s' x t p :
  (forall a s1, s' = String a s1 -> Re.cls_match fl items a = false) ->
  Str.all (Re.cls_match fl items) t = true ->
  t <> "" ->
  k (Str.last p t) s' g = Some x ->
  Re.rmatch fl (Re.Plus true (Re.Cls items)) p (t ++ s') g k = Some x.
Proof.
  intros Hout Hall Hne Hk. destruct t as [|a t]; [contradiction Hne; reflexivity|].
  simpl in Hall. apply andb_true_iff in Hall as [Ha Ht].
  unfold Re.Plus. rewrite rmatch_seq_unfold, app_cons, rmatch_cls_cons, Ha.
  apply star_run; [exact Hout | exact Ht | exact Hk].
Qed.

Lemma plus_run_none fl (R : Type) items (k : Re.cont R) g s' t p :
  (forall a s1, s' = String a s1 -> Re.cls_match fl items a = false) ->
  (forall u v, t = u ++ v -> u <> "" ->
     k (Str.last p u) (v ++ s') g = None) ->
  Re.rmatch fl (Re.Plus true (Re.Cls items)) p (t ++ s') g k = None.
Proof.
  intros Hout H. unfold Re.Plus. rewrite rmatch_seq_unfold.
  destruct t as [|a t].
  - rewrite app_nil_l. destruct s' as [|b s1]; [reflexivity|].
    rewrite rmatch_cls_cons, (Hout b s1 eq_refl). reflexivity.
  - rewrite app_cons, rmatch_cls_cons.
    destruct (Re.cls_match fl items a); [|reflexivity].
    rewrite rmatch_star_unfold. apply greedy_run_none; [exact Hout|].
    intros u v ->. apply (H (String a u) v); [reflexivity | discriminate].
Qed.

Lemma cls_head_none fl (R : Type) items r p a s g (k : Re.cont R) :
  Re.cls_match fl items a = false ->
  Re.rmatch fl (Re.Seq (Re.Cls items) r) p (String a s) g k = None.
Proof.
  intros H. rewrite rmatch_seq_unfold, rmatch_cls_cons, H. reflexivity.
Qed.

Lemma cls_head fl (R : Type) items r p a s g (k : Re.cont R) :
  Re.cls_match fl items a = true ->
  Re.rmatch fl (Re.Seq (Re.Cls items) r) p (String a s) g k
  = Re.rmatch fl r (Some a) s g k.
Proof.
  intros H. rewrite rmatch_seq_unfold, rmatch_cls_cons, H. reflexivity.
Qed.

(** ** The classes of the patterns *)

Lemma digit_cls fl a : Re.cls_match fl [Re.CDigit] a = Chr.isdecimal a.
Proof. unfold Re.cls_match. simpl. apply orb_false_r. Qed.

Lemma space_cls fl a : Re.cls_match fl [Re.CSpace] a = Chr.isspace a.
Proof. unfold Re.cls_match. simpl. apply orb_false_r. Qed.

Lemma dot_cls a :
  Re.cls_match IGNORECASE [Re.CDot] a = negb (Chr.eqb a Chr.newline).
Proof. unfold Re.cls_match. simpl. apply orb_false_r. Qed.

Lemma letter_cls a :
  Chr.is_ascii_letter a = true ->
  Re.cls_match IGNORECASE [Re.CRange "a" "z"; Re.CRange "A" "Z"] a = true.
Proof. each_char a; vm_compute; intros H; first [reflexivity | discriminate H]. Qed.

Lemma letter_cls_space a :
  Chr.isspace a = true ->
  Re.cls_match IGNORECASE [Re.CRange "a" "z"; Re.CRange "A" "Z"] a = false.
Proof. each_char a; vm_compute; intros H; first [reflexivity | discriminate H]. Qed.

Lemma digit_not_slash a :
  Chr.isdecimal a = true -> Re.cls_match IGNORECASE [Re.CLit "/"] a = false.
Proof. each_char a; vm_compute; intros H; first [reflexivity | discriminate H]. Qed.

Lemma digit_not_point a :
  Chr.isdecimal a = true -> Re.cls_match IGNORECASE [Re.CLit "."] a = false.
Proof. each_char a; vm_compute; intros H; first [reflexivity | discriminate H]. Qed.

Lemma letter_not_digit a :
  Chr.is_ascii_letter a = true -> Chr.isdecimal a = false.
Proof. each_char a; vm_compute; intros H; first [reflexivity | discriminate H]. Qed.

Lemma letter_not_space a :
  Chr.is_ascii_letter a = true -> Chr.isspace a = false.
Proof. each_char a; vm_compute; intros H; first [reflexivity | discriminate H]. Qed.

(** ** The quantity pattern on a well-formed token *)

Lemma quantity_re_unfold :
  quantity_re
  = Re.Alt (Re.Seq digits (Re.Seq (Re.chr "/") digits))
      (Re.Alt (Re.Seq digits (Re.Seq (Re.chr ".") digits))
         (Re.Alt
            (Re.Seq digits
               (Re.Seq space (Re.Seq digits (Re.Seq (Re.chr "/") digits))))
            digits)).
Proof. reflexivity. Qed.

Lemma digits_ok (R : Type) (k : Re.cont R) g d s' p x :
  Spec.digit_string d = true ->
  (forall a s1, s' = String a s1 -> Chr.isdecimal a = false) ->
  k (Str.last p d) s' g = Some x ->
  Re.rmatch IGNORECASE digits p (d ++ s') g k = Some x.
Proof.
  intros Hd Hout Hk.
  destruct (digit_string_inv d Hd) as (Hall & a & d' & E & _).
  unfold digits. apply plus_run.
  - intros b s1 E1. rewrite digit_cls. eauto.
  - eapply all_impl; [|exact Hall]. intros b Hb. rewrite digit_cls. exact Hb.
  - rewrite E. discriminate.
  - exact Hk.
Qed.

Lemma digits_then (R : Type) (k : Re.cont R) g d s' p r x :
  Spec.digit_string d = true ->
  (forall a s1, s' = String a s1 -> Chr.isdecimal a = false) ->
  Re.rmatch IGNORECASE r (Str.last p d) s' g k = Some x ->
  Re.rmatch IGNORECASE (Re.Seq digits r) p (d ++ s') g k = Some x.
Proof.
  intros Hd Hout Hk. rewrite rmatch_seq_unfold.
  apply digits_ok; [exact Hd | exact Hout | exact Hk].
Qed.

Lemma digits_then_none (R : Type) (k : Re.cont R) g d s' p r :
  Str.all Chr.isdecimal d = true ->
  (forall a s1, s' = String a s1 -> Chr.isdecimal a = false) ->
  (forall p' a s1, Chr.isdecimal a = true ->
     Re.rmatch IGNORECASE r p' (String a s1) g k = None) ->
  Re.rmatch IGNORECASE r (Str.last p d) s' g k = None ->
  Re.rmatch IGNORECASE (Re.Seq digits r) p (d ++ s') g k = None.
Proof.
  intros Hall Hout Hdig Hend. rewrite rmatch_seq_unfold. unfold digits.
  apply plus_run_none.
  - intros b s1 E1. rewrite digit_cls. eauto.
  - intros u v E Hu. subst d. destruct v as [|b v].
    + rewrite app_nil_r in Hend. exact Hend.
    + rewrite all_app in Hall. apply andb_true_iff in Hall as [_ Hv].
      simpl in Hv. apply andb_true_iff in Hv as [Hb _].
      rewrite app_cons. apply Hdig. exact Hb.
Qed.

Ltac starts_with_char :=
  let E := fresh in
  intros ? ? E; injection E as <- _; reflexivity.

(** On a token of one of the four shapes, followed by a space and a
    character that is no digit, the quantity pattern hands the cursor
    after the whole token to its continuation. *)
Lemma quantity_token (R : Type) (k : Re.cont R) g t l rest p x :
  Spec.token_valid t = true ->
  Chr.isdecimal l = false ->
  k (Str.last p (Spec.token_text t)) (String " " (String l rest)) g = Some x ->
  Re.rmatch IGNORECASE quantity_re p
    (Spec.token_text t ++ String " " (String l rest)) g k
  = Some x.
Proof.
  intros Hv Hl Hk. set (tail := String " " (String l rest)) in *.
  assert (Hslash : forall r p' a s1, Chr.isdecimal a = true ->
            Re.rmatch IGNORECASE (Re.Seq (Re.chr "/") r) p' (String a s1) g k
            = None)
    by (intros; apply cls_head_none, digit_not_slash; assumption).
  assert (Hpoint : forall r p' a s1, Chr.isdecimal a = true ->
            Re.rmatch IGNORECASE (Re.Seq (Re.chr ".") r) p' (String a s1) g k
            = None)
    by (intros; apply cls_head_none, digit_not_point; assumption).
  assert (Hspace : forall r p' a s1, Chr.isdecimal a = true ->
            Re.rmatch IGNORECASE (Re.Seq space r) p' (String a s1) g k
            = None).
  { intros r p' a s1 Ha. apply cls_head_none. rewrite space_cls.
    exact (proj1 (digit_facts a Ha)). }
  rewrite quantity_re_unfold.
  destruct t as [d | i f | n d | w n d]; simpl in Hv; simpl Spec.token_text in *.
  - destruct (digit_string_inv d Hv) as (Hall & _).
    rewrite rmatch_alt_unfold, digits_then_none;
      [| exact Hall | unfold tail; starts_with_char | apply Hslash
       | apply cls_head_none; reflexivity].
    rewrite rmatch_alt_unfold, digits_then_none;
      [| exact Hall | unfold tail; starts_with_char | apply Hpoint
       | apply cls_head_none; reflexivity].
    rewrite rmatch_alt_unfold, digits_then_none;
      [| exact Hall | unfold tail; starts_with_char | apply Hspace |].
    + apply digits_ok; [exact Hv | unfold tail; starts_with_char | exact Hk].
    + unfold tail, space. rewrite cls_head by reflexivity.
      unfold digits, Re.Plus. rewrite rmatch_seq_unfold.
      apply cls_head_none. rewrite digit_cls. exact Hl.
  - apply andb_true_iff in Hv as [Hi Hf].
    destruct (digit_string_inv i Hi) as (Hall & _).
    replace ((i ++ "." ++ f) ++ tail) with (i ++ String "." (f ++ tail))
      by (rewrite app_assoc; reflexivity).
    rewrite rmatch_alt_unfold, digits_then_none;
      [| exact Hall | starts_with_char | apply Hslash
       | apply cls_head_none; reflexivity].
    rewrite rmatch_alt_unfold, (digits_then R k g i _ p _ x);
      [reflexivity | exact Hi | starts_with_char |].
    unfold Re.chr. rewrite cls_head by reflexivity.
    apply digits_ok; [exact Hf | unfold tail; starts_with_char |].
    rewrite !last_app in Hk. exact Hk.
  - apply andb_true_iff in Hv as [Hv _]. apply andb_true_iff in Hv as [Hn Hd].
    replace ((n ++ "/" ++ d) ++ tail) with (n ++ String "/" (d ++ tail))
      by (rewrite app_assoc; reflexivity).
    rewrite rmatch_alt_unfold, (digits_then R k g n _ p _ x);
      [reflexivity | exact Hn | starts_with_char |].
    unfold Re.chr. rewrite cls_head by reflexivity.
    apply digits_ok; [exact Hd | unfold tail; starts_with_char |].
    rewrite !last_app in Hk. exact Hk.
  - apply andb_true_iff in Hv as [Hv _]. apply andb_true_iff in Hv as [Hv Hd].
    apply andb_true_iff in Hv as [Hw Hn].
    destruct (digit_string_inv w Hw) as (Hall & _).
    replace ((w ++ " " ++ n ++ "/" ++ d) ++ tail)
      with (w ++ String " " (n ++ String "/" (d ++ tail)))
      by (rewrite !app_assoc; simpl; rewrite ?app_assoc; reflexivity).
    rewrite rmatch_alt_unfold, digits_then_none;
      [| exact Hall | starts_with_char | apply Hslash
       | apply cls_head_none; reflexivity].
    rewrite rmatch_alt_unfold, digits_then_none;
      [| exact Hall | starts_with_char | apply Hpoint
       | apply cls_head_none; reflexivity].
    rewrite rmatch_alt_unfold, (digits_then R k g w _ p _ x);
      [reflexivity | exact Hw | starts_with_char |].
    unfold space. rewrite cls_head by reflexivity.
    apply digits_then; [exact Hn | starts_with_char |].
    unfold Re.chr. rewrite cls_head by reflexivity.
    apply digits_ok; [exact Hd | unfold tail; starts_with_char |].
    rewrite !last_app in Hk. exact Hk.
Qed.

(** ** The part pattern on a well-formed part *)

Lemma rmatch_bol fl (R : Type) s g (k : Re.cont R) :
  Re.rmatch fl Re.Bol None s g k = k None s g.
Proof. reflexivity. Qed.

Lemma part_match t l u' a name' :
  Spec.token_valid t = true ->
  Str.all Chr.is_ascii_letter (String l u') = true ->
  Chr.isspace a = false ->
  Str.contains nl (String a name') = false ->
  Re.match_at IGNORECASE part_re None
    (Spec.token_text t ++ " " ++ String l u' ++ " " ++ String a name')
  = Some (String.length
            (Spec.token_text t ++ " " ++ String l u' ++ " " ++ String a name'),
          [(3, String a name'); (2, String l u'); (1, Spec.token_text t)]).
Proof.
  intros Hv Hu Ha Hnl.
  assert (Hl : Chr.is_ascii_letter l = true)
    by (simpl in Hu; apply andb_true_iff in Hu; tauto).
  set (q := Spec.token_text t). set (u := String l u') in *.
  set (name := String a name') in *.
  unfold Re.match_at. rewrite part_re_unfold, rmatch_seq_unfold, rmatch_bol.
  rewrite rmatch_seq_unfold, rmatch_group_unfold.
  change (q ++ " " ++ u ++ " " ++ name)
    with (q ++ String " " (String l (u' ++ " " ++ name))).
  apply quantity_token; [exact Hv | apply letter_not_digit, Hl |].
  rewrite take_prefix.
  set (S := q ++ String " " (String l (u' ++ " " ++ name))).
  rewrite rmatch_seq_unfold. unfold space.
  change (String " " (String l (u' ++ " " ++ name)))
    with (" " ++ String l (u' ++ " " ++ name)).
  apply star_run;
    [ intros b s1 E; injection E as <- _; rewrite space_cls;
      apply letter_not_space, Hl
    | reflexivity |].
  rewrite rmatch_seq_unfold, rmatch_group_unfold.
  change (String l (u' ++ " " ++ name)) with (u ++ String " " name).
  unfold letters. apply plus_run;
    [ intros b s1 E; injection E as <- _; reflexivity
    | eapply all_impl; [|exact Hu]; intros b Hb; apply letter_cls, Hb
    | discriminate |].
  rewrite take_prefix, rmatch_seq_unfold.
  change (String " " name) with (" " ++ name).
  apply star_run;
    [ intros b s1 E; injection E as <- _; rewrite space_cls; exact Ha
    | reflexivity |].
  rewrite rmatch_group_unfold. unfold dot.
  rewrite <- (app_nil_r name).
  apply star_run; [intros b s1 E; discriminate E | |].
  - apply contains_char_all in Hnl. eapply all_impl; [|exact Hnl].
    intros b Hb. rewrite dot_cls. unfold Chr.eqb in *.
    rewrite N.eqb_sym. exact Hb.
  - rewrite take_prefix, !app_nil_r. simpl String.length.
    rewrite Nat.sub_0_r. reflexivity.
Qed.

Lemma part_groups_canonical t l u' a name' :
  Spec.token_valid t = true ->
  Str.all Chr.is_ascii_letter (String l u') = true ->
  Chr.isspace a = false ->
  Str.contains nl (String a name') = false ->
  part_groups
    (Spec.token_text t ++ " " ++ String l u' ++ " " ++ String a name')
  = Some (Spec.token_text t, String l u', String a name').
Proof.
  intros Hv Hu Ha Hnl. unfold part_groups.
  rewrite (search_head IGNORECASE part_re _
             {| Re.whole :=
                  Spec.token_text t ++ " " ++ String l u' ++ " "
                  ++ String a name';
                Re.groups := [(3, String a name'); (2, String l u');
                              (1, Spec.token_text t)] |}).
  - reflexivity.
  - unfold Re.match_here. rewrite part_match by assumption.
    f_equal. f_equal.
    rewrite <- (app_nil_r (Spec.token_text t ++ _)) at 2.
    apply take_app.
Qed.

(** ** The line pattern on a well-formed line *)

Lemma rmatch_text_eq fl r (R : Type) p s s0 g (k : Re.cont R) :
  s = s0 -> Re.rmatch fl r p s g k = Re.rmatch fl r p s0 g k.
Proof. intros ->. reflexivity. Qed.

Lemma token_text_head t :
  Spec.token_valid t = true ->
  exists c q, Spec.token_text t = String c q /\ Chr.isdecimal c = true.
Proof.
  assert (Hd : forall d s, Spec.digit_string d = true ->
            exists c q, d ++ s = String c q /\ Chr.isdecimal c = true).
  { intros d s H. destruct (digit_string_inv d H) as (_ & c & q & -> & Hc).
    rewrite app_cons. eauto. }
  destruct t as [d | i f | n d | w n d]; cbn [Spec.token_valid Spec.token_text];
    intros Hv.
  - rewrite <- (app_nil_r d). apply Hd, Hv.
  - apply andb_true_iff in Hv as [Hi _]. apply Hd, Hi.
  - apply andb_true_iff in Hv as [Hv _]. apply andb_true_iff in Hv as [Hn _].
    apply Hd, Hn.
  - apply andb_true_iff in Hv as [Hv _]. apply andb_true_iff in Hv as [Hv _].
    apply andb_true_iff in Hv as [Hw _]. apply Hd, Hw.
Qed.

Lemma not_comma_cls a :
  Chr.eqb "," a = false -> Re.cls_match IGNORECASE [Re.CLit ","] a = false.
Proof. each_char a; vm_compute; intros H; first [reflexivity | discriminate H]. Qed.

Lemma not_newline_cls a :
  Chr.eqb Chr.newline a = false ->
  Re.cls_match IGNORECASE [Re.CLit Chr.newline] a = false.
Proof. each_char a; vm_compute; intros H; first [reflexivity | discriminate H]. Qed.

(** The lookahead that ends a line refuses a cursor before a character
    that is neither a comma nor a newline. *)
Lemma line_end_none (R : Type) p b s g (k : Re.cont R) :
  Chr.eqb "," b = false -> Chr.eqb Chr.newline b = false ->
  Re.rmatch IGNORECASE
    (Re.Lookahead (Re.alts [Re.chr ","; Re.chr Chr.newline; Re.Eol]))
    p (String b s) g k
  = None.
Proof.
  intros Hc Hn. cbn [Re.rmatch Re.alts Re.chr].
  rewrite (not_comma_cls b Hc), (not_newline_cls b Hn).
  replace (Re.at_eol (String b s)) with false; [reflexivity|].
  destruct s; [|reflexivity]. simpl. unfold Chr.eqb in *.
  rewrite N.eqb_sym. symmetry. exact Hn.
Qed.

Lemma line_end_here (R : Type) p s g (k : Re.cont R) :
  s = "" \/ (exists s1, s = String Chr.newline s1) ->
  Re.rmatch IGNORECASE
    (Re.Lookahead (Re.alts [Re.chr ","; Re.chr Chr.newline; Re.Eol]))
    p s g k
  = k p s g.
Proof. intros [-> | (s1 & ->)]; reflexivity. Qed.

Lemma line_match p t l u' a name' tail :
  Spec.token_valid t = true ->
  Str.all Chr.is_ascii_letter (String l u') = true ->
  Chr.isspace a = false ->
  Str.contains "," (String a name') = false ->
  Str.contains nl (String a name') = false ->
  tail = "" \/ (exists s1, tail = String Chr.newline s1) ->
  Re.match_at IGNORECASE line_re p
    ("- " ++ (Spec.token_text t ++ " " ++ String l u' ++ " " ++ String a name')
     ++ tail)
  = Some (String.length
            ("- " ++ Spec.token_text t ++ " " ++ String l u' ++ " "
             ++ String a name'),
          [(1, Spec.token_text t ++ " " ++ String l u' ++ " "
               ++ String a name');
           (3, String l u'); (2, Spec.token_text t)]).
Proof.
  intros Hv Hu Ha Hcomma Hnl Htail.
  assert (Hl : Chr.is_ascii_letter l = true)
    by (simpl in Hu; apply andb_true_iff in Hu; tauto).
  destruct (token_text_head t Hv) as (c & q' & Hq & Hc).
  set (q := Spec.token_text t) in *. set (u := String l u') in *.
  set (name := String a name') in *.
  set (line := q ++ " " ++ u ++ " " ++ name).
  remember (line ++ tail) as L eqn:EL.
  remember ("- " ++ L) as T eqn:ET.
  assert (EL' : L = q ++ String " " (String l (u' ++ String " " (name ++ tail)))).
  { rewrite EL. unfold line. rewrite !app_assoc. reflexivity. }
  unfold Re.match_at. rewrite line_re_unfold.
  rewrite (rmatch_text_eq _ _ _ _ T (String "-" (" " ++ L))) by exact ET.
  unfold Re.chr at 1. rewrite cls_head by reflexivity.
  rewrite rmatch_seq_unfold. unfold space at 1.
  apply star_run;
    [ intros b s1 E; rewrite EL', Hq in E; injection E as <- _;
      rewrite space_cls; exact (proj1 (digit_facts c Hc))
    | reflexivity |].
  rewrite rmatch_seq_unfold, rmatch_group_unfold, rmatch_seq_unfold.
  rewrite rmatch_group_unfold.
  rewrite (rmatch_text_eq _ _ _ _ L _ _ _ EL').
  apply quantity_token; [exact Hv | apply letter_not_digit, Hl |].
  match goal with
  | |- context [(2, Str.take (String.length L - String.length ?s) L)] =>
      replace (Str.take (String.length L - String.length s) L) with q
        by (rewrite EL'; symmetry; apply take_prefix)
  end.
  rewrite rmatch_seq_unfold. unfold space at 1.
  apply star_run
    with (t := " ") (s' := String l (u' ++ String " " (name ++ tail)));
    [ intros b s1 E; injection E as <- _; rewrite space_cls;
      apply letter_not_space, Hl
    | reflexivity |].
  rewrite rmatch_seq_unfold, rmatch_group_unfold. unfold letters.
  apply plus_run with (t := u) (s' := String " " (name ++ tail));
    [ intros b s1 E; injection E as <- _; reflexivity
    | eapply all_impl; [|exact Hu]; intros b Hb; apply letter_cls, Hb
    | discriminate |].
  match goal with
  | |- context [(3, Str.take ?n ?s)] =>
      replace (Str.take n s) with u
        by (symmetry; apply (take_prefix u (String " " (name ++ tail))))
  end.
  rewrite rmatch_seq_unfold. unfold space.
  apply plus_run with (t := " ") (s' := name ++ tail);
    [ intros b s1 E; injection E as <- _; rewrite space_cls; exact Ha
    | reflexivity | discriminate |].
  rewrite rmatch_star_unfold. unfold dot.
  apply contains_char_all in Hcomma, Hnl.
  apply lazy_run.
  - eapply all_impl; [|exact Hnl].
    intros b Hb. rewrite dot_cls. unfold Chr.eqb in *.
    rewrite N.eqb_sym. exact Hb.
  - apply Nat.le_refl.
  - intros v w E Hw. destruct w as [|b w]; [contradiction Hw; reflexivity|].
    rewrite E, all_app in Hcomma, Hnl.
    apply andb_true_iff in Hcomma as [_ Hcomma].
    apply andb_true_iff in Hnl as [_ Hnl]. simpl in Hcomma, Hnl.
    apply andb_true_iff in Hcomma as [Hcomma _].
    apply andb_true_iff in Hnl as [Hnl _].
    apply negb_true_iff in Hcomma, Hnl.
    rewrite app_cons. apply line_end_none; assumption.
  - rewrite line_end_here by exact Htail.
    rewrite EL, take_prefix. f_equal. f_equal.
    rewrite ET, EL. change ("- " ++ line ++ tail) with (("- " ++ line) ++ tail).
    apply Nat.add_sub_eq_l. rewrite !length_app. lia.
Qed.

(** ** The lines the scan discovers *)

Lemma line_match_prev p p' s :
  Re.match_at IGNORECASE line_re p s = Re.match_at IGNORECASE line_re p' s.
Proof. unfold Re.match_at. rewrite line_re_unfold. destruct s; reflexivity. Qed.

Lemma scan_prev skip p p' s :
  Re.scan IGNORECASE line_re skip p s = Re.scan IGNORECASE line_re skip p' s.
Proof.
  destruct skip, s; cbn [Re.scan]; try reflexivity;
    rewrite (line_match_prev p p'); reflexivity.
Qed.

Lemma scan_skip fl r t : forall p s,
  Re.scan fl r (String.length t) p (t ++ s) = Re.scan fl r 0 (Str.last p t) s.
Proof.
  induction t as [|a t IH]; intros p s; [reflexivity|].
  rewrite app_cons. cbn [String.length Re.scan Str.last]. apply IH.
Qed.

Lemma discovered_canonical p t l u' a name' tail :
  Spec.token_valid t = true ->
  Str.all Chr.is_ascii_letter (String l u') = true ->
  Chr.isspace a = false ->
  Str.contains "," (String a name') = false ->
  Str.contains nl (String a name') = false ->
  tail = "" \/ (exists s1, tail = String Chr.newline s1) ->
  omap (Re.group 1)
    (Re.scan IGNORECASE line_re 0 p
       ("- " ++ (Spec.token_text t ++ " " ++ String l u' ++ " "
                 ++ String a name') ++ tail))
  = (Spec.token_text t ++ " " ++ String l u' ++ " " ++ String a name')
    :: omap (Re.group 1)
         (Re.scan IGNORECASE line_re 0 None (Str.drop 1 tail)).
Proof.
  intros Hv Hu Ha Hcomma Hnl Htail.
  pose proof (line_match p t l u' a name' tail Hv Hu Ha Hcomma Hnl Htail) as Hm.
  set (line := Spec.token_text t ++ " " ++ String l u' ++ " " ++ String a name')
    in *.
  change ("- " ++ line ++ tail) with (String "-" (" " ++ line ++ tail)) in *.
  cbn [Re.scan]. rewrite Hm.
  change (String.length ("- " ++ line)) with (S (String.length (" " ++ line))).
  cbn [Nat.pred].
  change (" " ++ line ++ tail) with ((" " ++ line) ++ tail).
  rewrite scan_skip.
  change (omap (Re.group 1) (?m :: ?l)) with (line :: omap (Re.group 1) l).
  f_equal. f_equal.
  destruct Htail as [-> | (s1 & ->)].
  - reflexivity.
  - cbn [Re.scan Str.drop].
    rewrite line_re_needs_hyphen by reflexivity. apply scan_prev.
Qed.

(** ** The record of a well-formed line *)

Lemma strip_fixed_ends name :
  name <> "" -> Str.strip name = name ->
  exists a name' c,
    name = String a name' /\ Chr.isspace a = false
    /\ Str.last None name = Some c /\ Chr.isspace c = false.
Proof.
  intros Hne Hs. unfold Str.strip, Str.lstrip_by in Hs.
  destruct (drop_while_head Chr.isspace name) as [E | (a & t & E & Ha)];
    rewrite E in Hs.
  - contradiction Hne. rewrite <- Hs. reflexivity.
  - destruct (rstrip_by_head Chr.isspace a t Ha) as (v & Hv).
    destruct (rstrip_by_ends Chr.isspace (String a t)) as [E0 | (c & Hc & Hsp)].
    + rewrite E0 in Hs. contradiction Hne. symmetry. exact Hs.
    + rewrite Hs in Hv, Hc. exists a, v, c. auto.
Qed.

Lemma parse_part_canonical t u name x :
  Spec.token_valid t = true ->
  parse_quantity (Spec.token_text t) = Some x ->
  Float.truthy x = true ->
  Str.all Chr.is_ascii_letter u = true ->
  In (Str.lower (Str.rstrip "s" u)) unit_forms ->
  name <> "" -> Str.strip name = name ->
  Str.contains nl name = false ->
  parse_part (Spec.token_text t ++ " " ++ u ++ " " ++ name)
  = Some {| ingredient := Str.strip (Str.replace "-" " " (Str.lower name));
            quantity := x;
            unit_ := Str.lower (Str.rstrip "s" u) |}.
Proof.
  intros Hv Hq Hx Hu Hform Hne Hstrip Hnl.
  destruct (strip_fixed_ends name Hne Hstrip) as (a & name' & c & -> & Ha & _).
  destruct (unit_forms_letters _ Hform) as [Hune _].
  rewrite nonempty_lower in Hune.
  destruct u as [|l u']; [discriminate Hune|].
  rewrite (parse_part_unfold _ _ _ _
             (part_groups_canonical t l u' a name' Hv Hu Ha Hnl)).
  destruct (unit_search_complete _ Hform) as (um & Hum).
  pose proof (all_rstrip_by
                (fun b => Str.contains (String b "") "s") _ _ Hu) as Hlet.
  fold (Str.rstrip "s" (String l u')) in Hlet.
  destruct (unit_search_sound _ _ Hlet Hum) as [Hw _].
  rewrite Hum, Hq, Hx, Hw, nonempty_lower, Hune. reflexivity.
Qed.

(** X12. A well-formed line gives its record. For a quantity of one of
    the four shapes that parses to a non-zero number, a unit token of
    letters that is a unit form once its trailing "s" are stripped, and a
    name without comma, newline or whitespace at its ends, the line
    "- quantity unit name" alone yields exactly the record of the parsed
    quantity, the stripped unit in lower case and the normalized name; and
    followed by a newline and more text it yields that record before the
    records of the rest. *)
Theorem well_formed_line t u name x rest :
  Spec.token_valid t = true ->
  parse_quantity (Spec.token_text t) = Some x ->
  Float.truthy x = true ->
  Str.all Chr.is_ascii_letter u = true ->
  In (Str.lower (Str.rstrip "s" u)) unit_forms ->
  name <> "" -> Str.strip name = name ->
  Str.contains "," name = false ->
  Str.contains nl name = false ->
  let line := Spec.token_text t ++ " " ++ u ++ " " ++ name in
  let r := {| ingredient := Str.strip (Str.replace "-" " " (Str.lower name));
              quantity := x;
              unit_ := Str.lower (Str.rstrip "s" u) |} in
  extract_ingredients ("- " ++ line) = [r]
  /\ extract_ingredients ("- " ++ line ++ nl ++ rest)
     = r :: extract_ingredients rest.
Proof.
  intros Hv Hq Hx Hu Hform Hne Hstrip Hcomma Hnl. cbv zeta.
  pose proof (parse_part_canonical t u name x Hv Hq Hx Hu Hform Hne Hstrip Hnl)
    as Hpart.
  destruct (strip_fixed_ends name Hne Hstrip)
    as (a & name' & c & En & Ha & Hlast & Hc).
  destruct (unit_forms_letters _ Hform) as [Hune _].
  rewrite nonempty_lower in Hune.
  destruct u as [|l u']; [discriminate Hune|].
  destruct (token_text_head t Hv) as (d & q' & Eq & Hd).
  set (line := Spec.token_text t ++ " " ++ String l u' ++ " " ++ name) in *.
  assert (Hline : Str.strip line = line).
  { unfold line. rewrite Eq, app_cons. apply (strip_ends d _ c).
    - exact (proj1 (digit_facts d Hd)).
    - rewrite <- Hlast, En. rewrite <- app_cons, !last_app. reflexivity.
    - exact Hc. }
  assert (Hone : forall tail,
            tail = "" \/ (exists s1, tail = String Chr.newline s1) ->
            extract_ingredients ("- " ++ line ++ tail)
            = {| ingredient := Str.strip (Str.replace "-" " " (Str.lower name));
                 quantity := x;
                 unit_ := Str.lower (Str.rstrip "s" (String l u')) |}
              :: extract_ingredients (Str.drop 1 tail)).
  { intros tail Htail.
    assert (Hd1 : discovered_lines ("- " ++ line ++ tail)
                  = line :: discovered_lines (Str.drop 1 tail)).
    { unfold discovered_lines, Re.finditer, line. rewrite En in *.
      apply discovered_canonical; assumption. }
    assert (Hparts : line_parts line = [line]).
    { rewrite (line_parts_single ("- " ++ line ++ tail) line)
        by (rewrite Hd1; left; reflexivity).
      rewrite Hline. reflexivity. }
    unfold extract_ingredients. rewrite Hd1. cbn [flat_map].
    rewrite Hparts. cbn [omap list_omap]. rewrite Hpart. reflexivity. }
  split.
  - rewrite <- (app_nil_r line) at 1. rewrite (Hone "") by (left; reflexivity).
    reflexivity.
  - apply (Hone (nl ++ rest)). right. exists rest. reflexivity.
Qed.

Lemma well_formed_line_witness :
  extract_ingredients ("- " ++ "1 1/2" ++ " " ++ "Cups" ++ " " ++ "Brown-Sugar")
  = [ {| ingredient := "brown sugar"; quantity := Float.of_Q (3 # 2);
         unit_ := "cup" |} ]
  /\ extract_ingredients
       ("- " ++ ("1 1/2" ++ " " ++ "Cups" ++ " " ++ "Brown-Sugar") ++ nl
        ++ "- 1 tsp salt")
     = {| ingredient := "brown sugar"; quantity := Float.of_Q (3 # 2);
          unit_ := "cup" |}
       :: extract_ingredients "- 1 tsp salt".
Proof.
  apply (well_formed_line (Spec.TMixed "1" "1" "2") "Cups" "Brown-Sugar"
           (Float.of_Q (3 # 2)) "- 1 tsp salt");
    try (vm_compute; reflexivity).
  - vm_compute. left. reflexivity.
  - discriminate.
Defined.

(** * The validator run twice *)

Lemma cleanup_item_idempotent item item' :
  cleanup_item item = Ok item' -> cleanup_item item' = Ok item'.
Proof.
  intros H. pose proof (cleanup_item_single _ _ H) as Hb.
  destruct (cleanup_item_cleaned _ _ H) as (fields' & -> & Hn & Hs).
  rewrite cleanup_item_dict. cbv zeta.
  rewrite (delete_id fields' "notes" Hn), (delete_id fields' "state" Hs).
  simpl in Hb. rewrite Hb. reflexivity.
Qed.

Lemma py_mapM_fixed {A : Type} (f : A -> py A) l :
  Forall (fun a => f a = Ok a) l -> py_mapM f l = Ok l.
Proof.
  induction 1 as [|a l Ha _ IH]; [reflexivity|]. simpl.
  rewrite Ha. simpl. rewrite IH. reflexivity.
Qed.

(** X13. The validator is idempotent: run again on what it returned, it
    returns the same value. *)
Theorem cleanup_results_idempotent results v :
  cleanup_results results = Ok v -> cleanup_results v = Ok v.
Proof.
  unfold cleanup_results. intros H.
  destruct (PyObj.iter results) as [items|e] eqn:Eit; [|discriminate].
  simpl in H. destruct (py_mapM cleanup_item items) as [items'|e] eqn:Em;
    [|discriminate]. simpl in H. inversion H; subst; clear H.
  destruct results as [| | | | s | l | fields]; try discriminate.
  - rewrite Eit. simpl. rewrite Em. reflexivity.
  - simpl in Eit. inversion Eit; subst; clear Eit. simpl.
    rewrite py_mapM_fixed; [reflexivity|].
    apply py_mapM_Forall2 in Em. clear -Em.
    induction Em as [|a b l l' Hab _ IH]; constructor;
      [exact (cleanup_item_idempotent _ _ Hab) | exact IH].
  - rewrite Eit. simpl. rewrite Em. reflexivity.
Qed.

Lemma cleanup_results_idempotent_witness :
  cleanup_results
    (JArr [JObj (<["ingredient" := JStr "milk"]> (<["ml" := JInt 240]> ∅))])
  = Ok (JArr [JObj (<["ingredient" := JStr "milk"]>
                    (<["ml" := JInt 240]> ∅))]).
Proof.
  apply (cleanup_results_idempotent
           (JArr [JObj (<["ingredient" := JStr "milk"]>
                        (<["ml" := JInt 240]>
                         (<["grams" := JInt 245]>
                          (<["notes" := JStr "cold"]> ∅))))])).
  vm_compute. reflexivity.
Defined.

(** * Text before the first hyphen *)

Lemma scan_before_hyphen pre : forall p text,
  Str.all (fun a => negb (Chr.eqb "-" a)) pre = true ->
  Re.scan IGNORECASE line_re 0 p (pre ++ text)
  = Re.scan IGNORECASE line_re 0 None text.
Proof.
  induction pre as [|a pre IH]; intros p text H.
  - rewrite app_nil_l. apply scan_prev.
  - simpl in H. apply andb_true_iff in H as [Ha Hp].
    apply negb_true_iff in Ha. rewrite app_cons. cbn [Re.scan].
    rewrite (line_re_needs_hyphen p a _ Ha). apply IH. exact Hp.
Qed.

(** X14. Text without a hyphen in front of a recipe changes nothing: the
    records are those of the text from its first hyphen on. *)
Theorem text_before_first_hyphen pre text :
  Str.contains "-" pre = false ->
  extract_ingredients (pre ++ text) = extract_ingredients text.
Proof.
  intros H. apply contains_char_all in H.
  unfold extract_ingredients, discovered_lines, Re.finditer.
  rewrite scan_before_hyphen by exact H. reflexivity.
Qed.

Lemma text_before_first_hyphen_witness :
  extract_ingredients ("Ingredients:" ++ nl ++ "  " ++ "- 2 cups flour")
  = extract_ingredients "- 2 cups flour".
Proof.
  apply (text_before_first_hyphen ("Ingredients:" ++ nl ++ "  ")).
  reflexivity.
Defined.
